(** * Write-path orchestration core of the distributed DB simulator

    A shallow embedding of [src/backend/server.js]: query classification
    ([parseTransId], [isWriteQuery]), the lock manager ([startTransaction],
    [commitTransaction]), the read gate ([canReadProceed]), the replication
    engine ([replicateWrite]), replay ([replayFailedReplications]) and the
    two request handlers that sequence them ([POST /api/query/execute],
    [POST /api/nodes/recover]).

    Conventions of the model:
    - a JavaScript string is a [string] of 8-bit code units;
    - a node name is the string the request carries (['node0'], ...); the
      names JavaScript would find on [Object.prototype] are left out;
    - the module-level variables of the server are the fields of [World];
    - the MySQL pools are outside the program: they are section variables
      acting on an opaque store state, every call to them is recorded in
      the [io] trace of the world;
    - requests run to completion without interleaving, except at the timer
      waits of the two polling loops, where the rest of the system acts
      through the section variable [sleep];
    - the clock advances at those waits only: a call on a pool takes no
      time in the model, so that two times read by one request with only
      such calls between them are equal, where the server may read a later
      one;
    - the polling loops take a bound [fuel] on the number of their waits;
      a loop that needs more ends in [OutOfFuel], which no [catch] sees. *)

From stdpp Require Import gmap strings list fin_maps pretty.
From Stdlib Require Import ZArith Ascii String Lia.

Local Open Scope string_scope.
Local Open Scope list_scope.
Local Open Scope Z_scope.

(** ** Query text *)

Module QueryText.

(** White space of the regular expression class [\s] and of
    [String.prototype.trim], restricted to 8-bit code units. *)
Definition is_space (c : ascii) : bool :=
  let n := nat_of_ascii c in
  (Nat.eqb n 9 || Nat.eqb n 10 || Nat.eqb n 11 || Nat.eqb n 12
   || Nat.eqb n 13 || Nat.eqb n 32 || Nat.eqb n 160)%bool.

Definition is_digit (c : ascii) : bool :=
  let n := nat_of_ascii c in (Nat.leb 48 n && Nat.leb n 57)%bool.

(** Case folding of the letters a-z, which is all that [toUpperCase] and the
    [i] flag do to the code units that can meet an ASCII pattern. *)
Definition upper (c : ascii) : ascii :=
  let n := nat_of_ascii c in
  if (Nat.leb 97 n && Nat.leb n 122)%bool then ascii_of_nat (n - 32) else c.

Definition ascii_eqb_ci (a b : ascii) : bool := Ascii.eqb (upper a) (upper b).

(** [strip_prefix_ci p s] is the rest of [s] after the prefix [p], compared
    without case, or [None] when [s] does not start with [p]. *)
Fixpoint strip_prefix_ci (p s : string) : option string :=
  match p with
  | EmptyString => Some s
  | String a p' =>
      match s with
      | EmptyString => None
      | String b s' => if ascii_eqb_ci a b then strip_prefix_ci p' s' else None
      end
  end.

Fixpoint skip_spaces (s : string) : string :=
  match s with
  | String c s' => if is_space c then skip_spaces s' else s
  | EmptyString => EmptyString
  end.

(** The longest run of decimal digits at the head of [s], most significant
    first, as digit values. *)
Fixpoint take_digits (s : string) : list Z :=
  match s with
  | String c s' =>
      if is_digit c then (Z.of_nat (nat_of_ascii c) - 48) :: take_digits s' else []
  | EmptyString => []
  end.

(** [Number.MAX_SAFE_INTEGER], 2^53 - 1: up to it every integer is a
    Number, and is printed and parsed without rounding. *)
Definition MAX_SAFE_INTEGER : Z := 9007199254740991.

(** [parseInt(digits, 10)] on a non-empty run of digits. The model keeps
    the integer exactly; JavaScript does so up to [MAX_SAFE_INTEGER] and
    rounds to a Number above it, so that what is stated of the value of an
    id is stated up to that bound. *)
Definition parseInt (ds : list Z) : Z := fold_left (fun acc d => 10 * acc + d) ds 0.

(** One attempt of [/WHERE\s+trans_id\s*=\s*(\d+)/i] at the head of [s].
    Every quantifier is followed by a character outside its class, so the
    greedy choice is the only one that can match. *)
Definition match_here (s : string) : option Z :=
  match strip_prefix_ci "WHERE" s with
  | Some (String c r1) =>
      if is_space c then
        match strip_prefix_ci "trans_id" (skip_spaces r1) with
        | Some r2 =>
            match skip_spaces r2 with
            | String "="%char r3 =>
                match take_digits (skip_spaces r3) with
                | [] => None
                | ds => Some (parseInt ds)
                end
            | _ => None
            end
        | None => None
        end
      else None
  | _ => None
  end.

(** [RegExp.prototype.exec]: the leftmost position where the pattern
    matches. *)
Fixpoint regex_exec (s : string) : option Z :=
  match match_here s with
  | Some n => Some n
  | None =>
      match s with
      | String _ s' => regex_exec s'
      | EmptyString => None
      end
  end.

(** [parseTransId(query)]: the number after [WHERE trans_id =], or [null]. *)
Definition parseTransId (query : string) : option Z := regex_exec query.

(** [upper.startsWith(p)] for [upper = query.trim().toUpperCase()]. *)
Definition starts_with_upper (p query : string) : bool :=
  match strip_prefix_ci p (skip_spaces query) with
  | Some _ => true
  | None => false
  end.

(** [isWriteQuery(query)]; the same test opens [replicateWrite]. *)
Definition isWriteQuery (query : string) : bool :=
  (starts_with_upper "UPDATE" query || starts_with_upper "INSERT" query
   || starts_with_upper "DELETE" query)%bool.

(** JavaScript truthiness of a parsed id: [null] and [0] are falsy.
    [truthy_id t] is the id when it is truthy. *)
Definition truthy_id (t : option Z) : option Z :=
  match t with
  | Some n => if Z.eqb n 0 then None else Some n
  | None => None
  end.

Definition is_truthy (t : option Z) : bool :=
  match truthy_id t with
  | Some _ => true
  | None => false
  end.

End QueryText.

Import QueryText.

(** ** Queries built by the dashboard *)

Module Dashboard.

(** The query of [runConcurrentReads]:
    [`SELECT * FROM trans WHERE trans_id = ${id}`] with [id = Number(recordId)],
    for an [id] that is a natural number up to [MAX_SAFE_INTEGER]: such a
    Number is the integer itself and the template prints it in decimal.
    Above the bound the Number is a rounded value, printed with an exponent
    from 10^21 on, which this definition does not follow. *)
Definition read_query (id : N) : string :=
  "SELECT * FROM trans WHERE trans_id = " +:+ pretty id.

(** The query of [executeDeleteOperation]:
    [`DELETE FROM trans WHERE trans_id = ${transId}`] with the text of the
    input field. *)
Definition delete_query (transId : string) : string :=
  "DELETE FROM trans WHERE trans_id = " +:+ transId.

End Dashboard.

(** ** Data model *)

(** A JavaScript [Date]: a time value in milliseconds since the epoch, or
    the Invalid Date, whose time value is NaN. *)
Inductive JsDate :=
| DateValue (ms : Z)
| InvalidDate.

(** [new Date('1997-01-01T00:00:00Z')]: 9862 days after the epoch. *)
Definition FRAG_BOUNDARY : Z := 852076800000.

(** [date < boundary] on Dates compares time values; NaN compares false. *)
Definition date_lt (d : JsDate) (boundary : Z) : bool :=
  match d with
  | DateValue ms => Z.ltb ms boundary
  | InvalidDate => false
  end.

(** Days from 1970-01-01 to the civil date [y]-[m]-[d] (proleptic
    Gregorian calendar), and the time value of its midnight UTC. *)
Definition days_from_civil (y m d : Z) : Z :=
  let y' := if Z.leb m 2 then y - 1 else y in
  let era := y' / 400 in
  let yoe := y' - era * 400 in
  let doy := (153 * (if Z.ltb 2 m then m - 3 else m + 9) + 2) / 5 + d - 1 in
  let doe := yoe * 365 + yoe / 4 - yoe / 100 + doy in
  era * 146097 + doe - 719468.

Definition utc_midnight (y m d : Z) : JsDate :=
  DateValue (86400000 * days_from_civil y m d).

(** [status] of a replication entry: ['pending'], ['replicated'], ['failed']. *)
Inductive Status := Pending | Replicated | Failed.

Global Instance Status_eq_dec : EqDecision Status.
Proof. solve_decision. Defined.

(** An element of [replicationQueue]. [entry_error = None] stands for an
    absent or [undefined] [error] property. *)
Record Entry := {
  entry_id : nat;
  entry_source : string;
  entry_target : string;
  entry_query : string;
  entry_status : Status;
  entry_error : option string;
  entry_time : Z;
  entry_recoveryTime : option Z
}.

(** A value of [activeTransactions]: [{ node, startTime }]. *)
Record Marker := {
  marker_node : string;
  marker_startTime : Z
}.

(** What the server throws: the two timeouts of the polling loops and the
    rejections of the pool calls. [error_message] is the [message] of the
    JavaScript [Error]. *)
Inductive Error :=
| LockTimeout (transId : Z)
| ReadTimeout (isolationLevel : string)
| StoreError (message : string).

(** [error.message]. *)
Definition error_message (e : Error) : string :=
  match e with
  | LockTimeout transId =>
      "Transaction " +:+ pretty transId
        +:+ ": Timeout waiting for concurrent write to complete"
  | ReadTimeout isolationLevel =>
      isolationLevel +:+ ": Timeout waiting for transaction"
  | StoreError message => message
  end.

(** [status] of a transaction log entry. *)
Inductive LogStatus := LogPending | LogCommitted | LogFailed.

(** A value of [nodeStatus]. *)
Record NodeStatus := {
  ns_status : string;
  ns_lastCheck : option Z;
  ns_error : option string;
  ns_failureTime : option Z
}.

(** Calls that leave the program, in the order they are made, and of the
    console output the two lines that mark the life of a marker. *)
Inductive IOEvent :=
| GetConnection (node : string)
| ConnQuery (node : string) (sql : string)
| ConnSelectNewdate (node : string) (transId : Z)
| TimerWait (ms : Z)
| ConsoleTxnStart (transId : Z) (node : string)
| ConsoleTxnCommit (transId : Z).

(** Result of a computation of the server. [OutOfFuel] belongs to the
    model only: the polling loop was given too few iterations. *)
Inductive Outcome (A : Type) :=
| Done (a : A)
| Thrown (e : Error)
| OutOfFuel.

Arguments Done {A} a.
Arguments Thrown {A} e.
Arguments OutOfFuel {A}.

Definition TRANSACTION_TIMEOUT : Z := 5000.
Definition POLL_INTERVAL : Z := 50.

(** The keys of [pools]. *)
Definition pools : list string := ["node0"; "node1"; "node2"].

Definition has_pool (node : string) : bool := bool_decide (node ∈ pools).

Section Server.

(** Rows returned by a query, and the state of the three stores together
    with whatever decides whether a connection succeeds. *)
Context {Rows DB : Type}.

(** An element of [transactionLog]. [log_error] keeps the error thrown;
    the property of the object is its [error_message]. *)
Record LogEntry := {
  log_transactionId : nat;
  log_node : string;
  log_query : string;
  log_isolationLevel : string;
  log_startTime : Z;
  log_status : LogStatus;
  log_endTime : option Z;
  log_results : option Rows;
  log_replication : option (list (string * Status));
  log_error : option Error
}.

(** The module-level state of the server, the clock, the identifiers
    handed out by [uuidv4], the stores and the trace of outside calls. *)
Record World := {
  simulatedFailures : gmap string bool;
  nodeStatus : gmap string NodeStatus;
  replicationQueue : list Entry;
  transactionLog : list LogEntry;
  activeTransactions : gmap Z Marker;
  clock : Z;
  uuid_next : nat;
  store : DB;
  io : list IOEvent
}.

(** The pools: [getConnection] answers [Some message] when it rejects;
    a query answers rows or the message of its rejection; the date lookup
    answers the [newdate] of each row found, already converted by
    [x instanceof Date ? x : new Date(x)]. *)
Variable getConnection : string -> DB -> option string * DB.
Variable conn_query : string -> string -> DB -> (Rows + string) * DB.
Variable conn_select_newdate : string -> Z -> DB -> (list JsDate + string) * DB.

(** What the other requests and the wall clock do to the world while this
    request waits on a timer of [ms] milliseconds. *)
Variable sleep : Z -> World -> World.

(** *** Field updates *)

Definition set_simulatedFailures (f : gmap string bool) (w : World) : World :=
  {| simulatedFailures := f; nodeStatus := nodeStatus w;
     replicationQueue := replicationQueue w; transactionLog := transactionLog w;
     activeTransactions := activeTransactions w; clock := clock w;
     uuid_next := uuid_next w; store := store w; io := io w |}.

Definition set_nodeStatus (n : gmap string NodeStatus) (w : World) : World :=
  {| simulatedFailures := simulatedFailures w; nodeStatus := n;
     replicationQueue := replicationQueue w; transactionLog := transactionLog w;
     activeTransactions := activeTransactions w; clock := clock w;
     uuid_next := uuid_next w; store := store w; io := io w |}.

Definition set_replicationQueue (q : list Entry) (w : World) : World :=
  {| simulatedFailures := simulatedFailures w; nodeStatus := nodeStatus w;
     replicationQueue := q; transactionLog := transactionLog w;
     activeTransactions := activeTransactions w; clock := clock w;
     uuid_next := uuid_next w; store := store w; io := io w |}.

Definition set_transactionLog (l : list LogEntry) (w : World) : World :=
  {| simulatedFailures := simulatedFailures w; nodeStatus := nodeStatus w;
     replicationQueue := replicationQueue w; transactionLog := l;
     activeTransactions := activeTransactions w; clock := clock w;
     uuid_next := uuid_next w; store := store w; io := io w |}.

Definition set_activeTransactions (a : gmap Z Marker) (w : World) : World :=
  {| simulatedFailures := simulatedFailures w; nodeStatus := nodeStatus w;
     replicationQueue := replicationQueue w; transactionLog := transactionLog w;
     activeTransactions := a; clock := clock w;
     uuid_next := uuid_next w; store := store w; io := io w |}.

Definition set_clock (t : Z) (w : World) : World :=
  {| simulatedFailures := simulatedFailures w; nodeStatus := nodeStatus w;
     replicationQueue := replicationQueue w; transactionLog := transactionLog w;
     activeTransactions := activeTransactions w; clock := t;
     uuid_next := uuid_next w; store := store w; io := io w |}.

Definition set_uuid_next (n : nat) (w : World) : World :=
  {| simulatedFailures := simulatedFailures w; nodeStatus := nodeStatus w;
     replicationQueue := replicationQueue w; transactionLog := transactionLog w;
     activeTransactions := activeTransactions w; clock := clock w;
     uuid_next := n; store := store w; io := io w |}.

Definition set_store (s : DB) (w : World) : World :=
  {| simulatedFailures := simulatedFailures w; nodeStatus := nodeStatus w;
     replicationQueue := replicationQueue w; transactionLog := transactionLog w;
     activeTransactions := activeTransactions w; clock := clock w;
     uuid_next := uuid_next w; store := s; io := io w |}.

Definition record_io (e : IOEvent) (w : World) : World :=
  {| simulatedFailures := simulatedFailures w; nodeStatus := nodeStatus w;
     replicationQueue := replicationQueue w; transactionLog := transactionLog w;
     activeTransactions := activeTransactions w; clock := clock w;
     uuid_next := uuid_next w; store := store w; io := io w ++ [e] |}.

(** *** The monad of the server: state and exceptions *)

Definition M (A : Type) : Type := World -> Outcome A * World.

Definition ret {A} (a : A) : M A := fun w => (Done a, w).

Definition throw {A} (e : Error) : M A := fun w => (Thrown e, w).

Definition bind {A B} (m : M A) (k : A -> M B) : M B :=
  fun w =>
    match m w with
    | (Done a, w') => k a w'
    | (Thrown e, w') => (Thrown e, w')
    | (OutOfFuel, w') => (OutOfFuel, w')
    end.

(** [try { m } catch (e) { h e }]. *)
Definition try_catch {A} (m : M A) (h : Error -> M A) : M A :=
  fun w =>
    match m w with
    | (Thrown e, w') => h e w'
    | r => r
    end.

Definition gets {A} (f : World -> A) : M A := fun w => (Done (f w), w).

Definition modify (f : World -> World) : M unit := fun w => (Done tt, f w).

Notation "'let*' x ':=' m 'in' k" := (bind m (fun x => k))
  (at level 10, x name, m at level 100, k at level 200).
Notation "m1 ';;' m2" := (bind m1 (fun _ => m2))
  (at level 100, right associativity).

(** [when c m] is [if (c) { m }]. *)
Definition when (c : bool) (m : M unit) : M unit := if c then m else ret tt.

(** [for (const x of xs) { ys.push(f x) }], collecting the values pushed. *)
Fixpoint for_each {A B} (f : A -> M B) (xs : list A) : M (list B) :=
  match xs with
  | [] => ret []
  | x :: xs' => let* y := f x in let* ys := for_each f xs' in ret (y :: ys)
  end.

(** *** Primitives *)

(** [new Date()] and [Date.now()]. *)
Definition now : M Z := gets clock.

Definition uuidv4 : M nat :=
  fun w => (Done (uuid_next w), set_uuid_next (S (uuid_next w)) w).

(** [await pools[node].getConnection()]. *)
Definition pool_getConnection (node : string) : M unit :=
  fun w =>
    let w1 := record_io (GetConnection node) w in
    match getConnection node (store w1) with
    | (None, s) => (Done tt, set_store s w1)
    | (Some msg, s) => (Thrown (StoreError msg), set_store s w1)
    end.

(** [await conn.query(sql)] on a connection of [node]. *)
Definition pool_query (node sql : string) : M Rows :=
  fun w =>
    let w1 := record_io (ConnQuery node sql) w in
    match conn_query node sql (store w1) with
    | (inl rows, s) => (Done rows, set_store s w1)
    | (inr msg, s) => (Thrown (StoreError msg), set_store s w1)
    end.

(** [await conn.query('SELECT newdate FROM trans WHERE trans_id = ?', [transId])]. *)
Definition pool_select_newdate (node : string) (transId : Z) : M (list JsDate) :=
  fun w =>
    let w1 := record_io (ConnSelectNewdate node transId) w in
    match conn_select_newdate node transId (store w1) with
    | (inl rows, s) => (Done rows, set_store s w1)
    | (inr msg, s) => (Thrown (StoreError msg), set_store s w1)
    end.

(** [await new Promise(resolve => setTimeout(resolve, ms))]. *)
Definition timer_wait (ms : Z) : M unit :=
  fun w => (Done tt, record_io (TimerWait ms) (sleep ms w)).

(** [simulatedFailures[node]] as a condition: a missing key is falsy. *)
Definition is_killed (node : string) (w : World) : bool :=
  default false (simulatedFailures w !! node).

(** ** Lock manager and read gate *)

(** How a polling loop ends. *)
Inductive Poll := Cleared | TimedOut | Exhausted.

(** The loop shared by [startTransaction] and [canReadProceed]:
    [while (activeTransactions[transId]) {
       if (Date.now() - startWait > TRANSACTION_TIMEOUT) throw ...;
       await new Promise(resolve => setTimeout(resolve, 50)); }]
    [fuel] bounds the number of timer waits. *)
Fixpoint wait_while_active (fuel : nat) (transId startWait : Z) (w : World)
  : Poll * World :=
  match activeTransactions w !! transId with
  | None => (Cleared, w)
  | Some _ =>
      if Z.ltb TRANSACTION_TIMEOUT (clock w - startWait) then (TimedOut, w)
      else
        match fuel with
        | O => (Exhausted, w)
        | S fuel' =>
            wait_while_active fuel' transId startWait
              (record_io (TimerWait POLL_INTERVAL) (sleep POLL_INTERVAL w))
        end
  end.

(** The loop as a computation that throws [timeout] when it times out. *)
Definition poll (fuel : nat) (transId : Z) (timeout : Error) : M unit :=
  fun w =>
    match wait_while_active fuel transId (clock w) w with
    | (Cleared, w') => (Done tt, w')
    | (TimedOut, w') => (Thrown timeout, w')
    | (Exhausted, w') => (OutOfFuel, w')
    end.

(** [canReadProceed(transId, isolationLevel)]. *)
Definition canReadProceed (fuel : nat) (transId : option Z) (isolationLevel : string)
  : M bool :=
  fun w =>
    match truthy_id transId with
    | None => ret true w
    | Some k =>
        match activeTransactions w !! k with
        | None => ret true w
        | Some _ =>
            if String.eqb isolationLevel "READ_UNCOMMITTED" then ret true w
            else (poll fuel k (ReadTimeout isolationLevel) ;; ret true) w
        end
    end.

(** [startTransaction(transId, node)]. *)
Definition startTransaction (fuel : nat) (transId : option Z) (node : string)
  : M unit :=
  fun w =>
    match truthy_id transId with
    | None => ret tt w
    | Some k =>
        (when (bool_decide (is_Some (activeTransactions w !! k)))
           (poll fuel k (LockTimeout k)) ;;
         let* t := now in
         modify (fun w' =>
           set_activeTransactions
             (<[k := {| marker_node := node; marker_startTime := t |}]>
                (activeTransactions w')) w') ;;
         modify (record_io (ConsoleTxnStart k node))) w
    end.

(** [commitTransaction(transId)]. *)
Definition commitTransaction (transId : option Z) : M unit :=
  fun w =>
    match truthy_id transId with
    | None => ret tt w
    | Some k =>
        match activeTransactions w !! k with
        | None => ret tt w
        | Some _ =>
            (modify (fun w' =>
               set_activeTransactions (delete k (activeTransactions w')) w') ;;
             modify (record_io (ConsoleTxnCommit k))) w
        end
    end.

(** ** Replication engine *)

(** The lookup of the record date at the head of [replicateWrite]:
    [recordDate] stays [null] when the id is falsy, when the lookup throws
    or when it finds no row. *)
Definition fetch_record_date (sourceNode : string) (transId : option Z)
  : M (option JsDate) :=
  match truthy_id transId with
  | None => ret None
  | Some k =>
      try_catch
        (pool_getConnection sourceNode ;;
         let* rows := pool_select_newdate sourceNode k in
         ret (head rows))
        (fun _ => ret None)
  end.

(** The targets pushed by [replicateWrite]. A Date object is truthy
    whatever its time value. *)
Definition replication_targets (sourceNode : string) (recordDate : option JsDate)
  : list string :=
  if String.eqb sourceNode "node0" then
    match recordDate with
    | Some d => [if date_lt d FRAG_BOUNDARY then "node1" else "node2"]
    | None => ["node1"; "node2"]
    end
  else ["node0"].

Definition set_entry_status (s : Status) (e : Entry) : Entry :=
  {| entry_id := entry_id e; entry_source := entry_source e;
     entry_target := entry_target e; entry_query := entry_query e;
     entry_status := s; entry_error := entry_error e;
     entry_time := entry_time e; entry_recoveryTime := entry_recoveryTime e |}.

Definition set_entry_error (err : option string) (e : Entry) : Entry :=
  {| entry_id := entry_id e; entry_source := entry_source e;
     entry_target := entry_target e; entry_query := entry_query e;
     entry_status := entry_status e; entry_error := err;
     entry_time := entry_time e; entry_recoveryTime := entry_recoveryTime e |}.

Definition set_entry_recoveryTime (t : option Z) (e : Entry) : Entry :=
  {| entry_id := entry_id e; entry_source := entry_source e;
     entry_target := entry_target e; entry_query := entry_query e;
     entry_status := entry_status e; entry_error := entry_error e;
     entry_time := entry_time e; entry_recoveryTime := t |}.

Definition offline_message (target : string) : string :=
  "Node " +:+ target +:+ " is offline (simulated failure)".

(** [try { conn = await pools[node].getConnection(); await conn.query(sql);
    conn.release() } catch (e) { ... e.message ... }]: [None] on success,
    the message caught otherwise. *)
Definition try_apply (node sql : string) : M (option string) :=
  try_catch
    (pool_getConnection node ;; let* _ := pool_query node sql in ret None)
    (fun e => ret (Some (error_message e))).

(** The entry a pending entry becomes after the attempt. *)
Definition settle_entry (caught : option string) (entry : Entry) : Entry :=
  match caught with
  | None => set_entry_status Replicated entry
  | Some msg => set_entry_error (Some msg) (set_entry_status Failed entry)
  end.

Definition push_replication (entry : Entry) : M unit :=
  modify (fun w => set_replicationQueue (replicationQueue w ++ [entry]) w).

(** The body of [for (const target of targets)] in [replicateWrite]. *)
Definition replicate_to (sourceNode query target : string) : M Entry :=
  let* killed := gets (is_killed target) in
  if (killed : bool) then
    let* id := uuidv4 in
    let* t := now in
    let entry :=
      {| entry_id := id; entry_source := sourceNode; entry_target := target;
         entry_query := query; entry_status := Failed;
         entry_error := Some (offline_message target);
         entry_time := t; entry_recoveryTime := None |} in
    push_replication entry ;;
    ret entry
  else
    let* id := uuidv4 in
    let* t := now in
    let pending :=
      {| entry_id := id; entry_source := sourceNode; entry_target := target;
         entry_query := query; entry_status := Pending; entry_error := None;
         entry_time := t; entry_recoveryTime := None |} in
    let* caught := try_apply target query in
    let entry := settle_entry caught pending in
    push_replication entry ;;
    ret entry.

(** [replicateWrite(sourceNode, query)]. *)
Definition replicateWrite (sourceNode query : string) : M (list Entry) :=
  if negb (isWriteQuery query) then ret []
  else
    let transId := parseTransId query in
    let* recordDate := fetch_record_date sourceNode transId in
    let targets := replication_targets sourceNode recordDate in
    for_each (replicate_to sourceNode query) targets.

(** ** Replay *)

Inductive ReplayStatus := ReplaySuccess | ReplayFailed.

(** An element of [results.details]. *)
Record ReplayDetail := {
  detail_id : nat;
  detail_query : string;
  detail_status : ReplayStatus;
  detail_error : option string
}.

(** The [results] object of [replayFailedReplications]. *)
Record ReplayResults := {
  replay_total : nat;
  replay_success : nat;
  replay_failed : nat;
  replay_details : list ReplayDetail
}.

(** The predicate of the [filter] in [replayFailedReplications]. *)
Definition is_failed_for (recoveredNode : string) (entry : Entry) : bool :=
  (String.eqb (entry_target entry) recoveredNode
   && bool_decide (entry_status entry = Failed))%bool.

(** [replicationQueue.filter(...)]: the array it builds holds references to
    the objects of the queue. A reference is the position of the object in
    the queue, kept with the object as the filter saw it; [i] is the
    position of the head of [queue]. *)
Fixpoint select_failed (recoveredNode : string) (i : nat) (queue : list Entry)
  : list (nat * Entry) :=
  match queue with
  | [] => []
  | entry :: queue' =>
      if is_failed_for recoveredNode entry
      then (i, entry) :: select_failed recoveredNode (S i) queue'
      else select_failed recoveredNode (S i) queue'
  end.

(** The three assignments of the success branch of replay. *)
Definition mark_recovered (t : Z) (entry : Entry) : Entry :=
  set_entry_error None
    (set_entry_recoveryTime (Some t) (set_entry_status Replicated entry)).

(** The body of [for (const entry of failedReplications)]. *)
Definition replay_entry (recoveredNode : string) (ref : nat * Entry)
    (results : ReplayResults) : M ReplayResults :=
  let entry := snd ref in
  let* caught := try_apply recoveredNode (entry_query entry) in
  match caught with
  | None =>
      let* t := now in
      modify (fun w =>
        set_replicationQueue
          (alter (mark_recovered t) (fst ref) (replicationQueue w)) w) ;;
      ret {| replay_total := replay_total results;
             replay_success := S (replay_success results);
             replay_failed := replay_failed results;
             replay_details := replay_details results ++
               [{| detail_id := entry_id entry;
                   detail_query := substring 0 100 (entry_query entry);
                   detail_status := ReplaySuccess;
                   detail_error := None |}] |}
  | Some msg =>
      ret {| replay_total := replay_total results;
             replay_success := replay_success results;
             replay_failed := S (replay_failed results);
             replay_details := replay_details results ++
               [{| detail_id := entry_id entry;
                   detail_query := substring 0 100 (entry_query entry);
                   detail_status := ReplayFailed;
                   detail_error := Some msg |}] |}
  end.

Fixpoint replay_loop (recoveredNode : string) (refs : list (nat * Entry))
    (results : ReplayResults) : M ReplayResults :=
  match refs with
  | [] => ret results
  | ref :: refs' =>
      let* results' := replay_entry recoveredNode ref results in
      replay_loop recoveredNode refs' results'
  end.

(** [replayFailedReplications(recoveredNode)]. *)
Definition replayFailedReplications (recoveredNode : string) : M ReplayResults :=
  let* queue := gets replicationQueue in
  let failedReplications := select_failed recoveredNode 0 queue in
  replay_loop recoveredNode failedReplications
    {| replay_total := List.length failedReplications; replay_success := 0;
       replay_failed := 0; replay_details := [] |}.

(** ** Node registry *)

Definition put_nodeStatus (node : string) (s : NodeStatus) : M unit :=
  modify (fun w => set_nodeStatus (<[node := s]> (nodeStatus w)) w).

(** The body of the loop of [checkNodeHealth]. *)
Definition check_node (node : string) : M unit :=
  let* killed := gets (is_killed node) in
  if (killed : bool) then
    let* t := now in
    put_nodeStatus node
      {| ns_status := "offline"; ns_lastCheck := Some t;
         ns_error := Some "Simulated failure"; ns_failureTime := None |}
  else
    let* caught := try_apply node "SELECT 1" in
    let* t := now in
    match caught with
    | None =>
        put_nodeStatus node
          {| ns_status := "online"; ns_lastCheck := Some t;
             ns_error := None; ns_failureTime := None |}
    | Some msg =>
        put_nodeStatus node
          {| ns_status := "offline"; ns_lastCheck := Some t;
             ns_error := Some msg; ns_failureTime := None |}
    end.

(** [checkNodeHealth()]. *)
Definition checkNodeHealth : M unit :=
  check_node "node0" ;; check_node "node1" ;; check_node "node2".

Inductive KillResponse :=
| Killed (status : option NodeStatus)
| KillInvalidNode.

(** [POST /api/nodes/kill]. *)
Definition kill (node : string) : M KillResponse :=
  let* known := gets (fun w => nodeStatus w !! node) in
  match known with
  | Some s =>
      let* t := now in
      modify (fun w =>
        set_simulatedFailures (<[node := true]> (simulatedFailures w)) w) ;;
      put_nodeStatus node
        {| ns_status := "offline"; ns_lastCheck := ns_lastCheck s;
           ns_error := ns_error s; ns_failureTime := Some t |} ;;
      let* s' := gets (fun w => nodeStatus w !! node) in
      ret (Killed s')
  | None => ret KillInvalidNode
  end.

Inductive RecoverResponse :=
| Recovered (status : option NodeStatus)
    (replayedTransactions failedReplays totalProcessed : nat)
| RecoverInvalidNode
| RecoverError (message : string).

(** [POST /api/nodes/recover]. *)
Definition recover (node : string) : M RecoverResponse :=
  try_catch
    (let* known := gets (fun w => nodeStatus w !! node) in
     match known with
     | Some s =>
         modify (fun w =>
           set_simulatedFailures (<[node := false]> (simulatedFailures w)) w) ;;
         put_nodeStatus node
           {| ns_status := ns_status s; ns_lastCheck := ns_lastCheck s;
              ns_error := ns_error s; ns_failureTime := None |} ;;
         let* replayResults := replayFailedReplications node in
         checkNodeHealth ;;
         let* s' := gets (fun w => nodeStatus w !! node) in
         ret (Recovered s' (replay_success replayResults)
                (replay_failed replayResults) (replay_total replayResults))
     | None => ret RecoverInvalidNode
     end)
    (fun e => ret (RecoverError (error_message e))).

(** ** Transaction coordinator: [POST /api/query/execute] *)

(** [req.body]. *)
Record Request := {
  req_node : string;
  req_query : string;
  req_isolationLevel : option string
}.

(** The four responses of the handler: 400, 503, 200 and 500. *)
Inductive Response :=
| InvalidNode
| NodeOffline (transactionId : nat) (node : string)
| Executed (transactionId : nat) (results : Rows)
    (replication : list (string * Status)) (logEntry : LogEntry)
| ExecutionFailed (transactionId : nat) (error : Error) (logEntry : LogEntry).

(** [isolationLevel || 'READ_COMMITTED']. *)
Definition effective_isolation (isolationLevel : option string) : string :=
  match isolationLevel with
  | None => "READ_COMMITTED"
  | Some EmptyString => "READ_COMMITTED"
  | Some level => level
  end.

Definition push_log (logEntry : LogEntry) : M unit :=
  modify (fun w => set_transactionLog (transactionLog w ++ [logEntry]) w).

(** [replicationResults.map(r => ({ target: r.target, status: r.status }))]. *)
Definition replication_summary (results : list Entry) : list (string * Status) :=
  map (fun r => (entry_target r, entry_status r)) results.

(** The two [if] statements between [getConnection] and the query: a write
    with a truthy id takes the lock, a read with a truthy id passes the
    read gate. *)
Definition admission (fuel : nat) (isWrite : bool) (lockTransId : option Z)
    (node effectiveIsolation : string) : M unit :=
  when (isWrite && is_truthy lockTransId)
    (startTransaction fuel lockTransId node) ;;
  when (negb isWrite && is_truthy lockTransId)
    (canReadProceed fuel lockTransId effectiveIsolation ;; ret tt).

(** The handler. The [catch] branch starts from the log entry as it was
    built before [try]: nothing throws after the assignments to it. *)
Definition execute (fuel : nat) (req : Request) : M Response :=
  let node := req_node req in
  let query := req_query req in
  if negb (has_pool node) then ret InvalidNode
  else
    let* transactionId := uuidv4 in
    let* killed := gets (is_killed node) in
    if (killed : bool) then ret (NodeOffline transactionId node)
    else
      let* startTime := now in
      let isWrite := isWriteQuery query in
      let lockTransId := parseTransId query in
      let effectiveIsolation := effective_isolation (req_isolationLevel req) in
      try_catch
        (pool_getConnection node ;;
         admission fuel isWrite lockTransId node effectiveIsolation ;;
         let* results := pool_query node query in
         let* endTime := now in
         let* replicationResults := replicateWrite node query in
         let logEntry :=
           {| log_transactionId := transactionId; log_node := node;
              log_query := query; log_isolationLevel := effectiveIsolation;
              log_startTime := startTime; log_status := LogCommitted;
              log_endTime := Some endTime; log_results := Some results;
              log_replication := Some (replication_summary replicationResults);
              log_error := None |} in
         when (is_truthy lockTransId) (commitTransaction lockTransId) ;;
         push_log logEntry ;;
         ret (Executed transactionId results
                (replication_summary replicationResults) logEntry))
        (fun error =>
           let* endTime := now in
           let logEntry :=
             {| log_transactionId := transactionId; log_node := node;
                log_query := query; log_isolationLevel := effectiveIsolation;
                log_startTime := startTime; log_status := LogFailed;
                log_endTime := Some endTime; log_results := None;
                log_replication := None; log_error := Some error |} in
           when (is_truthy lockTransId) (commitTransaction lockTransId) ;;
           push_log logEntry ;;
           ret (ExecutionFailed transactionId error logEntry)).

(** ** Logs *)

(** [log.endTime && log.endTime > tenMinutesAgo]. *)
Definition recently_ended (tenMinutesAgo : Z) (log : LogEntry) : bool :=
  match log_endTime log with
  | Some t => Z.ltb tenMinutesAgo t
  | None => false
  end.

(** The callback of [transactionLog.forEach] in
    [getRecentlyUpdatedTransIds], on the list built so far. *)
Definition note_recent (tenMinutesAgo : Z) (recentTransIds : list Z) (log : LogEntry)
  : list Z :=
  if (recently_ended tenMinutesAgo log && isWriteQuery (log_query log))%bool then
    match truthy_id (parseTransId (log_query log)) with
    | Some transId =>
        if bool_decide (transId ∈ recentTransIds) then recentTransIds
        else recentTransIds ++ [transId]
    | None => recentTransIds
    end
  else recentTransIds.

(** [getRecentlyUpdatedTransIds()]. *)
Definition getRecentlyUpdatedTransIds : M (list Z) :=
  let* t := now in
  let tenMinutesAgo := t - 10 * 60 * 1000 in
  let* logs := gets transactionLog in
  ret (fold_left (note_recent tenMinutesAgo) logs []).

(** [POST /api/logs/clear]; the answer carries the time. *)
Definition clearLogs : M Z :=
  modify (set_transactionLog []) ;;
  modify (set_replicationQueue []) ;;
  now.

(** The module-level variables as the server starts, over the stores [s]. *)
Definition initial_world (s : DB) : World :=
  let offline :=
    {| ns_status := "offline"; ns_lastCheck := None; ns_error := None;
       ns_failureTime := None |} in
  {| simulatedFailures :=
       <["node0" := false]> (<["node1" := false]> (<["node2" := false]> ∅));
     nodeStatus :=
       <["node0" := offline]> (<["node1" := offline]> (<["node2" := offline]> ∅));
     replicationQueue := []; transactionLog := []; activeTransactions := ∅;
     clock := 0; uuid_next := 0; store := s; io := [] |}.

End Server.

Arguments LogEntry : clear implicits.
Arguments World : clear implicits.
Arguments Response : clear implicits.

(** * Vocabulary of the properties *)

Section Vocabulary.

Context {Rows DB : Type}.
Variable getConnection : string -> DB -> option string * DB.
Variable conn_query : string -> string -> DB -> (Rows + string) * DB.
Variable conn_select_newdate : string -> Z -> DB -> (list JsDate + string) * DB.
Variable sleep : Z -> World Rows DB -> World Rows DB.

Abbreviation World := (World Rows DB).
Abbreviation replicateWrite := (replicateWrite getConnection conn_query conn_select_newdate).
Abbreviation replayFailedReplications := (replayFailedReplications getConnection conn_query).

(** ** The pools seen from the server *)

(** Events of the trace that are calls on a pool. *)
Definition pool_event (ev : IOEvent) : Prop :=
  match ev with
  | GetConnection _ | ConnQuery _ _ | ConnSelectNewdate _ _ => True
  | _ => False
  end.

(** What a computation that only talks to the pools leaves alone. *)
Record pool_frame (w w' : World) : Prop := {
  frame_failures : simulatedFailures w' = simulatedFailures w;
  frame_nodeStatus : nodeStatus w' = nodeStatus w;
  frame_log : transactionLog w' = transactionLog w;
  frame_active : activeTransactions w' = activeTransactions w;
  frame_clock : clock w' = clock w;
  frame_io : exists evs, io w' = io w ++ evs /\ Forall pool_event evs
}.

(** ** Replication engine *)

(** One pass of the loop of [replicateWrite] over its targets, told target
    by target in their order: the store before and after, the entries built
    and the calls made on the pools. [killed] are the fault flags as the
    loop reads them. For a killed target the entry is failed with the
    offline message and no call is made; for the others the query is run on
    a fresh connection to the target, and the entry is replicated when that
    succeeds and failed with the message of the rejection when the
    connection or the query is rejected. The identifier and the time of an
    entry are left open. *)
Inductive attempted (sourceNode query : string) (killed : string -> bool)
  : DB -> list string -> DB -> list Entry -> list IOEvent -> Prop :=
| attempted_nil s :
    attempted sourceNode query killed s [] s [] []
| attempted_killed s target targets s' entries evs id t :
    killed target = true ->
    attempted sourceNode query killed s targets s' entries evs ->
    attempted sourceNode query killed s (target :: targets) s'
      ({| entry_id := id; entry_source := sourceNode; entry_target := target;
          entry_query := query; entry_status := Failed;
          entry_error := Some (offline_message target);
          entry_time := t; entry_recoveryTime := None |} :: entries)
      evs
| attempted_refused s msg s1 target targets s' entries evs id t :
    killed target = false ->
    getConnection target s = (Some msg, s1) ->
    attempted sourceNode query killed s1 targets s' entries evs ->
    attempted sourceNode query killed s (target :: targets) s'
      ({| entry_id := id; entry_source := sourceNode; entry_target := target;
          entry_query := query; entry_status := Failed;
          entry_error := Some msg;
          entry_time := t; entry_recoveryTime := None |} :: entries)
      (GetConnection target :: evs)
| attempted_rejected s s1 msg s2 target targets s' entries evs id t :
    killed target = false ->
    getConnection target s = (None, s1) ->
    conn_query target query s1 = (inr msg, s2) ->
    attempted sourceNode query killed s2 targets s' entries evs ->
    attempted sourceNode query killed s (target :: targets) s'
      ({| entry_id := id; entry_source := sourceNode; entry_target := target;
          entry_query := query; entry_status := Failed;
          entry_error := Some msg;
          entry_time := t; entry_recoveryTime := None |} :: entries)
      (GetConnection target :: ConnQuery target query :: evs)
| attempted_applied s s1 rows s2 target targets s' entries evs id t :
    killed target = false ->
    getConnection target s = (None, s1) ->
    conn_query target query s1 = (inl rows, s2) ->
    attempted sourceNode query killed s2 targets s' entries evs ->
    attempted sourceNode query killed s (target :: targets) s'
      ({| entry_id := id; entry_source := sourceNode; entry_target := target;
          entry_query := query; entry_status := Replicated;
          entry_error := None;
          entry_time := t; entry_recoveryTime := None |} :: entries)
      (GetConnection target :: ConnQuery target query :: evs).

(** ** Replay *)

(** The element pushed on [results.details] for [entry]. *)
Definition detail_of (entry : Entry) (status : ReplayStatus) (err : option string)
  : ReplayDetail :=
  {| detail_id := entry_id entry;
     detail_query := substring 0 100 (entry_query entry);
     detail_status := status; detail_error := err |}.

(** One pass of replay for [node] at time [t], told entry by entry in the
    order of the queue: the store before and after, the queue before and
    after, the details reported and the calls made on the pools. An entry
    that is not a failed entry for [node] is skipped; the query of a failed
    one is run on a fresh connection to [node]; the entry is marked
    recovered when that succeeds and is left as it was when the connection
    or the query is rejected. *)
Inductive replayed (node : string) (t : Z)
  : DB -> list Entry -> DB -> list Entry -> list ReplayDetail -> list IOEvent -> Prop :=
| replayed_nil s :
    replayed node t s [] s [] [] []
| replayed_skip s entry queue s' queue' details evs :
    is_failed_for node entry = false ->
    replayed node t s queue s' queue' details evs ->
    replayed node t s (entry :: queue) s' (entry :: queue') details evs
| replayed_success s s1 rows s2 entry queue s' queue' details evs :
    is_failed_for node entry = true ->
    getConnection node s = (None, s1) ->
    conn_query node (entry_query entry) s1 = (inl rows, s2) ->
    replayed node t s2 queue s' queue' details evs ->
    replayed node t s (entry :: queue) s' (mark_recovered t entry :: queue')
      (detail_of entry ReplaySuccess None :: details)
      (GetConnection node :: ConnQuery node (entry_query entry) :: evs)
| replayed_refused s msg s1 entry queue s' queue' details evs :
    is_failed_for node entry = true ->
    getConnection node s = (Some msg, s1) ->
    replayed node t s1 queue s' queue' details evs ->
    replayed node t s (entry :: queue) s' (entry :: queue')
      (detail_of entry ReplayFailed (Some msg) :: details)
      (GetConnection node :: evs)
| replayed_rejected s s1 msg s2 entry queue s' queue' details evs :
    is_failed_for node entry = true ->
    getConnection node s = (None, s1) ->
    conn_query node (entry_query entry) s1 = (inr msg, s2) ->
    replayed node t s2 queue s' queue' details evs ->
    replayed node t s (entry :: queue) s' (entry :: queue')
      (detail_of entry ReplayFailed (Some msg) :: details)
      (GetConnection node :: ConnQuery node (entry_query entry) :: evs).

(** ** Status of a replication entry over time *)

(** The moves the status of an entry may make. *)
Inductive status_step : Status -> Status -> Prop :=
| step_pending_replicated : status_step Pending Replicated
| step_pending_failed : status_step Pending Failed
| step_failed_replicated : status_step Failed Replicated.

(** The two operations that write entries. *)
Inductive LedgerOp :=
| OpReplicate (sourceNode query : string)
| OpReplay (recoveredNode : string).

Definition run_op (op : LedgerOp) (w : World) : World :=
  match op with
  | OpReplicate sourceNode query => snd (replicateWrite sourceNode query w)
  | OpReplay recoveredNode => snd (replayFailedReplications recoveredNode w)
  end.

Definition run_ops (ops : list LedgerOp) (w : World) : World :=
  fold_left (fun w' op => run_op op w') ops w.

(** The status of an entry of the queue after some operations: what it
    was, or replicated where it was failed. *)
Definition status_later (s s' : Status) : Prop :=
  s' = s \/ status_step s s' /\ s = Failed.

(** ** Lock manager and read gate *)

(** One turn of a polling loop: the timer wait, during which the rest of
    the system runs. *)
Definition poll_step (w : World) : World :=
  record_io (TimerWait POLL_INTERVAL) (sleep POLL_INTERVAL w).

(** The loop goes on at [w]: the key is marked and the bound is not passed. *)
Definition still_waiting (transId startWait : Z) (w : World) : Prop :=
  is_Some (activeTransactions w !! transId)
  /\ clock w - startWait <= TRANSACTION_TIMEOUT.

(** The world after [startTransaction] has written its marker at [w]. *)
Definition install_marker (transId : Z) (node : string) (w : World) : World :=
  record_io (ConsoleTxnStart transId node)
    (set_activeTransactions
       (<[transId := {| marker_node := node; marker_startTime := clock w |}]>
          (activeTransactions w)) w).

(** The levels other than [READ_UNCOMMITTED]. *)
Definition strict_levels : list string :=
  ["READ_COMMITTED"; "REPEATABLE_READ"; "SERIALIZABLE"].

(** ** Transaction coordinator *)

(** The log entry pushed by the [catch] branch of the handler. *)
Definition failed_log (req : Request) (transactionId : nat)
    (startTime endTime : Z) (error : Error) : LogEntry Rows :=
  {| log_transactionId := transactionId; log_node := req_node req;
     log_query := req_query req;
     log_isolationLevel := effective_isolation (req_isolationLevel req);
     log_startTime := startTime; log_status := LogFailed;
     log_endTime := Some endTime; log_results := None;
     log_replication := None; log_error := Some error |}.

(** The log entry pushed at the end of the [try] branch. *)
Definition committed_log (req : Request) (transactionId : nat)
    (startTime endTime : Z) (results : Rows) (entries : list Entry)
  : LogEntry Rows :=
  {| log_transactionId := transactionId; log_node := req_node req;
     log_query := req_query req;
     log_isolationLevel := effective_isolation (req_isolationLevel req);
     log_startTime := startTime; log_status := LogCommitted;
     log_endTime := Some endTime; log_results := Some results;
     log_replication := Some (replication_summary entries);
     log_error := None |}.

(** The world once the handler has asked the pool of the node of [req]
    for its connection, the first call it makes for a request that is not
    rejected. *)
Definition connected (req : Request) (w : World) : World :=
  snd (pool_getConnection getConnection (req_node req)
         (set_uuid_next (S (uuid_next w)) w)).

(** The world after [commitTransaction(transId)]. *)
Definition released (transId : option Z) (w : World) : World :=
  snd (commitTransaction transId w).

(** The end of the [catch] branch, entered at [w] with [error]. *)
Definition aborted (req : Request) (transactionId : nat) (startTime : Z)
    (error : Error) (w : World) : Outcome (Response Rows) * World :=
  let logEntry := failed_log req transactionId startTime (clock w) error in
  let w' := released (parseTransId (req_query req)) w in
  (Done (ExecutionFailed transactionId error logEntry),
   set_transactionLog (transactionLog w' ++ [logEntry]) w').

(** The end of the [try] branch after the query has returned [results] at
    [w]: replication, release, log. *)
Definition committed (req : Request) (transactionId : nat) (startTime : Z)
    (results : Rows) (w : World) : Outcome (Response Rows) * World :=
  match replicateWrite (req_node req) (req_query req) w with
  | (Done entries, w1) =>
      let logEntry :=
        committed_log req transactionId startTime (clock w) results entries in
      let w2 := released (parseTransId (req_query req)) w1 in
      (Done (Executed transactionId results (replication_summary entries) logEntry),
       set_transactionLog (transactionLog w2 ++ [logEntry]) w2)
  | (Thrown e, w1) => aborted req transactionId startTime e w1
  | (OutOfFuel, w1) => (OutOfFuel, w1)
  end.

(** ** Further vocabulary *)

(** The node on whose pool a call is made. *)
Definition event_node (ev : IOEvent) : option string :=
  match ev with
  | GetConnection node | ConnQuery node _ | ConnSelectNewdate node _ => Some node
  | _ => None
  end.

(** What holds of an entry once its attempt is over: it is not pending, it
    carries an error exactly when it is failed, and it carries a recovery
    time only when it is replicated. *)
Definition entry_settled (entry : Entry) : Prop :=
  entry_status entry <> Pending
  /\ (entry_status entry = Failed <-> is_Some (entry_error entry))
  /\ (is_Some (entry_recoveryTime entry) -> entry_status entry = Replicated).

Definition detail_succeeded (detail : ReplayDetail) : bool :=
  match detail_status detail with
  | ReplaySuccess => true
  | ReplayFailed => false
  end.

(** The counters of a replay agree with its details. *)
Definition counts_agree (results : ReplayResults) : Prop :=
  replay_success results
  = List.length (List.filter detail_succeeded (replay_details results))
  /\ replay_failed results
     = List.length
         (List.filter (fun d => negb (detail_succeeded d)) (replay_details results)).

(** The pool of [node] accepts every connection and every query. *)
Definition node_answers (node : string) : Prop :=
  (forall s, fst (getConnection node s) = None)
  /\ (forall sql s, exists rows, fst (conn_query node sql s) = inl rows).

(** The registry knows exactly the nodes that have a pool. *)
Definition known_nodes (w : World) : Prop :=
  forall node, is_Some (nodeStatus w !! node) <-> node ∈ pools.

(** The status written by [checkNodeHealth] for a killed node at time [t]. *)
Definition killed_status (t : Z) : NodeStatus :=
  {| ns_status := "offline"; ns_lastCheck := Some t;
     ns_error := Some "Simulated failure"; ns_failureTime := None |}.

End Vocabulary.

(** ** A small store to run the server on

    Connections to the nodes listed in [toy_down] are refused; every query
    on a connection succeeds and affects one row; [toy_dates] gives the
    [newdate] of the records that exist. *)

Module Toy.

Record Store := {
  toy_down : list string;
  toy_dates : list (Z * JsDate)
}.

Definition getConnection (node : string) (s : Store) : option string * Store :=
  (if bool_decide (node ∈ toy_down s) then Some "connect ECONNREFUSED" else None, s).

Definition conn_query (node sql : string) (s : Store) : (nat + string) * Store :=
  (inl 1%nat, s).

Definition conn_select_newdate (node : string) (transId : Z) (s : Store)
  : (list JsDate + string) * Store :=
  (inl (map snd (List.filter (fun r => Z.eqb (fst r) transId) (toy_dates s))), s).

(** While the request waits, time passes and nothing else happens. *)
Definition sleep_idle (ms : Z) (w : World nat Store) : World nat Store :=
  set_clock (clock w + ms) w.

(** While the request waits, time passes and the holder of [key] commits. *)
Definition sleep_release (key : Z) (ms : Z) (w : World nat Store) : World nat Store :=
  set_clock (clock w + ms)
    (set_activeTransactions (delete key (activeTransactions w)) w).

Definition execute := execute getConnection conn_query conn_select_newdate.
Definition replicateWrite := replicateWrite getConnection conn_query conn_select_newdate.
Definition replayFailedReplications :=
  replayFailedReplications (Rows := nat) getConnection conn_query.
Definition recover := recover (Rows := nat) getConnection conn_query.

(** Three records, as in the test data of the repository. *)
Definition records : list (Z * JsDate) :=
  [(1001, utc_midnight 1996 5 15); (1002, utc_midnight 1998 8 20);
   (99902, utc_midnight 1997 1 1)].

Definition up : Store := {| toy_down := []; toy_dates := records |}.

Definition node1_down : Store := {| toy_down := ["node1"]; toy_dates := records |}.

Definition update_1001 : string :=
  "UPDATE trans SET amount = 2500.00 WHERE trans_id = 1001".

Definition insert_1001 : string :=
  "INSERT INTO trans (trans_id, account_id, newdate, amount, balance) VALUES (1001, 'ACC1001', '1996-05-15', 1500.00, 6500.00)".

Definition select_1001 : string := "SELECT * FROM trans WHERE trans_id = 1001".

(** The server as it starts, over the store where every node answers. *)
Definition w_start : World nat Store := initial_world up.

(** Key 1001 is marked by a writer on node1. *)
Definition w_marked : World nat Store :=
  set_activeTransactions
    (<[1001 := {| marker_node := "node1"; marker_startTime := 0 |}]> ∅) w_start.

(** Fragment A has been killed. *)
Definition w_node1_killed : World nat Store :=
  set_simulatedFailures (<["node1" := true]> (simulatedFailures w_start)) w_start.

(** Both fragments have been killed. *)
Definition w_fragments_killed : World nat Store :=
  set_simulatedFailures
    (<["node2" := true]> (simulatedFailures w_node1_killed)) w_node1_killed.

(** The entry left by a write on the master while fragment A was killed. *)
Definition missed_entry : Entry :=
  {| entry_id := 1; entry_source := "node0"; entry_target := "node1";
     entry_query := update_1001; entry_status := Failed;
     entry_error := Some (offline_message "node1");
     entry_time := 0; entry_recoveryTime := None |}.

(** Fragment A is recovered in the registry while its store still refuses
    connections; the queue holds the missed entry. *)
Definition w_missed_unreachable : World nat Store :=
  set_replicationQueue [missed_entry] (initial_world node1_down).

(** Fragment A answers again; the queue holds the missed entry. *)
Definition w_missed : World nat Store :=
  set_replicationQueue [missed_entry] w_start.

Definition req_update : Request :=
  {| req_node := "node0"; req_query := update_1001; req_isolationLevel := None |}.

Definition req_insert : Request :=
  {| req_node := "node0"; req_query := insert_1001; req_isolationLevel := None |}.

Definition req_select_node1 : Request :=
  {| req_node := "node1"; req_query := select_1001;
     req_isolationLevel := Some "SERIALIZABLE" |}.

(** The insert on the master with both fragments killed: the world once
    the handler holds its connection, and once the insert has run. *)
Definition w_insert_connected : World nat Store :=
  snd (pool_getConnection getConnection "node0"
         (set_uuid_next 1 w_fragments_killed)).

Definition w_insert_applied : World nat Store :=
  snd (pool_query conn_query "node0" insert_1001 w_insert_connected).

(** The update on the master as the server starts: the world once the
    handler holds its connection, once it holds the lock, and once the
    update has run on the master. *)
Definition w_update_connected : World nat Store :=
  snd (pool_getConnection getConnection "node0" (set_uuid_next 1 w_start)).

Definition w_update_locked : World nat Store :=
  snd (startTransaction sleep_idle 0 (Some 1001) "node0" w_update_connected).

Definition w_update_applied : World nat Store :=
  snd (pool_query conn_query "node0" update_1001 w_update_locked).

(** A pool that accepts every connection, whatever the store. *)
Definition getConnection_up (node : string) (s : Store) : option string * Store :=
  (None, s).

Definition update_zero : string :=
  "UPDATE trans SET amount = 1 WHERE trans_id = 0".

(** A dirty read of record 1001 on the master. *)
Definition req_dirty_read : Request :=
  {| req_node := "node0"; req_query := select_1001;
     req_isolationLevel := Some "READ_UNCOMMITTED" |}.

(** The update on the master while key 1001 is marked and its holder
    never commits: the world once the handler holds its connection, and
    once the lock has timed out. *)
Definition w_marked_connected : World nat Store :=
  snd (pool_getConnection getConnection "node0" (set_uuid_next 1 w_marked)).

Definition w_marked_timed_out : World nat Store :=
  snd (admission sleep_idle 101 true (Some 1001) "node0" "READ_COMMITTED"
         w_marked_connected).

(** The registry holds no flag for fragment A while its store refuses
    connections. *)
Definition w_node1_unreachable : World nat Store := initial_world node1_down.

(** The insert on the master while fragment A is unreachable: the world
    once the handler holds its connection, and once the insert has run. *)
Definition w_unreachable_connected : World nat Store :=
  snd (pool_getConnection getConnection "node0"
         (set_uuid_next 1 w_node1_unreachable)).

Definition w_unreachable_applied : World nat Store :=
  snd (pool_query conn_query "node0" insert_1001 w_unreachable_connected).

(** A record whose [newdate] is the Invalid Date. *)
Definition undated : Store := {| toy_down := []; toy_dates := [(2001, InvalidDate)] |}.

Definition update_2001 : string :=
  "UPDATE trans SET amount = 1 WHERE trans_id = 2001".

Definition w_undated : World nat Store := initial_world undated.

(** The log entry of the writer on node1 that holds key 1001. *)
Definition holder_log : LogEntry nat :=
  {| log_transactionId := 7; log_node := "node1"; log_query := update_1001;
     log_isolationLevel := "READ_COMMITTED"; log_startTime := 0;
     log_status := LogCommitted; log_endTime := Some 50; log_results := Some 1%nat;
     log_replication := Some [("node0", Replicated)]; log_error := None |}.

(** While the request waits, time passes and the holder of [key], if
    there is one, ends as the handler ends a request: it removes its
    marker and pushes its log entry. *)
Definition sleep_commit (key : Z) (log : LogEntry nat) (ms : Z) (w : World nat Store)
  : World nat Store :=
  set_clock (clock w + ms)
    match activeTransactions w !! key with
    | Some _ =>
        set_transactionLog (transactionLog w ++ [log])
          (set_activeTransactions (delete key (activeTransactions w)) w)
    | None => w
    end.

End Toy.

(** * Properties *)

Section Properties.

Context {Rows DB : Type}.
Variable getConnection : string -> DB -> option string * DB.
Variable conn_query : string -> string -> DB -> (Rows + string) * DB.
Variable conn_select_newdate : string -> Z -> DB -> (list JsDate + string) * DB.
Variable sleep : Z -> World Rows DB -> World Rows DB.

Abbreviation World := (World Rows DB).
Abbreviation pool_getConnection := (pool_getConnection getConnection).
Abbreviation pool_query := (pool_query conn_query).
Abbreviation try_apply := (try_apply getConnection conn_query).
Abbreviation fetch_record_date := (fetch_record_date getConnection conn_select_newdate).
Abbreviation replicate_to := (replicate_to getConnection conn_query).
Abbreviation replicateWrite := (replicateWrite getConnection conn_query conn_select_newdate).
Abbreviation replay_entry := (replay_entry getConnection conn_query).
Abbreviation replay_loop := (replay_loop getConnection conn_query).
Abbreviation replayFailedReplications := (replayFailedReplications getConnection conn_query).
Abbreviation checkNodeHealth := (checkNodeHealth getConnection conn_query).
Abbreviation recover := (recover getConnection conn_query).
Abbreviation wait_while_active := (wait_while_active sleep).
Abbreviation poll := (poll sleep).
Abbreviation startTransaction := (startTransaction sleep).
Abbreviation canReadProceed := (canReadProceed sleep).
Abbreviation admission := (admission sleep).
Abbreviation execute := (execute getConnection conn_query conn_select_newdate sleep).
Abbreviation replayed := (replayed getConnection conn_query).
Abbreviation attempted := (attempted getConnection conn_query).
Abbreviation run_op := (run_op getConnection conn_query conn_select_newdate).
Abbreviation run_ops := (run_ops getConnection conn_query conn_select_newdate).
Abbreviation poll_step := (poll_step sleep).
Abbreviation committed := (committed getConnection conn_query conn_select_newdate).
Abbreviation connected := (connected getConnection).
Abbreviation node_answers := (node_answers getConnection conn_query).
Abbreviation kill := (kill (Rows := Rows) (DB := DB)).

Ltac unfold_monad :=
  unfold bind, ret, throw, try_catch, gets, modify, when, now, uuidv4,
    pool_getConnection, pool_query, pool_select_newdate, push_replication,
    push_log, put_nodeStatus in *.

Ltac solve_settled :=
  unfold entry_settled; simpl; repeat split;
  try done; try (by intros [? [=]]); try (by intros [=]); try (by eexists).

(** ** The pools seen from the server *)

Lemma pool_frame_refl (w : World) : pool_frame w w.
Proof.
  split; try reflexivity. exists []. split; [by rewrite app_nil_r | constructor].
Qed.

Lemma pool_frame_trans (w1 w2 w3 : World) :
  pool_frame w1 w2 -> pool_frame w2 w3 -> pool_frame w1 w3.
Proof.
  intros [? ? ? ? ? (evs1 & Hio1 & Hev1)] [? ? ? ? ? (evs2 & Hio2 & Hev2)].
  split; try congruence.
  exists (evs1 ++ evs2). split.
  - by rewrite Hio2, Hio1, app_assoc.
  - by apply Forall_app.
Qed.

(** [try_apply] written out: one connection attempt, then at most one
    query; it never throws. *)
Lemma try_apply_unfold node sql (w : World) :
  try_apply node sql w =
    let w1 := record_io (GetConnection node) w in
    match getConnection node (store w) with
    | (Some msg, s) => (Done (Some msg), set_store s w1)
    | (None, s) =>
        let w2 := record_io (ConnQuery node sql) (set_store s w1) in
        match conn_query node sql s with
        | (inl _, s') => (Done None, set_store s' w2)
        | (inr msg, s') => (Done (Some msg), set_store s' w2)
        end
    end.
Proof.
  unfold try_apply. unfold_monad. simpl.
  destruct (getConnection node (store w)) as [[msg|] s]; simpl; [done|].
  destruct (conn_query node sql s) as [[rows|msg] s']; done.
Qed.

Lemma try_apply_done node sql (w : World) :
  exists caught w',
    try_apply node sql w = (Done caught, w')
    /\ replicationQueue w' = replicationQueue w
    /\ uuid_next w' = uuid_next w
    /\ pool_frame w w'.
Proof.
  rewrite try_apply_unfold. simpl.
  destruct (getConnection node (store w)) as [[msg|] s].
  - eexists _, _. split; [done|]. repeat split; simpl; try done.
    eexists. split; [done|]. by repeat constructor.
  - destruct (conn_query node sql s) as [[rows|msg] s'];
      (eexists _, _; split; [done|]; repeat split; simpl; try done;
       exists [GetConnection node; ConnQuery node sql];
       split; [by rewrite <- app_assoc | by repeat constructor]).
Qed.

(** ** Replication engine *)

(** The body of the loop of [replicateWrite] never throws; it pushes the
    entry it returns and leaves the rest of the server state alone. *)
Lemma replicate_to_done sourceNode query target (w : World) :
  exists entry w',
    replicate_to sourceNode query target w = (Done entry, w')
    /\ replicationQueue w' = replicationQueue w ++ [entry]
    /\ entry_target entry = target
    /\ entry_status entry <> Pending
    /\ pool_frame w w'.
Proof.
  unfold replicate_to. unfold_monad. simpl.
  destruct (is_killed target w); simpl.
  - eexists _, _. split; [done|]. repeat split; simpl; try done.
    exists []. split; [by rewrite app_nil_r | constructor].
  - rewrite try_apply_unfold. simpl.
    destruct (getConnection target (store w)) as [[msg|] s]; simpl.
    + eexists _, _. split; [done|]. repeat split; simpl; try done.
      eexists. split; [done|]. by repeat constructor.
    + destruct (conn_query target query s) as [[rows|msg] s']; simpl;
        (eexists _, _; split; [done|]; repeat split; simpl; try done;
         exists [GetConnection target; ConnQuery target query];
         split; [by rewrite <- app_assoc | by repeat constructor]).
Qed.

Lemma for_each_replicate_to sourceNode query targets (w : World) :
  exists entries w',
    for_each (replicate_to sourceNode query) targets w = (Done entries, w')
    /\ replicationQueue w' = replicationQueue w ++ entries
    /\ map entry_target entries = targets
    /\ Forall (fun e => entry_status e <> Pending) entries
    /\ pool_frame w w'.
Proof.
  revert w. induction targets as [|target targets IH]; intros w; simpl.
  - exists [], w. unfold ret. split_and!; try done.
    + by rewrite app_nil_r.
    + apply pool_frame_refl.
  - destruct (replicate_to_done sourceNode query target w)
      as (entry & w1 & Hrun & Hq1 & Htgt & Hst & Hfr1).
    destruct (IH w1) as (entries & w2 & Hrest & Hq2 & Htgts & Hsts & Hfr2).
    exists (entry :: entries), w2. unfold bind at 1. rewrite Hrun.
    unfold bind at 1. rewrite Hrest. unfold ret. split_and!; [done|..].
    + by rewrite Hq2, Hq1, <- app_assoc.
    + simpl. by rewrite Htgt, Htgts.
    + by constructor.
    + by eapply pool_frame_trans.
Qed.

(** The date lookup never throws and only talks to the pool of the source. *)
Lemma fetch_record_date_done sourceNode transId (w : World) :
  exists recordDate w',
    fetch_record_date sourceNode transId w = (Done recordDate, w')
    /\ replicationQueue w' = replicationQueue w
    /\ pool_frame w w'.
Proof.
  unfold fetch_record_date. destruct (truthy_id transId) as [k|].
  - unfold_monad. simpl.
    destruct (getConnection sourceNode (store w)) as [[msg|] s]; simpl.
    + eexists _, _. split; [done|]. repeat split; simpl; try done.
      eexists. split; [done|]. by repeat constructor.
    + destruct (conn_select_newdate sourceNode k s) as [[rows|msg] s']; simpl;
        (eexists _, _; split; [done|]; repeat split; simpl; try done;
         exists [GetConnection sourceNode; ConnSelectNewdate sourceNode k];
         split; [by rewrite <- app_assoc | by repeat constructor]).
  - exists None, w. unfold ret. split_and!; try done. apply pool_frame_refl.
Qed.

(** What the date lookup returns, by what the pool of the source answers:
    the [newdate] of the first row found, and nothing when the id is falsy,
    when the connection is refused, when the lookup is rejected and when no
    row is found. *)
Lemma fetch_record_date_answer sourceNode transId (w : World) :
  exists w',
    fetch_record_date sourceNode transId w
    = (Done match truthy_id transId with
            | None => None
            | Some k =>
                match getConnection sourceNode (store w) with
                | (Some _, _) => None
                | (None, s) =>
                    match conn_select_newdate sourceNode k s with
                    | (inl rows, _) => head rows
                    | (inr _, _) => None
                    end
                end
            end, w').
Proof.
  unfold fetch_record_date. destruct (truthy_id transId) as [k|]; [|by exists w].
  unfold_monad. simpl.
  destruct (getConnection sourceNode (store w)) as [[msg|] s]; simpl;
    [by eexists|].
  destruct (conn_select_newdate sourceNode k s) as [[rows|msg] s']; simpl;
    by eexists.
Qed.

(** [replicateWrite] never throws: what goes wrong inside is kept in the
    entries. Every entry it returns is pushed on the queue, in order. *)
Lemma replicateWrite_done sourceNode query (w : World) :
  exists entries w',
    replicateWrite sourceNode query w = (Done entries, w')
    /\ replicationQueue w' = replicationQueue w ++ entries
    /\ Forall (fun e => entry_status e <> Pending) entries
    /\ pool_frame w w'.
Proof.
  unfold replicateWrite. destruct (isWriteQuery query); simpl.
  - destruct (fetch_record_date_done sourceNode (parseTransId query) w)
      as (recordDate & w1 & Hdate & Hq1 & Hfr1).
    destruct (for_each_replicate_to sourceNode query
                (replication_targets sourceNode recordDate) w1)
      as (entries & w2 & Hloop & Hq2 & _ & Hsts & Hfr2).
    exists entries, w2. unfold bind. rewrite Hdate, Hloop. split_and!; [done|..].
    + by rewrite Hq2, Hq1.
    + done.
    + by eapply pool_frame_trans.
  - exists [], w. unfold ret. split_and!; try done.
    + by rewrite app_nil_r.
    + apply pool_frame_refl.
Qed.

(** The body of the loop of [replicateWrite] is one step of [attempted]:
    it reads the flag of the target, calls the pool of the target when the
    flag is clear, and pushes the entry it returns. *)
Lemma replicate_to_attempted sourceNode query killed target (w : World) :
  is_killed target w = killed target ->
  exists entry w' evs,
    replicate_to sourceNode query target w = (Done entry, w')
    /\ (forall targets s' entries evs',
          attempted sourceNode query killed (store w') targets s' entries evs' ->
          attempted sourceNode query killed (store w) (target :: targets) s'
            (entry :: entries) (evs ++ evs'))
    /\ io w' = io w ++ evs
    /\ replicationQueue w' = replicationQueue w ++ [entry]
    /\ simulatedFailures w' = simulatedFailures w.
Proof.
  intros Hk. unfold replicate_to. unfold_monad. simpl. rewrite Hk.
  destruct (killed target) eqn:Hflag; simpl.
  - eexists _, _, []. split; [done|]. simpl. rewrite app_nil_r.
    split_and!; try done. intros targets s' entries evs' Hrest.
    by apply attempted_killed.
  - rewrite try_apply_unfold. simpl.
    destruct (getConnection target (store w)) as [[msg|] s] eqn:Hconn; simpl.
    + eexists _, _, [GetConnection target]. split; [done|]. simpl.
      split_and!; try done. intros targets s' entries evs' Hrest.
      by eapply attempted_refused.
    + destruct (conn_query target query s) as [[rows|msg] s2] eqn:Hquery; simpl;
        (eexists _, _, [GetConnection target; ConnQuery target query];
         split; [done|]; simpl; rewrite <- app_assoc;
         split_and!; try done; intros targets s' entries evs' Hrest).
      * by eapply attempted_applied.
      * by eapply attempted_rejected.
Qed.

(** The loop of [replicateWrite], target by target. *)
Lemma for_each_attempted sourceNode query killed targets : forall w : World,
  (forall target, is_killed target w = killed target) ->
  exists entries w' evs,
    for_each (replicate_to sourceNode query) targets w = (Done entries, w')
    /\ attempted sourceNode query killed (store w) targets (store w') entries evs
    /\ io w' = io w ++ evs
    /\ replicationQueue w' = replicationQueue w ++ entries.
Proof.
  induction targets as [|target targets IH]; intros w Hk; simpl.
  - exists [], w, []. unfold ret.
    split_and!; rewrite ?app_nil_r; try done. constructor.
  - destruct (replicate_to_attempted sourceNode query killed target w (Hk target))
      as (entry & w1 & evs1 & Hrun & Hstep & Hio1 & Hq1 & Hf1).
    destruct (IH w1) as (entries & w2 & evs2 & Hrest & Hatt & Hio2 & Hq2).
    { intros t. unfold is_killed. rewrite Hf1. apply Hk. }
    exists (entry :: entries), w2, (evs1 ++ evs2).
    unfold bind at 1. rewrite Hrun. unfold bind at 1. rewrite Hrest. unfold ret.
    split_and!; [done | by apply Hstep | |].
    + by rewrite Hio2, Hio1, <- app_assoc.
    + by rewrite Hq2, Hq1, <- app_assoc.
Qed.

(** C4: the entries of a write, target by target. For a target whose
    fault flag is set [replicateWrite] builds a failed entry with the
    offline message and calls no pool; for a target whose flag is clear it
    asks the pool of the target for a connection and runs the same query on
    it, and the entry is replicated when both succeed and failed with the
    message caught otherwise. There is one entry for each target, in the
    order of the targets; the calls made after the date lookup are those of
    the attempts and no other; the entries returned are those pushed on
    [replicationQueue]. *)
Theorem replicateWrite_entries sourceNode query (w : World) :
  isWriteQuery query = true ->
  exists recordDate w1 entries w' evs,
    fetch_record_date sourceNode (parseTransId query) w = (Done recordDate, w1)
    /\ replicateWrite sourceNode query w = (Done entries, w')
    /\ attempted sourceNode query (fun target => is_killed target w)
         (store w1) (replication_targets sourceNode recordDate)
         (store w') entries evs
    /\ io w' = io w1 ++ evs
    /\ replicationQueue w' = replicationQueue w ++ entries.
Proof.
  intros Hwrite.
  destruct (fetch_record_date_done sourceNode (parseTransId query) w)
    as (recordDate & w1 & Hdate & Hq1 & Hfr1).
  destruct (for_each_attempted sourceNode query (fun target => is_killed target w)
              (replication_targets sourceNode recordDate) w1)
    as (entries & w2 & evs & Hloop & Hatt & Hio & Hq2).
  { intros target. unfold is_killed. by rewrite (frame_failures _ _ Hfr1). }
  exists recordDate, w1, entries, w2, evs. split; [done|]. split.
  { unfold replicateWrite. rewrite Hwrite. simpl. unfold bind.
    by rewrite Hdate, Hloop. }
  split; [done|]. split; [done|]. by rewrite Hq2, Hq1.
Qed.

Lemma replication_targets_before ms :
  ms < FRAG_BOUNDARY ->
  replication_targets "node0" (Some (DateValue ms)) = ["node1"].
Proof.
  intros Hlt. unfold replication_targets. simpl.
  destruct (Z.ltb_spec ms FRAG_BOUNDARY); [done | lia].
Qed.

Lemma replication_targets_from ms :
  FRAG_BOUNDARY <= ms ->
  replication_targets "node0" (Some (DateValue ms)) = ["node2"].
Proof.
  intros Hle. unfold replication_targets. simpl.
  destruct (Z.ltb_spec ms FRAG_BOUNDARY); [lia | done].
Qed.

Lemma replication_targets_fragment sourceNode recordDate :
  sourceNode <> "node0" ->
  replication_targets sourceNode recordDate = ["node0"].
Proof.
  intros Hne. unfold replication_targets.
  destruct (String.eqb_spec sourceNode "node0"); [done | done].
Qed.

(** A row whose [newdate] is the Invalid Date counts as resolved and goes
    to the second fragment: NaN is not below the boundary. *)
Remark replication_targets_invalid_date :
  replication_targets "node0" (Some InvalidDate) = ["node2"].
Proof. reflexivity. Qed.

(** C1, with the row whose date is not a date: the targets of a write
    replicated by [replicateWrite]. From any source other than the master:
    node0 alone. From the master, by what the lookup of the record date
    finds in the store of the master: when the connection and the lookup
    succeed and a row is found, one fragment, decided by the date of the
    first row: node1 when its time value is before 1997-01-01T00:00:00Z,
    node2 when it is at or after it, and node2 as well when it is the
    Invalid Date; node1 and node2 when the query names no id or the id 0,
    when the connection is refused, when the lookup is rejected and when
    no row is found. *)
Theorem replicateWrite_targets sourceNode query (w : World) :
  isWriteQuery query = true ->
  exists entries w',
    replicateWrite sourceNode query w = (Done entries, w')
    /\ (sourceNode <> "node0" -> map entry_target entries = ["node0"])
    /\ (sourceNode = "node0" ->
        match truthy_id (parseTransId query) with
        | None => map entry_target entries = ["node1"; "node2"]
        | Some k =>
            match getConnection sourceNode (store w) with
            | (Some _, _) => map entry_target entries = ["node1"; "node2"]
            | (None, s) =>
                match conn_select_newdate sourceNode k s with
                | (inr _, _) => map entry_target entries = ["node1"; "node2"]
                | (inl [], _) => map entry_target entries = ["node1"; "node2"]
                | (inl (DateValue ms :: _), _) =>
                    (ms < FRAG_BOUNDARY -> map entry_target entries = ["node1"])
                    /\ (FRAG_BOUNDARY <= ms -> map entry_target entries = ["node2"])
                | (inl (InvalidDate :: _), _) => map entry_target entries = ["node2"]
                end
            end
        end).
Proof.
  intros Hwrite.
  destruct (fetch_record_date_answer sourceNode (parseTransId query) w)
    as (w1 & Hdate).
  match type of Hdate with _ = (Done ?d, _) => set (recordDate := d) in * end.
  destruct (for_each_replicate_to sourceNode query
              (replication_targets sourceNode recordDate) w1)
    as (entries & w2 & Hloop & _ & Htargets & _).
  exists entries, w2. split.
  { unfold replicateWrite. rewrite Hwrite. simpl. unfold bind.
    by rewrite Hdate, Hloop. }
  rewrite Htargets. split.
  { intros Hne. by apply replication_targets_fragment. }
  intros ->. subst recordDate.
  destruct (truthy_id (parseTransId query)) as [k|]; [|done].
  destruct (getConnection "node0" (store w)) as [[msg|] s]; [done|].
  destruct (conn_select_newdate "node0" k s) as [[[|[ms|] rows]|msg] s'];
    simpl; try done.
  split; intros Hms.
  - by apply replication_targets_before.
  - by apply replication_targets_from.
Qed.

(** ** Replay *)

Lemma select_failed_length node i queue :
  List.length (select_failed node i queue)
  = List.length (List.filter (is_failed_for node) queue).
Proof.
  revert i. induction queue as [|entry queue IH]; intros i; simpl; [done|].
  destruct (is_failed_for node entry); simpl; by rewrite IH.
Qed.

Lemma alter_middle {A} (f : A -> A) (pre : list A) (x : A) (post : list A) :
  alter f (List.length pre) (pre ++ x :: post) = pre ++ f x :: post.
Proof.
  replace (List.length pre) with (List.length pre + 0)%nat by lia.
  by rewrite alter_app_r.
Qed.

(** The loop over the references taken from the part [queue] of the
    replication queue that follows [pre]. *)
Lemma replay_loop_replayed node queue :
  forall pre results (w : World),
    replicationQueue w = pre ++ queue ->
    exists results' w' queue' details evs,
      replay_loop node (select_failed node (List.length pre) queue) results w
        = (Done results', w')
      /\ replicationQueue w' = pre ++ queue'
      /\ replayed node (clock w) (store w) queue (store w') queue' details evs
      /\ io w' = io w ++ evs
      /\ Forall pool_event evs
      /\ replay_details results' = replay_details results ++ details
      /\ replay_total results' = replay_total results
      /\ (replay_success results' + replay_failed results'
          = replay_success results + replay_failed results
            + List.length (select_failed node (List.length pre) queue))%nat
      /\ simulatedFailures w' = simulatedFailures w
      /\ nodeStatus w' = nodeStatus w
      /\ transactionLog w' = transactionLog w
      /\ activeTransactions w' = activeTransactions w
      /\ clock w' = clock w.
Proof.
  induction queue as [|entry queue IH]; intros pre results w Hq; simpl.
  - rewrite app_nil_r in Hq. exists results, w, [], [], []. unfold ret.
    split_and!; rewrite ?app_nil_r; try done; try constructor; try lia.
  - assert (Hq' : replicationQueue w = (pre ++ [entry]) ++ queue)
      by (by rewrite <- app_assoc).
    assert (Hlen : List.length (pre ++ [entry]) = S (List.length pre))
      by (rewrite length_app; simpl; lia).
    destruct (is_failed_for node entry) eqn:Hsel; simpl.
    + unfold bind at 1. unfold replay_entry at 1. unfold bind at 1. simpl.
      rewrite try_apply_unfold. simpl.
      destruct (getConnection node (store w)) as [[msg|] s1] eqn:Hconn; simpl.
      * match goal with |- context [replay_loop _ _ ?r ?w1] =>
          destruct (IH (pre ++ [entry]) r w1) as
            (results' & w' & queue' & details & evs & Hrun & Hq2 & Hrep & Hio
             & Hevs & Hdet & Htot & Hcnt & Hf & Hn & Hl & Ha & Hc); [done|]
        end.
        rewrite Hlen in Hrun, Hcnt. simpl in *.
        exists results', w', (entry :: queue'),
          (detail_of entry ReplayFailed (Some msg) :: details),
          (GetConnection node :: evs).
        split; [exact Hrun|]. split_and!; try done.
        -- by rewrite Hq2, <- app_assoc.
        -- eapply replayed_refused; eauto.
        -- rewrite Hio. by rewrite <- app_assoc.
        -- by constructor.
        -- rewrite Hdet. by rewrite <- app_assoc.
        -- lia.
      * destruct (conn_query node (entry_query entry) s1) as [[rows|msg] s2] eqn:Hquery;
          simpl.
        -- unfold_monad. simpl. rewrite Hq, alter_middle.
           match goal with |- context [replay_loop _ _ ?r ?w1] =>
             destruct (IH (pre ++ [mark_recovered (clock w) entry]) r w1) as
               (results' & w' & queue' & details & evs & Hrun & Hq2 & Hrep & Hio
                & Hevs & Hdet & Htot & Hcnt & Hf & Hn & Hl & Ha & Hc);
               [by rewrite <- app_assoc|]
           end.
           rewrite length_app in Hrun, Hcnt. simpl in *.
           replace (List.length pre + 1)%nat with (S (List.length pre)) in * by lia.
           exists results', w', (mark_recovered (clock w) entry :: queue'),
             (detail_of entry ReplaySuccess None :: details),
             (GetConnection node :: ConnQuery node (entry_query entry) :: evs).
           split; [exact Hrun|]. split_and!; try done.
           ++ by rewrite Hq2, <- app_assoc.
           ++ eapply replayed_success; eauto.
           ++ rewrite Hio. by rewrite <- !app_assoc.
           ++ by repeat constructor.
           ++ rewrite Hdet. by rewrite <- app_assoc.
           ++ lia.
        -- match goal with |- context [replay_loop _ _ ?r ?w1] =>
             destruct (IH (pre ++ [entry]) r w1) as
               (results' & w' & queue' & details & evs & Hrun & Hq2 & Hrep & Hio
                & Hevs & Hdet & Htot & Hcnt & Hf & Hn & Hl & Ha & Hc); [done|]
           end.
           rewrite Hlen in Hrun, Hcnt. simpl in *.
           exists results', w', (entry :: queue'),
             (detail_of entry ReplayFailed (Some msg) :: details),
             (GetConnection node :: ConnQuery node (entry_query entry) :: evs).
           split; [exact Hrun|]. split_and!; try done.
           ++ by rewrite Hq2, <- app_assoc.
           ++ eapply replayed_rejected; eauto.
           ++ rewrite Hio. by rewrite <- !app_assoc.
           ++ by repeat constructor.
           ++ rewrite Hdet. by rewrite <- app_assoc.
           ++ lia.
    + destruct (IH (pre ++ [entry]) results w Hq') as
        (results' & w' & queue' & details & evs & Hrun & Hq2 & Hrep & Hio
         & Hevs & Hdet & Htot & Hcnt & Hf & Hn & Hl & Ha & Hc).
      rewrite Hlen in Hrun, Hcnt.
      exists results', w', (entry :: queue'), details, evs.
      split; [exact Hrun|]. split_and!; try done.
      * by rewrite Hq2, <- app_assoc.
      * by apply replayed_skip.
Qed.

Lemma replayed_entries node t s queue s' queue' details evs :
  replayed node t s queue s' queue' details evs ->
  Forall2 (fun entry entry' =>
             entry' = entry
             \/ (is_failed_for node entry = true
                 /\ entry' = mark_recovered t entry)) queue queue'.
Proof.
  induction 1; constructor; auto.
Qed.

Lemma replayed_details node t s queue s' queue' details evs :
  replayed node t s queue s' queue' details evs ->
  map detail_id details
  = map entry_id (List.filter (is_failed_for node) queue).
Proof.
  induction 1 as [ | ? ? ? ? ? ? ? Hsel | ? ? ? ? ? ? ? ? ? ? Hsel
                   | ? ? ? ? ? ? ? ? ? Hsel | ? ? ? ? ? ? ? ? ? ? Hsel ];
    simpl; rewrite ?Hsel; simpl; congruence.
Qed.

(** C6, with the failure branch as the code has it: replay for a node takes
    the entries of the queue whose target is the node and whose status is
    failed, in the order of the queue, and runs the query of each on a
    connection to the node; an entry whose query succeeds becomes
    replicated, with no error and the time of the replay as recovery time;
    an entry whose connection or query is rejected stays as it was, the
    message being reported in the details only; the other entries are not
    touched; and [total = success + failed]. *)
Theorem replay_reapplies_failed node (w : World) :
  exists results w' evs,
    replayFailedReplications node w = (Done results, w')
    /\ replayed node (clock w) (store w) (replicationQueue w)
         (store w') (replicationQueue w') (replay_details results) evs
    /\ io w' = io w ++ evs
    /\ replay_total results
       = List.length (List.filter (is_failed_for node) (replicationQueue w))
    /\ replay_total results = (replay_success results + replay_failed results)%nat.
Proof.
  unfold replayFailedReplications. unfold bind, gets.
  match goal with |- context [replay_loop _ _ ?r _] =>
    destruct (replay_loop_replayed node (replicationQueue w) [] r w eq_refl)
      as (results & w' & queue' & details & evs & Hrun & Hq & Hrep & Hio
          & _ & Hdet & Htot & Hcnt & _)
  end.
  simpl in *. exists results, w', evs. rewrite Hrun. split; [done|].
  rewrite Hq, Hdet, Htot. simpl.
  split_and!; [done | done | apply select_failed_length | lia].
Qed.

Lemma replayFailedReplications_done node (w : World) :
  exists results w',
    replayFailedReplications node w = (Done results, w')
    /\ Forall2 (fun entry entry' =>
                  entry' = entry
                  \/ (is_failed_for node entry = true
                      /\ entry' = mark_recovered (clock w) entry))
         (replicationQueue w) (replicationQueue w')
    /\ replay_total results = (replay_success results + replay_failed results)%nat.
Proof.
  unfold replayFailedReplications. unfold bind, gets.
  match goal with |- context [replay_loop _ _ ?r _] =>
    destruct (replay_loop_replayed node (replicationQueue w) [] r w eq_refl)
      as (results & w' & queue' & details & evs & Hrun & Hq & Hrep & _
          & _ & _ & Htot & Hcnt & _)
  end.
  simpl in *. exists results, w'. rewrite Hrun, Hq. split; [done|].
  split; [by eapply replayed_entries | lia].
Qed.

(** ** Status of a replication entry over time *)

Lemma status_later_trans s1 s2 s3 :
  status_later s1 s2 -> status_later s2 s3 -> status_later s1 s3.
Proof.
  intros [-> | [H12 ->]] [-> | [H23 E]]; unfold status_later; auto.
  inversion H12; subst; discriminate.
Qed.

Lemma run_op_entry op (w : World) i entry :
  replicationQueue w !! i = Some entry ->
  exists entry',
    replicationQueue (run_op op w) !! i = Some entry'
    /\ status_later (entry_status entry) (entry_status entry')
    /\ (forall sourceNode query, op = OpReplicate sourceNode query -> entry' = entry).
Proof.
  intros Hi. destruct op as [sourceNode query | node]; simpl.
  - destruct (replicateWrite_done sourceNode query w)
      as (entries & w' & Hrun & Hq & _).
    rewrite Hrun. simpl. exists entry. rewrite Hq. split_and!.
    + by apply lookup_app_l_Some.
    + by left.
    + done.
  - destruct (replayFailedReplications_done node w)
      as (results & w' & Hrun & Hall & _).
    rewrite Hrun. simpl.
    destruct (Forall2_lookup_l _ _ _ _ _ Hall Hi) as (entry' & Hi' & Hrel).
    exists entry'. split_and!; [done | | done].
    destruct Hrel as [-> | [Hsel ->]]; [by left|].
    right. unfold is_failed_for in Hsel.
    apply andb_prop in Hsel as [_ Hfailed].
    apply bool_decide_eq_true in Hfailed. rewrite Hfailed. simpl.
    split; [constructor | done].
Qed.

Lemma run_ops_entry ops : forall (w : World) i entry,
  replicationQueue w !! i = Some entry ->
  exists entry',
    replicationQueue (run_ops ops w) !! i = Some entry'
    /\ status_later (entry_status entry) (entry_status entry').
Proof.
  induction ops as [|op ops IH]; intros w i entry Hi; simpl.
  - exists entry. split; [done | by left].
  - destruct (run_op_entry op w i entry Hi) as (entry1 & Hi1 & Hlater1 & _).
    destruct (IH _ _ _ Hi1) as (entry2 & Hi2 & Hlater2).
    exists entry2. split; [done|]. by eapply status_later_trans.
Qed.

(** C8: the status of a replication entry. Inside [replicateWrite] a
    pending entry becomes replicated or failed before it is pushed. Over
    any sequence of [replicateWrite] and [replayFailedReplications] an
    entry of the queue keeps its place; its status stays what it was or
    goes from failed to replicated, so it never goes from replicated to
    failed and never back to pending; and [replicateWrite] changes no entry
    already in the queue, so that the move from failed to replicated is
    made by replay. *)
Theorem status_monotonic (ops : list LedgerOp) (w : World) (i : nat) (entry : Entry) :
  replicationQueue w !! i = Some entry ->
  (forall caught pending,
     entry_status pending = Pending ->
     status_step (entry_status pending) (entry_status (settle_entry caught pending)))
  /\ (exists entry',
        replicationQueue (run_ops ops w) !! i = Some entry'
        /\ (entry_status entry' = entry_status entry
            \/ status_step (entry_status entry) (entry_status entry')
               /\ entry_status entry = Failed)
        /\ ~ (entry_status entry = Replicated /\ entry_status entry' = Failed)
        /\ (entry_status entry' = Pending -> entry_status entry = Pending))
  /\ (forall sourceNode query,
        replicationQueue (run_op (OpReplicate sourceNode query) w) !! i = Some entry).
Proof.
  intros Hi. split_and!.
  - intros [msg|] pending ->; simpl; constructor.
  - destruct (run_ops_entry ops w i entry Hi) as (entry' & Hi' & Hlater).
    exists entry'. split; [done|]. unfold status_later in Hlater.
    destruct Hlater as [Heq | [Hstep Hfailed]]; split_and!.
    + by left.
    + intros [? ?]. congruence.
    + congruence.
    + right. done.
    + intros [? ?]. congruence.
    + intros Hp. rewrite Hfailed, Hp in Hstep. inversion Hstep.
  - intros sourceNode query.
    destruct (run_op_entry (OpReplicate sourceNode query) w i entry Hi)
      as (entry' & Hi' & _ & Hsame).
    by rewrite (Hsame sourceNode query eq_refl) in Hi'.
Qed.

(** ** Lock manager and read gate *)

Section Timers.

(** A timer does not fire before its delay has passed. *)
Hypothesis sleep_advances :
  forall w : World, clock w + POLL_INTERVAL <= clock (sleep POLL_INTERVAL w).

Lemma poll_step_clock (w : World) : clock w + POLL_INTERVAL <= clock (poll_step w).
Proof. unfold poll_step. simpl. apply sleep_advances. Qed.

Lemma wait_while_active_step (fuel : nat) (transId startWait : Z) (w : World) :
  wait_while_active (S fuel) transId startWait w =
    match activeTransactions w !! transId with
    | None => (Cleared, w)
    | Some _ =>
        if Z.ltb TRANSACTION_TIMEOUT (clock w - startWait) then (TimedOut, w)
        else wait_while_active fuel transId startWait (poll_step w)
    end.
Proof. reflexivity. Qed.

(** With fuel for the waits that fit in the bound, the loop ends at the
    first world, among those seen after each wait, where the key is free
    or the bound is passed. *)
Lemma wait_while_active_ends (fuel : nat) (transId startWait : Z) :
  forall w : World,
    TRANSACTION_TIMEOUT - (clock w - startWait) < POLL_INTERVAL * Z.of_nat fuel
    \/ ~ still_waiting transId startWait w ->
    exists n, (n <= fuel)%nat
      /\ (forall i, (i < n)%nat ->
            still_waiting transId startWait (Nat.iter i poll_step w))
      /\ match activeTransactions (Nat.iter n poll_step w) !! transId with
         | None =>
             wait_while_active fuel transId startWait w
             = (Cleared, Nat.iter n poll_step w)
         | Some _ =>
             TRANSACTION_TIMEOUT < clock (Nat.iter n poll_step w) - startWait
             /\ wait_while_active fuel transId startWait w
                = (TimedOut, Nat.iter n poll_step w)
         end.
Proof.
  induction fuel as [|fuel IH]; intros w Hfuel.
  - exists 0%nat. split; [lia|]. split; [intros i Hi; lia|]. simpl.
    destruct (activeTransactions w !! transId) as [m|] eqn:Hm; [|done].
    destruct (Z.ltb_spec TRANSACTION_TIMEOUT (clock w - startWait)); [done|].
    exfalso. destruct Hfuel as [Hfuel | Hfuel]; [lia|].
    apply Hfuel. split; [by rewrite Hm | done].
  - destruct (activeTransactions w !! transId) as [m|] eqn:Hm.
    + destruct (Z.ltb_spec TRANSACTION_TIMEOUT (clock w - startWait)) as [Hlt|Hge].
      * exists 0%nat. split; [lia|]. split; [intros i Hi; lia|]. simpl.
        rewrite Hm. destruct (Z.ltb_spec TRANSACTION_TIMEOUT (clock w - startWait));
          [done | lia].
      * destruct (IH (poll_step w)) as (n & Hn & Hwait & Hend).
        { destruct Hfuel as [Hfuel | Hfuel].
          - left. pose proof (poll_step_clock w). lia.
          - exfalso. apply Hfuel. split; [by rewrite Hm | done]. }
        exists (S n). split; [lia|]. split.
        -- intros [|i] Hi.
           ++ simpl. split; [by rewrite Hm | done].
           ++ rewrite Nat.iter_succ_r. apply Hwait. lia.
        -- rewrite Nat.iter_succ_r, wait_while_active_step, Hm.
           destruct (Z.ltb_spec TRANSACTION_TIMEOUT (clock w - startWait)); [lia|].
           exact Hend.
    + exists 0%nat. split; [lia|]. split; [intros i Hi; lia|]. simpl.
      by rewrite Hm.
Qed.

(** From the start of the wait, 101 waits of 50 ms pass the bound of 5000 ms. *)
Lemma poll_ends (fuel : nat) (transId : Z) (w : World) :
  (101 <= fuel)%nat ->
  is_Some (activeTransactions w !! transId) ->
  exists n, (1 <= n <= 101)%nat
    /\ (forall i, (i < n)%nat ->
          still_waiting transId (clock w) (Nat.iter i poll_step w))
    /\ match activeTransactions (Nat.iter n poll_step w) !! transId with
       | None =>
           forall timeout,
             poll fuel transId timeout w = (Done tt, Nat.iter n poll_step w)
       | Some _ =>
           TRANSACTION_TIMEOUT < clock (Nat.iter n poll_step w) - clock w
           /\ forall timeout,
                poll fuel transId timeout w
                = (Thrown timeout, Nat.iter n poll_step w)
       end.
Proof.
  intros Hfuel Hmarked.
  destruct (wait_while_active_ends 101 transId (clock w) w) as (n & Hn & Hwait & Hend).
  { left. unfold TRANSACTION_TIMEOUT, POLL_INTERVAL. lia. }
  assert (Hmono : forall f g k s (v : World) r v',
            wait_while_active f k s v = (r, v') -> r <> Exhausted -> (f <= g)%nat ->
            wait_while_active g k s v = (r, v')).
  { induction f as [|f IHf]; intros g k s v r v' Hrun Hr Hle.
    - destruct g as [|g]; [done|]. simpl in *.
      destruct (activeTransactions v !! k); [|done].
      destruct (Z.ltb TRANSACTION_TIMEOUT (clock v - s)); [done|].
      by inversion Hrun; subst.
    - destruct g as [|g]; [lia|]. simpl in *.
      destruct (activeTransactions v !! k); [|done].
      destruct (Z.ltb TRANSACTION_TIMEOUT (clock v - s)); [done|].
      apply IHf; [done | done | lia]. }
  exists n. split.
  { split; [|done]. destruct n as [|n]; [|lia]. exfalso.
    change (Nat.iter 0 poll_step w) with w in Hend.
    destruct Hmarked as [m Hm]. rewrite Hm in Hend. destruct Hend as [Hlt _].
    unfold TRANSACTION_TIMEOUT in Hlt. lia. }
  split; [done|]. unfold poll.
  destruct (activeTransactions (Nat.iter n poll_step w) !! transId) as [m|].
  - destruct Hend as [Hlt Hrun]. split; [done|]. intros timeout.
    by rewrite (Hmono _ fuel _ _ _ _ _ Hrun).
  - intros timeout. by rewrite (Hmono _ fuel _ _ _ _ _ Hend).
Qed.

Lemma truthy_id_nonzero (k : Z) : k <> 0 -> truthy_id (Some k) = Some k.
Proof. intros Hk. simpl. destruct (Z.eqb_spec k 0); [done | done]. Qed.

(** C2: [startTransaction] on a key. With no marker on the key it writes
    its marker at once, without a timer wait. With a marker on the key it
    waits on a timer of 50 ms, at least once and at most 101 times, as long
    as the marker is there and no more than 5000 ms have passed; it stops
    at the first world where the marker is gone, and writes its own marker
    there, or where more than 5000 ms have passed, and throws the lock
    timeout there, leaving the markers as it found them. *)
Theorem startTransaction_waits (fuel : nat) (k : Z) (node : string) (w : World) :
  k <> 0 ->
  (activeTransactions w !! k = None ->
     startTransaction fuel (Some k) node w = (Done tt, install_marker k node w))
  /\ (is_Some (activeTransactions w !! k) -> (101 <= fuel)%nat ->
      exists n, (1 <= n <= 101)%nat
        /\ (forall i, (i < n)%nat ->
              still_waiting k (clock w) (Nat.iter i poll_step w))
        /\ match activeTransactions (Nat.iter n poll_step w) !! k with
           | None =>
               startTransaction fuel (Some k) node w
               = (Done tt, install_marker k node (Nat.iter n poll_step w))
           | Some _ =>
               TRANSACTION_TIMEOUT < clock (Nat.iter n poll_step w) - clock w
               /\ startTransaction fuel (Some k) node w
                  = (Thrown (LockTimeout k), Nat.iter n poll_step w)
           end).
Proof.
  intros Hk. unfold startTransaction. rewrite (truthy_id_nonzero k Hk). split.
  - intros Hfree. rewrite Hfree. unfold_monad. simpl. done.
  - intros Hmarked Hfuel.
    destruct (poll_ends fuel k w Hfuel Hmarked) as (n & Hn & Hwait & Hend).
    exists n. split; [done|]. split; [done|].
    rewrite (bool_decide_eq_true_2 _ Hmarked). unfold when.
    destruct (activeTransactions (Nat.iter n poll_step w) !! k) as [m|].
    + destruct Hend as [Hlt Hrun]. split; [done|].
      unfold bind at 1. by rewrite Hrun.
    + unfold bind at 1. rewrite Hend. unfold_monad. simpl. done.
Qed.

(** C3: [canReadProceed] on a key. With no marker on the key the read
    goes on at once at every level; with a marker it goes on at once at
    [READ_UNCOMMITTED]; at the three other levels it waits as
    [startTransaction] does, with the same interval and the same bound, and
    returns at the first world where the marker is gone or throws the read
    timeout at the first world where the bound is passed. The number of
    waits and the world reached are the same for the three levels. *)
Theorem canReadProceed_policy (fuel : nat) (k : Z) (w : World) :
  k <> 0 ->
  (activeTransactions w !! k = None ->
     forall level, canReadProceed fuel (Some k) level w = (Done true, w))
  /\ (is_Some (activeTransactions w !! k) ->
      canReadProceed fuel (Some k) "READ_UNCOMMITTED" w = (Done true, w))
  /\ (is_Some (activeTransactions w !! k) -> (101 <= fuel)%nat ->
      exists n, (1 <= n <= 101)%nat
        /\ (forall i, (i < n)%nat ->
              still_waiting k (clock w) (Nat.iter i poll_step w))
        /\ match activeTransactions (Nat.iter n poll_step w) !! k with
           | None =>
               forall level, level ∈ strict_levels ->
                 canReadProceed fuel (Some k) level w
                 = (Done true, Nat.iter n poll_step w)
           | Some _ =>
               TRANSACTION_TIMEOUT < clock (Nat.iter n poll_step w) - clock w
               /\ forall level, level ∈ strict_levels ->
                    canReadProceed fuel (Some k) level w
                    = (Thrown (ReadTimeout level), Nat.iter n poll_step w)
           end).
Proof.
  intros Hk. unfold canReadProceed. rewrite (truthy_id_nonzero k Hk). split_and!.
  - intros Hfree level. by rewrite Hfree.
  - intros [m Hm]. by rewrite Hm.
  - intros Hmarked Hfuel.
    destruct (poll_ends fuel k w Hfuel Hmarked) as (n & Hn & Hwait & Hend).
    exists n. split; [done|]. split; [done|].
    destruct Hmarked as [m Hm]. rewrite Hm.
    assert (Hstrict : forall level, level ∈ strict_levels ->
              String.eqb level "READ_UNCOMMITTED" = false).
    { intros level Hin. unfold strict_levels in Hin.
      repeat (apply elem_of_cons in Hin as [-> | Hin]; [done|]).
      by apply elem_of_nil in Hin. }
    destruct (activeTransactions (Nat.iter n poll_step w) !! k) as [m'|].
    + destruct Hend as [Hlt Hrun]. split; [done|]. intros level Hin.
      rewrite (Hstrict level Hin). unfold bind. by rewrite Hrun.
    + intros level Hin. rewrite (Hstrict level Hin).
      unfold bind. by rewrite Hend.
Qed.

End Timers.

(** ** Transaction coordinator *)

Lemma commitTransaction_done transId (w : World) :
  commitTransaction transId w = (Done tt, released transId w).
Proof.
  unfold released, commitTransaction.
  destruct (truthy_id transId) as [k|]; [|done].
  destruct (activeTransactions w !! k); done.
Qed.

Lemma released_falsy transId (w : World) :
  truthy_id transId = None -> released transId w = w.
Proof. intros Hf. unfold released, commitTransaction. by rewrite Hf. Qed.

Lemma released_truthy transId k (w : World) :
  truthy_id transId = Some k ->
  activeTransactions (released transId w) = delete k (activeTransactions w)
  /\ transactionLog (released transId w) = transactionLog w
  /\ replicationQueue (released transId w) = replicationQueue w
  /\ io (released transId w)
     = io w ++ match activeTransactions w !! k with
               | Some _ => [ConsoleTxnCommit k]
               | None => []
               end.
Proof.
  intros Ht. unfold released, commitTransaction. rewrite Ht.
  destruct (activeTransactions w !! k) as [m|] eqn:Hm; simpl.
  - done.
  - split_and!; try done.
    + symmetry. by apply delete_id.
    + by rewrite app_nil_r.
Qed.

Lemma released_log transId (w : World) :
  transactionLog (released transId w) = transactionLog w.
Proof.
  destruct (truthy_id transId) as [k|] eqn:Ht.
  - by destruct (released_truthy transId k w Ht) as (_ & ? & _).
  - by rewrite released_falsy.
Qed.

Lemma released_queue transId (w : World) :
  replicationQueue (released transId w) = replicationQueue w.
Proof.
  destruct (truthy_id transId) as [k|] eqn:Ht.
  - by destruct (released_truthy transId k w Ht) as (_ & _ & ? & _).
  - by rewrite released_falsy.
Qed.

Lemma when_commit transId (w : World) :
  when (is_truthy transId) (commitTransaction transId) w
  = (Done tt, released transId w).
Proof.
  unfold when, is_truthy. destruct (truthy_id transId) as [k|] eqn:Ht.
  - apply commitTransaction_done.
  - by rewrite released_falsy.
Qed.

(** The handler, path by path. *)
Lemma execute_unfold (fuel : nat) (req : Request) (w : World) :
  execute fuel req w =
    let node := req_node req in
    let query := req_query req in
    if negb (has_pool node) then (Done InvalidNode, w)
    else
      let tid := uuid_next w in
      let w0 := set_uuid_next (S (uuid_next w)) w in
      if is_killed node w then (Done (NodeOffline tid node), w0)
      else
        match pool_getConnection node w0 with
        | (Done _, w1) =>
            match admission fuel (isWriteQuery query) (parseTransId query) node
                    (effective_isolation (req_isolationLevel req)) w1 with
            | (Done _, w2) =>
                match pool_query node query w2 with
                | (Done results, w3) => committed req tid (clock w) results w3
                | (Thrown e, w3) => aborted req tid (clock w) e w3
                | (OutOfFuel, w3) => (OutOfFuel, w3)
                end
            | (Thrown e, w2) => aborted req tid (clock w) e w2
            | (OutOfFuel, w2) => (OutOfFuel, w2)
            end
        | (Thrown e, w1) => aborted req tid (clock w) e w1
        | (OutOfFuel, w1) => (OutOfFuel, w1)
        end.
Proof.
  unfold execute. simpl. destruct (has_pool (req_node req)); simpl; [|done].
  unfold bind at 1. unfold uuidv4 at 1. unfold bind at 1. unfold gets at 1.
  change (is_killed (req_node req) (set_uuid_next (S (uuid_next w)) w))
    with (is_killed (req_node req) w).
  destruct (is_killed (req_node req) w); [done|].
  unfold bind at 1. unfold now at 1, gets at 1. unfold try_catch.
  unfold bind at 1.
  destruct (pool_getConnection (req_node req) (set_uuid_next (S (uuid_next w)) w))
    as [[[]|e|] w1] eqn:Hconn; simpl.
  - unfold bind at 1.
    destruct (admission fuel (isWriteQuery (req_query req)) (parseTransId (req_query req))
                (req_node req) (effective_isolation (req_isolationLevel req)) w1)
      as [[[]|e|] w2] eqn:Hadmission; simpl.
    + unfold bind at 1.
      destruct (pool_query (req_node req) (req_query req) w2)
        as [[results|e|] w3] eqn:Hquery; simpl.
      * unfold bind at 1. unfold now at 1, gets at 1. unfold bind at 1.
        unfold committed.
        destruct (replicateWrite (req_node req) (req_query req) w3)
          as [[entries|e|] w4] eqn:Hrep; simpl.
        -- unfold bind at 1. rewrite when_commit. by unfold_monad.
        -- unfold aborted. unfold bind at 1. unfold now at 1, gets at 1.
           unfold bind at 1. rewrite when_commit. by unfold_monad.
        -- done.
      * unfold aborted. unfold bind at 1. unfold now at 1, gets at 1.
        unfold bind at 1. rewrite when_commit. by unfold_monad.
      * done.
    + unfold aborted. unfold bind at 1. unfold now at 1, gets at 1.
      unfold bind at 1. rewrite when_commit. by unfold_monad.
    + done.
  - unfold aborted. unfold bind at 1. unfold now at 1, gets at 1.
    unfold bind at 1. rewrite when_commit. by unfold_monad.
  - done.
Qed.

(** The lock or the gate, by kind of query. *)
Lemma admission_cases (fuel : nat) (isWrite : bool) (transId : option Z)
    (node level : string) (w : World) :
  admission fuel isWrite transId node level w =
    match truthy_id transId with
    | None => (Done tt, w)
    | Some _ =>
        if isWrite then startTransaction fuel transId node w
        else bind (canReadProceed fuel transId level) (fun _ => ret tt) w
    end.
Proof.
  unfold admission, is_truthy. destruct (truthy_id transId) as [k|] eqn:Ht.
  - destruct isWrite; simpl.
    + unfold bind at 1.
      destruct (startTransaction fuel transId node w) as [[[]|e|] w']; done.
    + done.
  - by destruct isWrite.
Qed.

(** A query without a truthy id takes no lock and passes no gate. *)
Lemma admission_no_id (fuel : nat) (isWrite : bool) (transId : option Z)
    (node level : string) (w : World) :
  truthy_id transId = None ->
  admission fuel isWrite transId node level w = (Done tt, w).
Proof. intros Ht. by rewrite admission_cases, Ht. Qed.

(** Timer waits during which no other request logs leave the log as it
    was. *)
Lemma waits_keep_log (n : nat) (w : World) :
  (forall ms (w0 : World), transactionLog (sleep ms w0) = transactionLog w0) ->
  transactionLog (Nat.iter n poll_step w) = transactionLog w.
Proof.
  intros Hkeep. induction n as [|n IH]; [done|].
  simpl. unfold poll_step at 1. simpl. by rewrite Hkeep.
Qed.

(** With fuel for the waits that fit in the bound, the lock or the gate
    returns or throws after at most 101 timer waits, none when the query
    names no key or the key is free. It pushes nothing on the transaction
    log itself: the log it leaves is the log as the other requests left it
    during those waits. *)
Lemma admission_waits (fuel : nat) (isWrite : bool) (transId : option Z)
    (node level : string) (w : World) :
  (forall w0 : World, clock w0 + POLL_INTERVAL <= clock (sleep POLL_INTERVAL w0)) ->
  (101 <= fuel)%nat ->
  exists r w' n,
    admission fuel isWrite transId node level w = (r, w')
    /\ r <> OutOfFuel
    /\ (n <= 101)%nat
    /\ transactionLog w' = transactionLog (Nat.iter n poll_step w)
    /\ match truthy_id transId with
       | None => n = 0%nat
       | Some k => activeTransactions w !! k = None -> n = 0%nat
       end.
Proof.
  intros Hadv Hfuel. rewrite admission_cases.
  destruct (truthy_id transId) as [k|] eqn:Ht;
    [|by exists (Done tt), w, 0%nat; split_and!; try done; lia].
  destruct (activeTransactions w !! k) as [m|] eqn:Hm.
  - destruct (poll_ends Hadv fuel k w Hfuel) as (n & [_ Hn] & _ & Hend);
      [by rewrite Hm|].
    destruct isWrite.
    + unfold startTransaction. rewrite Ht, Hm.
      rewrite bool_decide_eq_true_2 by (by eexists). unfold when.
      unfold bind at 1.
      destruct (activeTransactions (Nat.iter n poll_step w) !! k).
      * destruct Hend as [_ Hrun]. rewrite Hrun.
        eexists _, _, n. split; [done|]. split_and!; done.
      * rewrite Hend. unfold_monad. simpl.
        eexists _, _, n. split; [done|]. split_and!; done.
    + unfold bind at 1. unfold canReadProceed. rewrite Ht, Hm.
      destruct (String.eqb level "READ_UNCOMMITTED").
      * exists (Done tt), w, 0%nat. split_and!; try done; lia.
      * unfold bind.
        destruct (activeTransactions (Nat.iter n poll_step w) !! k).
        -- destruct Hend as [_ Hrun]. rewrite Hrun.
           eexists _, _, n. split; [done|]. split_and!; done.
        -- rewrite Hend. unfold ret.
           eexists _, _, n. split; [done|]. split_and!; done.
  - destruct isWrite.
    + unfold startTransaction. rewrite Ht, Hm.
      rewrite bool_decide_eq_false_2 by (by intros [? [=]]).
      unfold_monad. simpl.
      eexists _, _, 0%nat. split; [done|]. split_and!; try done; lia.
    + unfold bind at 1. unfold canReadProceed. rewrite Ht, Hm. unfold ret.
      eexists _, _, 0%nat. split; [done|]. split_and!; try done; lia.
Qed.

Lemma pool_getConnection_cases node (w : World) :
  exists r w',
    pool_getConnection node w = (r, w')
    /\ (r = Done tt \/ exists msg, r = Thrown (StoreError msg))
    /\ replicationQueue w' = replicationQueue w
    /\ io w' = io w ++ [GetConnection node]
    /\ pool_frame w w'.
Proof.
  unfold pool_getConnection. simpl.
  destruct (getConnection node (store w)) as [[msg|] s];
    (eexists _, _; split; [done|]; split_and!; simpl; eauto;
     split; simpl; try done;
     exists [GetConnection node]; split; [done | by repeat constructor]).
Qed.

Lemma pool_query_cases node sql (w : World) :
  exists r w',
    pool_query node sql w = (r, w')
    /\ ((exists rows, r = Done rows) \/ exists msg, r = Thrown (StoreError msg))
    /\ replicationQueue w' = replicationQueue w
    /\ io w' = io w ++ [ConnQuery node sql]
    /\ pool_frame w w'.
Proof.
  unfold pool_query. simpl.
  destruct (conn_query node sql (store w)) as [[rows|msg] s];
    (eexists _, _; split; [done|]; split_and!; simpl; eauto;
     split; simpl; try done;
     exists [ConnQuery node sql]; split; [done | by repeat constructor]).
Qed.

Lemma startTransaction_installs (fuel : nat) (transId : option Z) (k : Z)
    (node : string) (w w' : World) :
  truthy_id transId = Some k ->
  startTransaction fuel transId node w = (Done tt, w') ->
  exists marker,
    activeTransactions w' !! k = Some marker /\ marker_node marker = node.
Proof.
  intros Ht. unfold startTransaction. rewrite Ht. unfold when.
  destruct (bool_decide (is_Some (activeTransactions w !! k))).
  - unfold bind at 1.
    destruct (poll fuel k (LockTimeout k) w) as [[[]|e|] w1]; try done.
    unfold_monad. simpl. intros [= <-]. simpl.
    eexists. split; [apply lookup_insert_eq | done].
  - unfold_monad. simpl. intros [= <-]. simpl.
    eexists. split; [apply lookup_insert_eq | done].
Qed.

(** C5: once the query of the request has succeeded on the node, the
    handler answers 200 with the rows, the target and status of every
    replication entry, and a committed log entry that carries the same
    list, whatever happened to the targets. For a write the entries are
    those of the attempts told by [attempted]: a target that is killed,
    that refuses the connection or that rejects the query gives a failed
    entry with the message, the others a replicated one; they are in the
    queue when the handler answers, and the answer shows the status of
    each. For a query that is not a write there is none. *)
Theorem execute_commits_despite_replication (fuel : nat) (req : Request)
    (w w1 w2 w3 : World) (results : Rows) :
  has_pool (req_node req) = true ->
  is_killed (req_node req) w = false ->
  pool_getConnection (req_node req) (set_uuid_next (S (uuid_next w)) w)
    = (Done tt, w1) ->
  admission fuel (isWriteQuery (req_query req)) (parseTransId (req_query req))
    (req_node req) (effective_isolation (req_isolationLevel req)) w1
    = (Done tt, w2) ->
  pool_query (req_node req) (req_query req) w2 = (Done results, w3) ->
  exists recordDate wd entries w4 evs w',
    fetch_record_date (req_node req) (parseTransId (req_query req)) w3
    = (Done recordDate, wd)
    /\ replicateWrite (req_node req) (req_query req) w3 = (Done entries, w4)
    /\ (if isWriteQuery (req_query req)
        then attempted (req_node req) (req_query req)
               (fun target => is_killed target w3) (store wd)
               (replication_targets (req_node req) recordDate)
               (store w4) entries evs
             /\ io w4 = io wd ++ evs
        else entries = [] /\ w4 = w3)
    /\ let logEntry :=
         committed_log req (uuid_next w) (clock w) (clock w3) results entries in
       execute fuel req w
       = (Done (Executed (uuid_next w) results
                  (map (fun e => (entry_target e, entry_status e)) entries)
                  logEntry), w')
       /\ log_status logEntry = LogCommitted
       /\ log_replication logEntry
          = Some (map (fun e => (entry_target e, entry_status e)) entries)
       /\ transactionLog w' = transactionLog w3 ++ [logEntry]
       /\ replicationQueue w' = replicationQueue w3 ++ entries.
Proof.
  intros Hpool Hlive Hconn Hadmission Hquery.
  destruct (fetch_record_date_done (req_node req) (parseTransId (req_query req)) w3)
    as (recordDate & wd & Hdate & Hqd & Hfrd).
  assert (Hrun : exists entries w4 evs,
            replicateWrite (req_node req) (req_query req) w3 = (Done entries, w4)
            /\ (if isWriteQuery (req_query req)
                then attempted (req_node req) (req_query req)
                       (fun target => is_killed target w3) (store wd)
                       (replication_targets (req_node req) recordDate)
                       (store w4) entries evs
                     /\ io w4 = io wd ++ evs
                else entries = [] /\ w4 = w3)).
  { unfold replicateWrite. destruct (isWriteQuery (req_query req)); simpl.
    - destruct (for_each_attempted (req_node req) (req_query req)
                  (fun target => is_killed target w3)
                  (replication_targets (req_node req) recordDate) wd)
        as (entries & w4 & evs & Hloop & Hatt & Hio & _).
      { intros target. unfold is_killed. by rewrite (frame_failures _ _ Hfrd). }
      exists entries, w4, evs. unfold bind. by rewrite Hdate, Hloop.
    - by exists [], w3, []. }
  destruct Hrun as (entries & w4 & evs & Hrep & Hentries).
  destruct (replicateWrite_done (req_node req) (req_query req) w3)
    as (entries0 & w40 & Hrep0 & Hq4 & _ & Hfr4).
  rewrite Hrep in Hrep0. injection Hrep0 as <- <-.
  exists recordDate, wd, entries, w4, evs. eexists.
  split; [done|]. split; [done|]. split; [done|]. simpl.
  rewrite execute_unfold. simpl. rewrite Hpool, Hlive, Hconn, Hadmission, Hquery.
  simpl. unfold committed. rewrite Hrep. split; [reflexivity|]. simpl.
  rewrite released_log, released_queue, (frame_log _ _ Hfr4), Hq4.
  split_and!; done.
Qed.

(** C7, with the rejected request as the code has it: with fuel for the
    waits that fit in the bound, the handler answers. A request that is
    answered 200 or 500 has pushed one entry on the transaction log,
    committed or failed, and it is the last one: the log is then the log
    as the other requests left it during the timer waits of this request,
    at most 101 of them, followed by that entry; with no wait, and also
    when the others push nothing meanwhile, it is the log the request
    found followed by that entry. A request that is rejected, because the
    node is unknown (400) or killed (503), has pushed none. *)
Theorem execute_logs_once (fuel : nat) (req : Request) (w : World) :
  (forall w0 : World, clock w0 + POLL_INTERVAL <= clock (sleep POLL_INTERVAL w0)) ->
  (101 <= fuel)%nat ->
  exists resp w' n,
    execute fuel req w = (Done resp, w')
    /\ (n <= 101)%nat
    /\ match truthy_id (parseTransId (req_query req)) with
       | None => n = 0%nat
       | Some k => activeTransactions w !! k = None -> n = 0%nat
       end
    /\ transactionLog (connected req w) = transactionLog w
    /\ ((forall ms (w0 : World), transactionLog (sleep ms w0) = transactionLog w0) ->
        transactionLog (Nat.iter n poll_step (connected req w)) = transactionLog w)
    /\ match resp with
       | InvalidNode => transactionLog w' = transactionLog w
       | NodeOffline _ _ => transactionLog w' = transactionLog w
       | Executed _ _ _ logEntry =>
           transactionLog w'
           = transactionLog (Nat.iter n poll_step (connected req w)) ++ [logEntry]
           /\ log_status logEntry = LogCommitted
       | ExecutionFailed _ _ logEntry =>
           transactionLog w'
           = transactionLog (Nat.iter n poll_step (connected req w)) ++ [logEntry]
           /\ log_status logEntry = LogFailed
       end.
Proof.
  intros Hadv Hfuel. rewrite execute_unfold. unfold connected. simpl.
  destruct (pool_getConnection_cases (req_node req)
              (set_uuid_next (S (uuid_next w)) w))
    as (r1 & w1 & Hconn & Hr1 & _ & _ & Hfr1).
  rewrite Hconn. simpl.
  pose proof (frame_log _ _ Hfr1) as Hl1. simpl in Hl1.
  pose proof (frame_active _ _ Hfr1) as Ha1. simpl in Ha1.
  assert (Hzero : match truthy_id (parseTransId (req_query req)) with
                  | None => 0%nat = 0%nat
                  | Some k => activeTransactions w !! k = None -> 0%nat = 0%nat
                  end) by (by destruct (truthy_id _)).
  destruct (has_pool (req_node req)); simpl;
    [|by exists InvalidNode, w, 0%nat; split_and!; try done; lia].
  destruct (is_killed (req_node req) w);
    [by eexists _, _, 0%nat; split_and!; try done; lia|].
  destruct Hr1 as [-> | [msg ->]].
  2: { eexists _, _, 0%nat. split; [done|]. simpl.
       rewrite released_log. split_and!; try done; lia. }
  destruct (admission_waits fuel (isWriteQuery (req_query req))
              (parseTransId (req_query req)) (req_node req)
              (effective_isolation (req_isolationLevel req)) w1 Hadv Hfuel)
    as (r2 & w2 & n & -> & Hr2 & Hn & Hl2 & Hfree).
  assert (Hquiet : (forall ms (w0 : World),
                      transactionLog (sleep ms w0) = transactionLog w0) ->
                   transactionLog (Nat.iter n poll_step w1) = transactionLog w)
    by (intros Hkeep; by rewrite waits_keep_log).
  assert (Hn0 : match truthy_id (parseTransId (req_query req)) with
                | None => n = 0%nat
                | Some k => activeTransactions w !! k = None -> n = 0%nat
                end).
  { destruct (truthy_id (parseTransId (req_query req))); [|done].
    by rewrite <- Ha1. }
  destruct r2 as [[]|e|]; [| |done].
  2: { eexists _, _, n. split; [done|]. simpl.
       rewrite released_log, Hl2. split_and!; done. }
  destruct (pool_query_cases (req_node req) (req_query req) w2)
    as (r3 & w3 & -> & Hr3 & _ & _ & Hfr3).
  pose proof (frame_log _ _ Hfr3) as Hl3.
  destruct Hr3 as [[rows ->] | [msg ->]].
  2: { eexists _, _, n. split; [done|]. simpl.
       rewrite released_log, Hl3, Hl2. split_and!; done. }
  unfold committed.
  destruct (replicateWrite_done (req_node req) (req_query req) w3)
    as (entries & w4 & -> & _ & _ & Hfr4).
  pose proof (frame_log _ _ Hfr4) as Hl4.
  eexists _, _, n. split; [done|]. simpl.
  rewrite released_log, Hl4, Hl3, Hl2. split_and!; done.
Qed.

(** C9, with the release where the code has it: for a write on a key that
    the handler has reached with the node known and alive, the marker
    written by [startTransaction] is on the key when the lock returns, and
    no marker is on the key when the handler answers, on either path. When
    the query succeeds the handler runs [replicateWrite] first, which makes
    calls on the pools and nothing else, and releases after it has
    returned: the answer is reached from the world [replicateWrite] leaves
    by the removal of the key, with its console line when a marker was
    still there. When the query is rejected the removal follows at once
    and nothing is replicated. *)
Theorem marker_released_after_replication (fuel : nat) (req : Request) (k : Z)
    (w w1 w2 : World) :
  has_pool (req_node req) = true ->
  is_killed (req_node req) w = false ->
  isWriteQuery (req_query req) = true ->
  truthy_id (parseTransId (req_query req)) = Some k ->
  pool_getConnection (req_node req) (set_uuid_next (S (uuid_next w)) w)
    = (Done tt, w1) ->
  admission fuel true (parseTransId (req_query req))
    (req_node req) (effective_isolation (req_isolationLevel req)) w1
    = (Done tt, w2) ->
  exists marker resp w',
    activeTransactions w2 !! k = Some marker
    /\ marker_node marker = req_node req
    /\ execute fuel req w = (Done resp, w')
    /\ activeTransactions w' !! k = None
    /\ match pool_query (req_node req) (req_query req) w2 with
       | (Done results, w3) =>
           exists entries w4 evs,
             replicateWrite (req_node req) (req_query req) w3 = (Done entries, w4)
             /\ io w4 = io w3 ++ evs /\ Forall pool_event evs
             /\ io w' = io w4 ++ match activeTransactions w4 !! k with
                                 | Some _ => [ConsoleTxnCommit k]
                                 | None => []
                                 end
             /\ activeTransactions w' = delete k (activeTransactions w4)
             /\ replicationQueue w' = replicationQueue w4
       | (_, w3) =>
           io w' = io w3 ++ match activeTransactions w3 !! k with
                            | Some _ => [ConsoleTxnCommit k]
                            | None => []
                            end
           /\ activeTransactions w' = delete k (activeTransactions w3)
           /\ replicationQueue w' = replicationQueue w3
       end.
Proof.
  intros Hpool Hlive Hwrite Ht Hconn Hadmission.
  assert (Hstart : startTransaction fuel (parseTransId (req_query req))
                     (req_node req) w1 = (Done tt, w2)).
  { rewrite admission_cases, Ht in Hadmission. exact Hadmission. }
  destruct (startTransaction_installs fuel _ k _ w1 w2 Ht Hstart)
    as (marker & Hmarker & Hnode).
  exists marker. rewrite execute_unfold. simpl.
  rewrite Hpool, Hlive, Hconn, Hwrite, Hadmission. simpl.
  destruct (pool_query_cases (req_node req) (req_query req) w2)
    as (r3 & w3 & Hq3 & Hr3 & _).
  rewrite Hq3.
  destruct Hr3 as [[rows ->] | [msg ->]].
  - unfold committed.
    destruct (replicateWrite_done (req_node req) (req_query req) w3)
      as (entries & w4 & Hrep & _ & _ & Hfr4).
    rewrite Hrep.
    destruct (frame_io _ _ Hfr4) as (evs & Hio4 & Hevs).
    destruct (released_truthy _ k w4 Ht) as (Hdel & _ & Hrq & Hrio).
    eexists _, _. split; [done|]. split; [done|]. split; [done|]. simpl.
    split; [rewrite Hdel; apply lookup_delete_eq|].
    exists entries, w4, evs. split_and!; done.
  - destruct (released_truthy _ k w3 Ht) as (Hdel & _ & Hrq & Hrio).
    eexists _, _. split; [done|]. split; [done|]. split; [done|]. simpl.
    split; [rewrite Hdel; apply lookup_delete_eq|]. done.
Qed.

(** C10: a request whose query holds no [WHERE trans_id = <digits>] takes
    no lock and passes no gate: the handler answers for every fuel, makes
    no timer wait and writes no marker line, leaves [activeTransactions] as
    it was, and when it fails it fails with an error of the store, never
    with a timeout; for such a query the lock or the gate returns at once
    in the world it is called in, whatever the kind of query, the
    isolation level and the markers. *)
Theorem no_trans_id_bypasses (fuel : nat) (req : Request) (w : World) :
  parseTransId (req_query req) = None ->
  (forall isWrite node level (w1 : World),
     admission fuel isWrite (parseTransId (req_query req)) node level w1
     = (Done tt, w1))
  /\ exists resp w' evs,
       execute fuel req w = (Done resp, w')
       /\ activeTransactions w' = activeTransactions w
       /\ io w' = io w ++ evs
       /\ Forall pool_event evs
       /\ (forall transactionId error logEntry,
             resp = ExecutionFailed transactionId error logEntry ->
             exists msg, error = StoreError msg).
Proof.
  intros Hnone. split.
  { intros isWrite node level w1. apply admission_no_id. by rewrite Hnone. }
  assert (Hrel : forall v : World, released (parseTransId (req_query req)) v = v)
    by (intros v; apply released_falsy; by rewrite Hnone).
  rewrite execute_unfold. simpl.
  destruct (has_pool (req_node req)); simpl.
  2: { exists InvalidNode, w, [].
       split_and!; rewrite ?app_nil_r; try done; try constructor. }
  destruct (is_killed (req_node req) w).
  { eexists _, _, []. split; [done|]. simpl.
    split_and!; rewrite ?app_nil_r; try done; try constructor. }
  destruct (pool_getConnection_cases (req_node req)
              (set_uuid_next (S (uuid_next w)) w))
    as (r1 & w1 & -> & Hr1 & _ & _ & Hfr1).
  pose proof (frame_active _ _ Hfr1) as Ha1.
  destruct (frame_io _ _ Hfr1) as (evs1 & Hio1 & Hevs1). simpl in Ha1, Hio1.
  destruct Hr1 as [-> | [msg ->]].
  2: { unfold aborted. rewrite Hrel. eexists _, _, evs1. split; [done|]. simpl.
       split_and!; try done. intros ? ? ? [= _ <- _]. by exists msg. }
  rewrite admission_no_id by (by rewrite Hnone).
  destruct (pool_query_cases (req_node req) (req_query req) w1)
    as (r3 & w3 & -> & Hr3 & _ & _ & Hfr3).
  pose proof (pool_frame_trans _ _ _ Hfr1 Hfr3) as Hfr13.
  destruct Hr3 as [[rows ->] | [msg ->]].
  - unfold committed.
    destruct (replicateWrite_done (req_node req) (req_query req) w3)
      as (entries & w4 & -> & _ & _ & Hfr4).
    pose proof (pool_frame_trans _ _ _ Hfr13 Hfr4) as Hfr.
    pose proof (frame_active _ _ Hfr) as Ha.
    destruct (frame_io _ _ Hfr) as (evs & Hio & Hevs). simpl in Ha, Hio.
    rewrite Hrel. eexists _, _, evs. split; [done|]. simpl.
    split_and!; try done.
  - pose proof (frame_active _ _ Hfr13) as Ha.
    destruct (frame_io _ _ Hfr13) as (evs & Hio & Hevs). simpl in Ha, Hio.
    unfold aborted. rewrite Hrel. eexists _, _, evs. split; [done|]. simpl.
    split_and!; try done. intros ? ? ? [= _ <- _]. by exists msg.
Qed.

(** ** Recovery of a node *)

Lemma replayFailedReplications_frame node (w : World) :
  exists results w',
    replayFailedReplications node w = (Done results, w')
    /\ simulatedFailures w' = simulatedFailures w
    /\ replay_total results = (replay_success results + replay_failed results)%nat.
Proof.
  unfold replayFailedReplications. unfold bind, gets.
  match goal with |- context [replay_loop _ _ ?r _] =>
    destruct (replay_loop_replayed node (replicationQueue w) [] r w eq_refl)
      as (results & w' & _ & _ & _ & Hrun & _ & _ & _ & _ & _ & Htot & Hcnt
          & Hf & _)
  end.
  simpl in *. exists results, w'. rewrite Hrun. split; [done|].
  split; [done | lia].
Qed.

Lemma check_node_done node (w : World) :
  exists w',
    check_node getConnection conn_query node w = (Done tt, w')
    /\ replicationQueue w' = replicationQueue w
    /\ simulatedFailures w' = simulatedFailures w.
Proof.
  unfold check_node. unfold bind at 1. unfold gets at 1.
  destruct (is_killed node w).
  - unfold_monad. simpl. by eexists.
  - unfold bind at 1.
    destruct (try_apply_done node "SELECT 1" w)
      as (caught & w1 & -> & Hq & _ & Hfr).
    pose proof (frame_failures _ _ Hfr) as Hf.
    unfold_monad. simpl. destruct caught; simpl; by eexists.
Qed.

Lemma checkNodeHealth_done (w : World) :
  exists w',
    checkNodeHealth w = (Done tt, w')
    /\ replicationQueue w' = replicationQueue w
    /\ simulatedFailures w' = simulatedFailures w.
Proof.
  unfold checkNodeHealth.
  destruct (check_node_done "node0" w) as (w1 & H1 & Hq1 & Hf1).
  destruct (check_node_done "node1" w1) as (w2 & H2 & Hq2 & Hf2).
  destruct (check_node_done "node2" w2) as (w3 & H3 & Hq3 & Hf3).
  exists w3. unfold bind. rewrite H1, H2, H3. split; [done|].
  split; congruence.
Qed.

(** [POST /api/nodes/recover] on a known node clears the flag of the
    node, replays, and answers with the counts of the replay. *)
Lemma recover_replays node status (w : World) :
  nodeStatus w !! node = Some status ->
  exists results w1 status' w',
    replayFailedReplications node
      (set_nodeStatus
         (<[node := {| ns_status := ns_status status;
                       ns_lastCheck := ns_lastCheck status;
                       ns_error := ns_error status; ns_failureTime := None |}]>
            (nodeStatus w))
         (set_simulatedFailures (<[node := false]> (simulatedFailures w)) w))
    = (Done results, w1)
    /\ recover node w
       = (Done (Recovered status' (replay_success results)
                  (replay_failed results) (replay_total results)), w')
    /\ replay_total results = (replay_success results + replay_failed results)%nat
    /\ replicationQueue w' = replicationQueue w1
    /\ is_killed node w' = false.
Proof.
  intros Hknown. unfold recover, try_catch. unfold bind at 1. unfold gets at 1.
  rewrite Hknown. unfold bind at 1. unfold modify at 1.
  unfold bind at 1. unfold put_nodeStatus at 1. unfold modify at 1. simpl.
  match goal with |- context [replayFailedReplications node ?v] =>
    destruct (replayFailedReplications_frame node v)
      as (results & w1 & Hrun & Hf & Hsum)
  end.
  simpl in Hf.
  destruct (checkNodeHealth_done w1) as (w2 & Hhealth & Hq2 & Hf2).
  exists results, w1. unfold bind at 1. rewrite Hrun.
  unfold bind at 1. rewrite Hhealth. unfold_monad. simpl.
  eexists _, _. split; [done|]. split; [done|]. split; [done|].
  split; [done|]. unfold is_killed. rewrite Hf2, Hf.
  by rewrite lookup_insert_eq.
Qed.

(** ** Queries of the dashboard, parsed by the server *)

Lemma pretty_N_char_digit (x : N) :
  (x < 10)%N ->
  is_digit (pretty_N_char x) = true
  /\ Z.of_nat (nat_of_ascii (pretty_N_char x)) - 48 = Z.of_N x.
Proof.
  intros Hx.
  assert (x = 0 \/ x = 1 \/ x = 2 \/ x = 3 \/ x = 4 \/ x = 5 \/ x = 6
          \/ x = 7 \/ x = 8 \/ x = 9)%N as Hcases by lia.
  repeat (destruct Hcases as [-> | Hcases]; [by vm_compute|]).
  subst. by vm_compute.
Qed.

Lemma is_digit_not_space (c : ascii) : is_digit c = true -> is_space c = false.
Proof.
  unfold is_digit, is_space. intros Hd.
  apply andb_prop in Hd as [Hlo Hhi].
  apply Nat.leb_le in Hlo. apply Nat.leb_le in Hhi.
  repeat (apply orb_false_intro); apply Nat.eqb_neq; lia.
Qed.

Lemma take_digits_cons (c : ascii) (s : string) :
  take_digits (String c s)
  = if is_digit c then (Z.of_nat (nat_of_ascii c) - 48) :: take_digits s else [].
Proof. reflexivity. Qed.

Lemma skip_spaces_cons (c : ascii) (s : string) :
  skip_spaces (String c s) = if is_space c then skip_spaces s else String c s.
Proof. reflexivity. Qed.

(** The digits printed for [x] in front of [s] read back as [x], carried
    into the digits of [s]. *)
Lemma take_digits_pretty_go (x : N) : forall s,
  fold_left (fun acc d => 10 * acc + d) (take_digits (pretty_N_go x s)) 0
  = fold_left (fun acc d => 10 * acc + d) (take_digits s) (Z.of_N x).
Proof.
  induction (N.lt_wf_0 x) as [x _ IH]; intros s.
  destruct (decide (x = 0)%N) as [-> | Hx]; [by rewrite pretty_N_go_0|].
  rewrite pretty_N_go_step by lia.
  rewrite IH by (apply N.div_lt; lia).
  destruct (pretty_N_char_digit (x `mod` 10)%N) as [Hd Hv];
    [apply N.mod_lt; lia|].
  rewrite take_digits_cons, Hd. simpl. rewrite Hv. f_equal.
  pose proof (N.div_mod x 10). lia.
Qed.

Lemma pretty_go_head (x : N) : forall s,
  (0 < x)%N ->
  exists c s', pretty_N_go x s = String c s' /\ is_digit c = true.
Proof.
  induction (N.lt_wf_0 x) as [x _ IH]; intros s Hx.
  rewrite pretty_N_go_step by done.
  destruct (decide (x `div` 10 = 0)%N) as [Hz | Hnz].
  - rewrite Hz, pretty_N_go_0. eexists _, _. split; [done|].
    apply pretty_N_char_digit, N.mod_lt. lia.
  - apply IH; [apply N.div_lt; lia | by apply N.neq_0_lt_0].
Qed.

Lemma pretty_go_append (x : N) : forall s rest,
  pretty_N_go x s +:+ rest = pretty_N_go x (s +:+ rest).
Proof.
  induction (N.lt_wf_0 x) as [x _ IH]; intros s rest.
  destruct (decide (x = 0)%N) as [-> | Hx]; [by rewrite !pretty_N_go_0|].
  rewrite (pretty_N_go_step x s), (pretty_N_go_step x (s +:+ rest)) by lia.
  rewrite IH by (apply N.div_lt; lia). done.
Qed.

(** A natural number printed in decimal, followed by text that does not
    start with a digit, is not blank, has digits, and reads back. *)
Lemma read_back_pretty (id : N) (rest : string) :
  take_digits rest = [] ->
  skip_spaces (pretty id +:+ rest) = pretty id +:+ rest
  /\ take_digits (pretty id +:+ rest) <> []
  /\ parseInt (take_digits (pretty id +:+ rest)) = Z.of_N id.
Proof.
  intros Hrest. unfold pretty, pretty_N.
  destruct (decide (id = 0)%N) as [-> | Hid].
  - change ("0" +:+ rest) with (String "0" rest).
    rewrite take_digits_cons. change (is_digit "0") with true. cbv iota.
    rewrite Hrest. split_and!; [reflexivity | done | reflexivity].
  - rewrite pretty_go_append. change ("" +:+ rest) with rest.
    destruct (pretty_go_head id rest) as (c & s' & Hhead & Hd); [lia|].
    split_and!.
    + rewrite Hhead, skip_spaces_cons. by rewrite (is_digit_not_space c Hd).
    + rewrite Hhead, take_digits_cons, Hd. done.
    + unfold parseInt. rewrite take_digits_pretty_go, Hrest. done.
Qed.

Lemma regex_exec_cons (c : ascii) (s : string) :
  regex_exec (String c s)
  = match match_here (String c s) with
    | Some n => Some n
    | None => regex_exec s
    end.
Proof. reflexivity. Qed.

Lemma regex_exec_skip (c : ascii) (s : string) :
  ascii_eqb_ci "W" c = false -> regex_exec (String c s) = regex_exec s.
Proof.
  intros Hc. rewrite regex_exec_cons. unfold match_here.
  cbn [strip_prefix_ci]. by rewrite Hc.
Qed.

Lemma match_here_where (text : string) :
  match_here ("WHERE trans_id = " +:+ text)
  = match take_digits (skip_spaces text) with
    | [] => None
    | ds => Some (parseInt ds)
    end.
Proof. reflexivity. Qed.

Lemma append_empty_r (s : string) : s +:+ "" = s.
Proof.
  induction s as [|c s IH]; [done|].
  change (String c s +:+ "") with (String c (s +:+ "")). by f_equal.
Qed.

Lemma regex_exec_where (id : N) (rest : string) :
  take_digits rest = [] ->
  regex_exec ("WHERE trans_id = " +:+ pretty id +:+ rest) = Some (Z.of_N id).
Proof.
  intros Hrest.
  destruct (read_back_pretty id rest Hrest) as (Hskip & Hne & Hval).
  change ("WHERE trans_id = " +:+ pretty id +:+ rest)
    with (String "W" ("HERE trans_id = " +:+ pretty id +:+ rest)).
  rewrite regex_exec_cons.
  change (String "W" ("HERE trans_id = " +:+ pretty id +:+ rest))
    with ("WHERE trans_id = " +:+ (pretty id +:+ rest)).
  rewrite match_here_where, Hskip.
  destruct (take_digits (pretty id +:+ rest)) as [|d ds] eqn:Hds; [done|].
  by rewrite <- Hval.
Qed.

(** X1: the query [runConcurrentReads] builds for a record [id] up to
    [MAX_SAFE_INTEGER] is a read, and [parseTransId] gives back [id] from
    it. *)
Theorem read_query_parsed (id : N) :
  Z.of_N id <= MAX_SAFE_INTEGER ->
  parseTransId (Dashboard.read_query id) = Some (Z.of_N id)
  /\ isWriteQuery (Dashboard.read_query id) = false.
Proof.
  intros _. split; [|reflexivity].
  unfold parseTransId, Dashboard.read_query.
  change ("SELECT * FROM trans WHERE trans_id = " +:+ pretty id)
    with ("SELECT * FROM trans " +:+ ("WHERE trans_id = " +:+ pretty id)).
  cbn [String.append].
  repeat (rewrite regex_exec_skip by reflexivity).
  replace (pretty id) with (pretty id +:+ "") by apply append_empty_r.
  by apply regex_exec_where.
Qed.

(** X2: the query [executeDeleteOperation] builds from a text that starts
    with the decimal digits of an [id] up to [MAX_SAFE_INTEGER] is a write,
    and [parseTransId] gives back [id] from it, whatever follows the
    digits. *)
Theorem delete_query_parsed (id : N) (rest : string) :
  Z.of_N id <= MAX_SAFE_INTEGER ->
  take_digits rest = [] ->
  parseTransId (Dashboard.delete_query (pretty id +:+ rest)) = Some (Z.of_N id)
  /\ isWriteQuery (Dashboard.delete_query (pretty id +:+ rest)) = true.
Proof.
  intros _ Hrest. split; [|reflexivity].
  unfold parseTransId, Dashboard.delete_query.
  change ("DELETE FROM trans WHERE trans_id = " +:+ (pretty id +:+ rest))
    with ("DELETE FROM trans " +:+ ("WHERE trans_id = " +:+ pretty id +:+ rest)).
  cbn [String.append].
  repeat (rewrite regex_exec_skip by reflexivity).
  by apply regex_exec_where.
Qed.

Lemma parseInt_nonneg_from (ds : list Z) : forall acc,
  0 <= acc -> Forall (fun d => 0 <= d) ds ->
  0 <= fold_left (fun a d => 10 * a + d) ds acc.
Proof.
  induction ds as [|d ds IH]; intros acc Hacc Hds; simpl; [done|].
  inversion Hds; subst. apply IH; [lia | done].
Qed.

Lemma take_digits_nonneg (s : string) : Forall (fun d => 0 <= d) (take_digits s).
Proof.
  induction s as [|c s IH]; [constructor|].
  rewrite take_digits_cons. destruct (is_digit c) eqn:Hd; [|constructor].
  constructor; [|done]. unfold is_digit in Hd.
  apply andb_prop in Hd as [Hlo _]. apply Nat.leb_le in Hlo. lia.
Qed.

Lemma match_here_nonneg (s : string) (n : Z) : match_here s = Some n -> 0 <= n.
Proof.
  unfold match_here. intros Hm.
  repeat (case_match; try discriminate). injection Hm as <-.
  match goal with H : take_digits ?t = _ |- _ =>
    rewrite <- H; apply parseInt_nonneg_from; [lia | apply take_digits_nonneg]
  end.
Qed.

(** X3: [parseTransId] never returns a negative id. *)
Theorem parseTransId_nonneg (query : string) (n : Z) :
  parseTransId query = Some n -> 0 <= n.
Proof.
  unfold parseTransId. induction query as [|c query IH].
  - vm_compute. discriminate.
  - rewrite regex_exec_cons.
    destruct (match_here (String c query)) eqn:Hm.
    + intros [= <-]. by eapply match_here_nonneg.
    + exact IH.
Qed.


(** ** Entries of the replication queue *)

Lemma replication_targets_shape sourceNode recordDate :
  (1 <= List.length (replication_targets sourceNode recordDate) <= 2)%nat
  /\ Forall (fun target => target <> sourceNode)
       (replication_targets sourceNode recordDate).
Proof.
  unfold replication_targets.
  destruct (String.eqb_spec sourceNode "node0") as [-> | Hne].
  - destruct recordDate as [d|]; [destruct (date_lt d FRAG_BOUNDARY)|];
      simpl; (split; [lia | by repeat constructor]).
  - simpl. split; [lia|]. constructor; [congruence | constructor].
Qed.

Lemma replicate_to_settled sourceNode query target (w : World) :
  exists entry w',
    replicate_to sourceNode query target w = (Done entry, w')
    /\ entry_source entry = sourceNode /\ entry_query entry = query
    /\ entry_target entry = target /\ entry_time entry = clock w
    /\ entry_settled entry /\ clock w' = clock w.
Proof.
  unfold replicate_to. unfold_monad. simpl.
  destruct (is_killed target w); simpl.
  - eexists _, _. split; [done|]. solve_settled.
  - rewrite try_apply_unfold. simpl.
    destruct (getConnection target (store w)) as [[msg|] s]; simpl.
    + eexists _, _. split; [done|]. solve_settled.
    + destruct (conn_query target query s) as [[rows|msg] s']; simpl;
        (eexists _, _; split; [done|]; solve_settled).
Qed.

Lemma for_each_replicate_to_settled sourceNode query targets : forall w : World,
  exists entries w',
    for_each (replicate_to sourceNode query) targets w = (Done entries, w')
    /\ map entry_target entries = targets
    /\ Forall (fun e => entry_source e = sourceNode /\ entry_query e = query
                        /\ entry_time e = clock w /\ entry_settled e) entries.
Proof.
  induction targets as [|target targets IH]; intros w; simpl.
  - exists [], w. unfold ret. split_and!; try done.
  - destruct (replicate_to_settled sourceNode query target w)
      as (entry & w1 & Hrun & Hsrc & Hq & Htgt & Htime & Hset & Hclock).
    destruct (IH w1) as (entries & w2 & Hrest & Htgts & Hall).
    exists (entry :: entries), w2. unfold bind at 1. rewrite Hrun.
    unfold bind at 1. rewrite Hrest. unfold ret. split_and!; [done | |].
    + simpl. by rewrite Htgt, Htgts.
    + constructor; [done|]. rewrite Hclock in Hall. exact Hall.
Qed.

(** The entries of a pass of the loop of [replicateWrite], one for each
    target. *)
Lemma attempted_entries sourceNode query killed s targets s' entries evs :
  attempted sourceNode query killed s targets s' entries evs ->
  Forall2 (fun target e =>
             entry_target e = target /\ entry_source e = sourceNode
             /\ entry_query e = query /\ entry_settled e) targets entries.
Proof.
  induction 1; constructor; try done; split_and!; try done; solve_settled.
Qed.

(** X4: [replicateWrite] returns no entry and changes nothing for a query
    that is not a write, and one or two entries for a write; every entry
    carries the source and the query, is replicated or failed, carries an
    error exactly when it is failed, and is never addressed to the source
    itself. *)
Theorem replicateWrite_entries_settled sourceNode query (w : World) :
  exists entries w',
    replicateWrite sourceNode query w = (Done entries, w')
    /\ (isWriteQuery query = false -> entries = [] /\ w' = w)
    /\ (isWriteQuery query = true -> (1 <= List.length entries <= 2)%nat)
    /\ Forall (fun e => entry_source e = sourceNode /\ entry_query e = query
                        /\ entry_target e <> sourceNode
                        /\ entry_settled e) entries.
Proof.
  unfold replicateWrite. destruct (isWriteQuery query); simpl.
  - destruct (fetch_record_date_done sourceNode (parseTransId query) w)
      as (recordDate & w1 & Hdate & _).
    destruct (for_each_attempted sourceNode query (fun target => is_killed target w1)
                (replication_targets sourceNode recordDate) w1)
      as (entries & w2 & evs & Hloop & Hatt & _); [done|].
    apply attempted_entries in Hatt.
    destruct (replication_targets_shape sourceNode recordDate) as [Hlen Hne].
    exists entries, w2. unfold bind. rewrite Hdate, Hloop.
    split_and!; [done | done | |].
    + intros _. by rewrite (Forall2_length _ _ _ Hatt) in Hlen.
    + clear Hloop Hlen. revert Hne.
      induction Hatt as [|target e targets entries He _ IH];
        intros Hne; [constructor|].
      inversion Hne; subst. destruct He as (<- & ? & ? & ?).
      constructor; [done | by apply IH].
  - exists [], w. unfold ret. split_and!; try done.
Qed.

Lemma replicateWrite_entries_settled_aux sourceNode query (w : World) :
  exists entries w',
    replicateWrite sourceNode query w = (Done entries, w')
    /\ replicationQueue w' = replicationQueue w ++ entries
    /\ Forall (fun e => entry_source e = sourceNode /\ entry_query e = query
                        /\ entry_time e = clock w /\ entry_settled e) entries.
Proof.
  destruct (replicateWrite_done sourceNode query w)
    as (entries & w' & Hrun & Hq & _).
  exists entries, w'. split; [done|]. split; [done|].
  unfold replicateWrite in Hrun. destruct (isWriteQuery query); simpl in Hrun.
  - destruct (fetch_record_date_done sourceNode (parseTransId query) w)
      as (recordDate & w1 & Hdate & _ & Hfr).
    pose proof (frame_clock _ _ Hfr) as Hclock.
    destruct (for_each_replicate_to_settled sourceNode query
                (replication_targets sourceNode recordDate) w1)
      as (entries0 & w2 & Hloop & _ & Hall).
    unfold bind in Hrun. rewrite Hdate, Hloop in Hrun.
    injection Hrun as <- <-. by rewrite Hclock in Hall.
  - unfold ret in Hrun. injection Hrun as <- <-. constructor.
Qed.

Lemma mark_recovered_settled t entry : entry_settled (mark_recovered t entry).
Proof. solve_settled. Qed.

Lemma run_op_settled op (w : World) :
  Forall entry_settled (replicationQueue w) ->
  Forall entry_settled (replicationQueue (run_op op w)).
Proof.
  intros Hall. destruct op as [sourceNode query | node]; simpl.
  - destruct (replicateWrite_entries_settled_aux sourceNode query w)
      as (entries & w' & Hrun & Hq & Hnew).
    rewrite Hrun. simpl. rewrite Hq. apply Forall_app. split; [done|].
    eapply Forall_impl; [exact Hnew|]. simpl. tauto.
  - destruct (replayFailedReplications_done node w)
      as (results & w' & Hrun & Hrel & _).
    rewrite Hrun. simpl.
    revert Hall. induction Hrel as [|e e' q q' Hee' Hrel IH]; [done|].
    intros Hall. inversion Hall; subst. constructor; [|by apply IH].
    destruct Hee' as [-> | [_ ->]]; [done | apply mark_recovered_settled].
Qed.

(** X5: over any sequence of [replicateWrite] and
    [replayFailedReplications], if every entry of the queue is settled
    (not pending, an error exactly when failed, a recovery time only when
    replicated), then so is every entry of the queue afterwards. *)
Theorem queue_stays_settled (ops : list LedgerOp) (w : World) :
  Forall entry_settled (replicationQueue w) ->
  Forall entry_settled (replicationQueue (run_ops ops w)).
Proof.
  revert w. induction ops as [|op ops IH]; intros w Hall; simpl; [done|].
  apply IH. by apply run_op_settled.
Qed.


(** ** Replay, counted *)

Lemma replay_entry_counts node ref results (w : World) :
  counts_agree results ->
  exists results' w',
    replay_entry node ref results w = (Done results', w')
    /\ counts_agree results'.
Proof.
  intros [Hs Hf]. unfold replay_entry. unfold bind at 1.
  rewrite try_apply_unfold. simpl.
  destruct (getConnection node (store w)) as [[msg|] s1]; simpl.
  - eexists _, _. split; [done|]. unfold counts_agree. simpl.
    rewrite !List.filter_app, !length_app. simpl. lia.
  - destruct (conn_query node (entry_query ref.2) s1) as [[rows|msg] s2]; simpl.
    + unfold_monad. simpl. eexists _, _. split; [done|].
      unfold counts_agree. simpl.
      rewrite !List.filter_app, !length_app. simpl. lia.
    + eexists _, _. split; [done|]. unfold counts_agree. simpl.
      rewrite !List.filter_app, !length_app. simpl. lia.
Qed.

Lemma replay_loop_counts node refs : forall results (w : World),
  counts_agree results ->
  exists results' w',
    replay_loop node refs results w = (Done results', w')
    /\ counts_agree results'.
Proof.
  induction refs as [|ref refs IH]; intros results w Hc; simpl.
  - by exists results, w.
  - destruct (replay_entry_counts node ref results w Hc)
      as (results1 & w1 & Hrun & Hc1).
    unfold bind. rewrite Hrun. by apply IH.
Qed.

(** The replay with its counters, details and queue together. *)
Lemma replay_counted node (w : World) :
  exists results w' evs,
    replayFailedReplications node w = (Done results, w')
    /\ replayed node (clock w) (store w) (replicationQueue w)
         (store w') (replicationQueue w') (replay_details results) evs
    /\ io w' = io w ++ evs
    /\ counts_agree results
    /\ replay_total results = (replay_success results + replay_failed results)%nat
    /\ simulatedFailures w' = simulatedFailures w
    /\ transactionLog w' = transactionLog w
    /\ activeTransactions w' = activeTransactions w
    /\ nodeStatus w' = nodeStatus w
    /\ clock w' = clock w
    /\ replay_total results
       = List.length (List.filter (is_failed_for node) (replicationQueue w)).
Proof.
  unfold replayFailedReplications. unfold bind, gets.
  match goal with |- context [replay_loop _ _ ?r _] =>
    destruct (replay_loop_replayed node (replicationQueue w) [] r w eq_refl)
      as (results & w' & queue' & details & evs & Hrun & Hq & Hrep & Hio
          & _ & Hdet & Htot & Hcnt & Hf & Hn & Hl & Ha & Hck);
    destruct (replay_loop_counts node
                (select_failed node 0 (replicationQueue w)) r w)
      as (results0 & w0 & Hrun0 & Hc); [split; reflexivity|]
  end.
  simpl in *. rewrite Hrun in Hrun0. injection Hrun0 as <- <-.
  exists results, w', evs. rewrite Hrun, Hq, Hdet.
  split_and!; try done; [lia|]. rewrite Htot. apply select_failed_length.
Qed.

(** With a pool that accepts every call, a pass of replay goes through
    its success branch only. *)
Lemma replayed_answers node t s queue s' queue' details evs :
  node_answers node ->
  replayed node t s queue s' queue' details evs ->
  Forall (fun d => detail_succeeded d = true) details
  /\ queue' = map (fun e => if is_failed_for node e then mark_recovered t e else e) queue.
Proof.
  intros [Hconn Hquery].
  induction 1 as [ | ? ? ? ? ? ? ? Hsel ? IH | ? ? ? ? ? ? ? ? ? ? Hsel ? ? ? IH
                   | s0 msg ? ? ? ? ? ? ? Hsel Hc
                   | ? s1 msg ? entry ? ? ? ? ? Hsel ? Hq ];
    simpl; rewrite ?Hsel.
  - done.
  - destruct IH as [? ->]. done.
  - destruct IH as [? ->]. split; [by constructor | done].
  - specialize (Hconn s0). rewrite Hc in Hconn. discriminate.
  - destruct (Hquery (entry_query entry) s1) as [rows Hrows].
    rewrite Hq in Hrows. discriminate.
Qed.

(** X6: when the pool of the node accepts every connection and every
    query, a replay for the node fails on no entry: every entry that was
    failed for the node is marked recovered (replicated, its error
    cleared, a recovery time set), the others are unchanged, and no failed
    entry for the node is left in the queue. *)
Theorem replay_recovers_all node (w : World) :
  node_answers node ->
  exists results w',
    replayFailedReplications node w = (Done results, w')
    /\ replay_failed results = 0%nat
    /\ replay_success results = replay_total results
    /\ replay_total results
       = List.length (List.filter (is_failed_for node) (replicationQueue w))
    /\ Forall2 (fun e e' => if is_failed_for node e
                            then exists t, e' = mark_recovered t e
                            else e' = e)
         (replicationQueue w) (replicationQueue w')
    /\ Forall (fun e => is_failed_for node e = false) (replicationQueue w').
Proof.
  intros Hanswers.
  destruct (replay_counted node w)
    as (results & w' & evs & Hrun & Hrep & _ & [Hs Hf] & Htot & _ & _ & _ & _ & _
        & Hlen).
  destruct (replayed_answers _ _ _ _ _ _ _ _ Hanswers Hrep) as [Hall Hq].
  assert (Hnone : replay_failed results = 0%nat).
  { rewrite Hf. clear -Hall.
    induction Hall as [|d ds Hd _ IH]; [done|]. simpl. by rewrite Hd. }
  exists results, w'. split_and!; [done | done | lia | done | |].
  - rewrite Hq. apply Forall2_fmap_r, Forall_Forall2_diag, Forall_forall.
    intros e _. simpl. destruct (is_failed_for node e); [by eexists | done].
  - rewrite Hq. apply Forall_fmap, Forall_forall. intros e _. simpl.
    destruct (is_failed_for node e) eqn:Hsel; [|done].
    unfold is_failed_for. simpl. by rewrite andb_false_r.
Qed.

(** What a second replay for [node] would select are, by their
    identifiers and in order, the entries on which this one failed. *)
Lemma replayed_left_ids node t s queue s' queue' details evs :
  replayed node t s queue s' queue' details evs ->
  map entry_id (List.filter (is_failed_for node) queue')
  = map detail_id (List.filter (fun d => negb (detail_succeeded d)) details).
Proof.
  induction 1 as [ | ? ? ? ? ? ? ? Hsel | ? ? ? ? ? ? ? ? ? ? Hsel
                   | ? ? ? ? ? ? ? ? ? Hsel | ? ? ? ? ? ? ? ? ? ? Hsel ];
    simpl; rewrite ?Hsel; simpl; try congruence.
  replace (is_failed_for node (mark_recovered t entry)) with false; [done|].
  unfold is_failed_for. simpl. by rewrite andb_false_r.
Qed.

(** An entry a replay has changed is no longer a failed entry. *)
Lemma replayed_recovered node t s queue s' queue' details evs :
  replayed node t s queue s' queue' details evs ->
  Forall2 (fun e e' =>
             e' = e
             \/ (is_failed_for node e = true /\ entry_status e' = Replicated
                 /\ is_failed_for node e' = false)) queue queue'.
Proof.
  induction 1; constructor; auto.
  right. split; [done|]. split; [done|].
  unfold is_failed_for. simpl. by rewrite andb_false_r.
Qed.

(** X7: a replay for a node, run again at once, takes up exactly the
    entries on which the first run failed: the entries it replays are, by
    their identifiers and in order, those reported as failed by the first
    run, as many as its failed count; an entry the first run has changed is
    replicated and is not selected again. *)
Theorem replay_again_takes_failures node (w : World) :
  exists results1 w1 results2 w2,
    replayFailedReplications node w = (Done results1, w1)
    /\ replayFailedReplications node w1 = (Done results2, w2)
    /\ replay_total results2 = replay_failed results1
    /\ map detail_id (replay_details results2)
       = map detail_id
           (List.filter (fun d => negb (detail_succeeded d)) (replay_details results1))
    /\ map entry_id (List.filter (is_failed_for node) (replicationQueue w1))
       = map detail_id (replay_details results2)
    /\ Forall2 (fun e e1 =>
                  e1 = e
                  \/ (is_failed_for node e = true /\ entry_status e1 = Replicated
                      /\ is_failed_for node e1 = false))
         (replicationQueue w) (replicationQueue w1).
Proof.
  destruct (replay_counted node w)
    as (results1 & w1 & evs1 & Hrun1 & Hrep1 & _ & [_ Hf1] & _).
  destruct (replay_counted node w1)
    as (results2 & w2 & evs2 & Hrun2 & Hrep2 & _ & _ & _ & _ & _ & _ & _ & _
        & Htot2).
  exists results1, w1, results2, w2. split; [done|]. split; [done|].
  pose proof (replayed_left_ids _ _ _ _ _ _ _ _ Hrep1) as Hleft.
  pose proof (replayed_details _ _ _ _ _ _ _ _ Hrep2) as Hdet2.
  split_and!.
  - rewrite Htot2, Hf1, <- (length_map entry_id), Hleft. by rewrite length_map.
  - by rewrite Hdet2, Hleft.
  - by rewrite Hdet2.
  - by eapply replayed_recovered.
Qed.


(** ** Node registry *)

Lemma is_killed_insert node other flag (w : World) :
  is_killed other (set_simulatedFailures (<[node := flag]> (simulatedFailures w)) w)
  = if decide (node = other) then flag else is_killed other w.
Proof.
  unfold is_killed. simpl. rewrite lookup_insert.
  by destruct (decide (node = other)).
Qed.

(** X8: killing a known node that has a pool sets its flag and no other;
    from then on every request addressed to the node is answered 503 with
    a fresh transaction id, without a call on a pool, a lock or a log
    entry, whatever the query. *)
Theorem killed_node_rejects node status (w : World) :
  nodeStatus w !! node = Some status ->
  has_pool node = true ->
  exists st w1,
    kill node w = (Done (Killed (Some st)), w1)
    /\ ns_status st = "offline" /\ ns_failureTime st = Some (clock w)
    /\ is_killed node w1 = true
    /\ (forall other, other <> node -> is_killed other w1 = is_killed other w)
    /\ replicationQueue w1 = replicationQueue w
    /\ activeTransactions w1 = activeTransactions w
    /\ forall fuel req,
         req_node req = node ->
         execute fuel req w1
         = (Done (NodeOffline (uuid_next w1) node),
            set_uuid_next (S (uuid_next w1)) w1).
Proof.
  intros Hknown Hpool. unfold kill. unfold_monad. simpl. rewrite Hknown. simpl.
  rewrite lookup_insert_eq. eexists _, _. split; [done|]. simpl.
  split_and!; try done.
  - unfold is_killed. simpl. by rewrite lookup_insert_eq.
  - intros other Hne. unfold is_killed. simpl. by rewrite lookup_insert_ne.
  - intros fuel req <-. rewrite execute_unfold. simpl. rewrite Hpool. simpl.
    unfold is_killed at 1. simpl. by rewrite lookup_insert_eq.
Qed.

(** The body of the loop of [checkNodeHealth], for one node. *)
Lemma check_node_spec node (w : World) :
  exists st evs w',
    check_node getConnection conn_query node w = (Done tt, w')
    /\ nodeStatus w' = <[node := st]> (nodeStatus w)
    /\ io w' = io w ++ evs
    /\ Forall (fun ev => event_node ev = Some node) evs
    /\ simulatedFailures w' = simulatedFailures w
    /\ replicationQueue w' = replicationQueue w
    /\ transactionLog w' = transactionLog w
    /\ activeTransactions w' = activeTransactions w
    /\ clock w' = clock w
    /\ ns_lastCheck st = Some (clock w) /\ ns_failureTime st = None
    /\ (is_killed node w = true -> st = killed_status (clock w) /\ evs = [])
    /\ (is_killed node w = false ->
        evs <> [] /\ (ns_status st = "online" <-> ns_error st = None)).
Proof.
  unfold check_node. unfold bind at 1. unfold gets at 1.
  destruct (is_killed node w) eqn:Hk.
  - unfold_monad. simpl. eexists _, [], _. split; [done|]. simpl.
    rewrite app_nil_r. split_and!; try done.
  - unfold bind at 1. rewrite try_apply_unfold. simpl.
    destruct (getConnection node (store w)) as [[msg|] s]; simpl.
    + unfold_monad. simpl. eexists _, [GetConnection node], _.
      split; [done|]. simpl.
      split_and!; try done; try (by repeat constructor);
        try (intros _; split; [done|]; split; (done || discriminate)).
    + destruct (conn_query node "SELECT 1" s) as [[rows|msg] s']; simpl;
        unfold_monad; simpl;
        (eexists _, [GetConnection node; ConnQuery node "SELECT 1"], _;
         split; [done|]; simpl; rewrite <- app_assoc;
         split_and!; try done; try (by repeat constructor);
         try (intros _; split; [done|]; split; (done || discriminate))).
Qed.

(** X9: a health check writes, for each of the three nodes, a status
    that carries a time of check and no failure time; for a killed node
    the status is offline with the error of the simulated failure, and no
    call is made on the pool of that node; for a node that is not killed
    the status is online exactly when it carries no error. The flags, the
    queue, the log and the markers are unchanged. *)
Theorem checkNodeHealth_reports (w : World) :
  exists w' evs,
    checkNodeHealth w = (Done tt, w')
    /\ io w' = io w ++ evs
    /\ simulatedFailures w' = simulatedFailures w
    /\ replicationQueue w' = replicationQueue w
    /\ transactionLog w' = transactionLog w
    /\ activeTransactions w' = activeTransactions w
    /\ forall node, node ∈ pools ->
         exists st,
           nodeStatus w' !! node = Some st
           /\ is_Some (ns_lastCheck st) /\ ns_failureTime st = None
           /\ (is_killed node w = true ->
               (exists t, st = killed_status t)
               /\ Forall (fun ev => event_node ev <> Some node) evs)
           /\ (is_killed node w = false ->
               (ns_status st = "online" <-> ns_error st = None)).
Proof.
  unfold checkNodeHealth.
  destruct (check_node_spec "node0" w)
    as (st0 & evs0 & w0 & H0 & Hn0 & Hio0 & Hev0 & Hf0 & Hq0 & Hl0 & Ha0 & Hc0
        & Ht0 & Hft0 & Hk0 & Hlive0).
  destruct (check_node_spec "node1" w0)
    as (st1 & evs1 & w1 & H1 & Hn1 & Hio1 & Hev1 & Hf1 & Hq1 & Hl1 & Ha1 & Hc1
        & Ht1 & Hft1 & Hk1 & Hlive1).
  destruct (check_node_spec "node2" w1)
    as (st2 & evs2 & w2 & H2 & Hn2 & Hio2 & Hev2 & Hf2 & Hq2 & Hl2 & Ha2 & Hc2
        & Ht2 & Hft2 & Hk2 & Hlive2).
  assert (Hk01 : forall n, is_killed n w0 = is_killed n w)
    by (intros n; unfold is_killed; by rewrite Hf0).
  assert (Hk12 : forall n, is_killed n w1 = is_killed n w)
    by (intros n; unfold is_killed; by rewrite Hf1, Hf0).
  rewrite Hk01 in Hk1, Hlive1. rewrite Hk12 in Hk2, Hlive2.
  rewrite Hc0 in Ht1, Hk1. rewrite Hc1, Hc0 in Ht2, Hk2.
  exists w2, (evs0 ++ evs1 ++ evs2). unfold bind. rewrite H0, H1, H2.
  split; [done|]. split; [by rewrite Hio2, Hio1, Hio0, <- !app_assoc|].
  split; [congruence|]. split; [congruence|]. split; [congruence|].
  split; [congruence|].
  assert (Hother : forall (a b : string) (evs : list IOEvent),
            a <> b -> Forall (fun ev => event_node ev = Some a) evs ->
            Forall (fun ev => event_node ev <> Some b) evs).
  { intros a b evs Hab Hall. eapply Forall_impl; [exact Hall|].
    simpl. intros ev -> [= ?]. done. }
  intros node Hin. unfold pools in Hin.
  rewrite Hn2, Hn1, Hn0.
  apply elem_of_cons in Hin as [-> | Hin];
    [|apply elem_of_cons in Hin as [-> | Hin];
      [|apply elem_of_cons in Hin as [-> | Hin]; [|by apply elem_of_nil in Hin]]].
  - exists st0. rewrite lookup_insert_ne, lookup_insert_ne, lookup_insert_eq by done.
    split_and!; try done.
    + intros Hk. destruct (Hk0 Hk) as [-> ->]. split; [by eexists|]. simpl.
      apply Forall_app.
      split; [by apply (Hother "node1") | by apply (Hother "node2")].
    + intros Hlive. by apply Hlive0.
  - exists st1. rewrite lookup_insert_ne, lookup_insert_eq by done.
    split_and!; try done.
    + intros Hk. destruct (Hk1 Hk) as [-> ->]. split; [by eexists|].
      apply Forall_app. split; [by apply (Hother "node0")|].
      simpl. by apply (Hother "node2").
    + intros Hlive. by apply Hlive1.
  - exists st2. rewrite lookup_insert_eq.
    split_and!; try done.
    + intros Hk. destruct (Hk2 Hk) as [-> ->]. split; [by eexists|].
      rewrite app_nil_r. apply Forall_app.
      split; [by apply (Hother "node0") | by apply (Hother "node1")].
    + intros Hlive. by apply Hlive2.
Qed.


Lemma checkNodeHealth_frame (w : World) :
  exists st0 st1 st2 w',
    checkNodeHealth w = (Done tt, w')
    /\ nodeStatus w'
       = <["node2" := st2]> (<["node1" := st1]> (<["node0" := st0]> (nodeStatus w)))
    /\ simulatedFailures w' = simulatedFailures w
    /\ replicationQueue w' = replicationQueue w
    /\ transactionLog w' = transactionLog w
    /\ activeTransactions w' = activeTransactions w.
Proof.
  unfold checkNodeHealth.
  destruct (check_node_spec "node0" w)
    as (st0 & evs0 & w0 & H0 & Hn0 & _ & _ & Hf0 & Hq0 & Hl0 & Ha0 & _).
  destruct (check_node_spec "node1" w0)
    as (st1 & evs1 & w1 & H1 & Hn1 & _ & _ & Hf1 & Hq1 & Hl1 & Ha1 & _).
  destruct (check_node_spec "node2" w1)
    as (st2 & evs2 & w2 & H2 & Hn2 & _ & _ & Hf2 & Hq2 & Hl2 & Ha2 & _).
  exists st0, st1, st2, w2. unfold bind. rewrite H0, H1, H2.
  split; [done|]. split; [by rewrite Hn2, Hn1, Hn0|].
  split_and!; congruence.
Qed.

(** X10: the recovery of a node always answers, and never with the 500
    of its [catch]: for a node the registry does not know it answers 400
    and changes nothing; for a known node it clears the flag of that node
    and of no other, and answers with counts of the replay that add up;
    the queue keeps its length, the log and the markers are unchanged. *)
Theorem recover_answers node (w : World) :
  exists resp w',
    recover node w = (Done resp, w')
    /\ match nodeStatus w !! node with
       | None => resp = RecoverInvalidNode /\ w' = w
       | Some _ =>
           (exists st replayed failed total,
              resp = Recovered st replayed failed total
              /\ total = (replayed + failed)%nat
              /\ total = List.length
                           (List.filter (is_failed_for node) (replicationQueue w)))
           /\ is_killed node w' = false
           /\ (forall other, other <> node -> is_killed other w' = is_killed other w)
           /\ List.length (replicationQueue w') = List.length (replicationQueue w)
           /\ transactionLog w' = transactionLog w
           /\ activeTransactions w' = activeTransactions w
       end.
Proof.
  unfold recover, try_catch. unfold bind at 1. unfold gets at 1.
  destruct (nodeStatus w !! node) as [status|] eqn:Hknown; [|by eexists _, _].
  unfold bind at 1. unfold modify at 1.
  unfold bind at 1. unfold put_nodeStatus at 1. unfold modify at 1. simpl.
  unfold bind at 1.
  match goal with |- context [replayFailedReplications node ?v] =>
    destruct (replay_counted node v)
      as (results & w1 & evs & Hrun & Hrep & _ & _ & Htot & Hf & Hl & Ha & _
          & _ & Htot0)
  end.
  simpl in *.
  destruct (checkNodeHealth_frame w1)
    as (st0 & st1 & st2 & w2 & Hhealth & _ & Hf2 & Hq2 & Hl2 & Ha2).
  rewrite Hrun. unfold bind at 1. rewrite Hhealth.
  unfold_monad. simpl. eexists _, _. split; [done|].
  split_and!.
  - eexists _, _, _, _. split; [done|]. split; [done | exact Htot0].
  - unfold is_killed. rewrite Hf2, Hf. by rewrite lookup_insert_eq.
  - intros other Hne. unfold is_killed. rewrite Hf2, Hf.
    by rewrite lookup_insert_ne.
  - rewrite Hq2. symmetry.
    eapply Forall2_length, replayed_entries, Hrep.
  - congruence.
  - congruence.
Qed.

Lemma known_insert (m : gmap string NodeStatus) node st :
  (forall n, is_Some (m !! n) <-> n ∈ pools) ->
  node ∈ pools ->
  forall n, is_Some (<[node := st]> m !! n) <-> n ∈ pools.
Proof.
  intros Hm Hin n. rewrite lookup_insert.
  destruct (decide (node = n)) as [<- | Hne]; [|apply Hm].
  split; [done | by eexists].
Qed.

(** X11: when the registry knows exactly the nodes that have a pool, it
    still does after a kill, a recovery or a health check, whatever the
    node named; and a kill then answers 400 exactly for the names for
    which the query handler answers 400. *)
Theorem registry_keeps_nodes (w : World) :
  known_nodes w ->
  (forall node, known_nodes (snd (kill node w)))
  /\ (forall node, known_nodes (snd (recover node w)))
  /\ known_nodes (snd (checkNodeHealth w))
  /\ (forall node, fst (kill node w) = Done KillInvalidNode <-> has_pool node = false).
Proof.
  intros Hknown.
  assert (Hpools : "node0" ∈ pools /\ "node1" ∈ pools /\ "node2" ∈ pools)
    by (unfold pools; split_and!; repeat constructor).
  destruct Hpools as (Hp0 & Hp1 & Hp2).
  assert (Hhealth : forall v : World, known_nodes v ->
            known_nodes (snd (checkNodeHealth v))).
  { intros v Hv.
    destruct (checkNodeHealth_frame v)
      as (st0 & st1 & st2 & v' & -> & Hn & _).
    unfold known_nodes. simpl. rewrite Hn.
    by repeat apply known_insert. }
  split_and!.
  - intros node. unfold kill. unfold_monad. simpl.
    destruct (nodeStatus w !! node) as [status|] eqn:Hn; [|done].
    simpl. unfold known_nodes. simpl. apply known_insert; [done|].
    apply Hknown. by eexists.
  - intros node. unfold recover, try_catch. unfold bind at 1. unfold gets at 1.
    destruct (nodeStatus w !! node) as [status|] eqn:Hn; [|done].
    unfold bind at 1. unfold modify at 1.
    unfold bind at 1. unfold put_nodeStatus at 1. unfold modify at 1. simpl.
    unfold bind at 1.
    match goal with |- context [replayFailedReplications node ?v] =>
      destruct (replay_counted node v)
        as (results & w1 & evs & Hrun & _ & _ & _ & _ & _ & _ & _ & Hns & _ & _)
    end.
    simpl in Hns.
    rewrite Hrun. unfold bind at 1.
    assert (Hw1 : known_nodes w1).
    { unfold known_nodes. rewrite Hns. apply known_insert; [done|].
      apply Hknown. by eexists. }
    specialize (Hhealth w1 Hw1).
    destruct (checkNodeHealth_frame w1) as (? & ? & ? & w2 & Hrun2 & _).
    rewrite Hrun2 in *. by unfold_monad.
  - by apply Hhealth.
  - intros node. unfold kill. unfold_monad. simpl. unfold has_pool.
    destruct (nodeStatus w !! node) as [status|] eqn:Hn; simpl.
    + split; [discriminate|]. intros Hfalse.
      apply bool_decide_eq_false in Hfalse. exfalso. apply Hfalse.
      apply Hknown. by eexists.
    + split; [|done]. intros _. apply bool_decide_eq_false.
      intros Hin. apply Hknown in Hin. rewrite Hn in Hin. by destruct Hin.
Qed.


(** ** Logs *)

(** A log entry counts for the recent updates of key [k]. *)
Lemma note_recent_spec tenMinutesAgo (log : LogEntry Rows) (acc : list Z) :
  NoDup acc ->
  NoDup (note_recent tenMinutesAgo acc log)
  /\ forall k, k ∈ note_recent tenMinutesAgo acc log <->
       k ∈ acc
       \/ (recently_ended tenMinutesAgo log = true
           /\ isWriteQuery (log_query log) = true
           /\ truthy_id (parseTransId (log_query log)) = Some k).
Proof.
  intros Hnd. unfold note_recent.
  destruct (recently_ended tenMinutesAgo log); simpl;
    [|split; [done|]; intros k; split; [by left | by intros [? | (? & _)]]].
  destruct (isWriteQuery (log_query log)); simpl;
    [|split; [done|]; intros k; split; [by left | by intros [? | (_ & ? & _)]]].
  destruct (truthy_id (parseTransId (log_query log))) as [transId|];
    [|split; [done|]; intros k; split; [by left | by intros [? | (_ & _ & ?)]]].
  destruct (bool_decide_reflect (transId ∈ acc)) as [Hin | Hnin].
  - split; [done|]. intros k. split; [by left|].
    intros [? | (_ & _ & [= <-])]; done.
  - split.
    + apply NoDup_app. split_and!; [done | | apply NoDup_singleton].
      intros x Hx Hx'. apply list_elem_of_singleton in Hx'. by subst.
    + intros k. rewrite elem_of_app, list_elem_of_singleton. split.
      * intros [? | ->]; [by left | by right].
      * intros [? | (_ & _ & [= <-])]; [by left | by right].
Qed.

(** X12: [getRecentlyUpdatedTransIds] changes nothing and returns a list
    without repetition; an id is in the list exactly when some entry of
    the transaction log ended less than ten minutes ago, holds a write,
    and names that id, which is then not zero. *)
Theorem recent_ids_spec (w : World) :
  exists ids,
    getRecentlyUpdatedTransIds w = (Done ids, w)
    /\ NoDup ids
    /\ forall k, k ∈ ids <->
         exists log, log ∈ transactionLog w
           /\ log_endTime log <> None
           /\ (forall t, log_endTime log = Some t -> clock w - 600000 < t)
           /\ isWriteQuery (log_query log) = true
           /\ parseTransId (log_query log) = Some k /\ k <> 0.
Proof.
  unfold getRecentlyUpdatedTransIds. unfold_monad. simpl.
  eexists. split; [done|].
  assert (Hgen : forall logs acc, NoDup acc ->
    NoDup (fold_left (note_recent (clock w - 10 * 60 * 1000)) logs acc)
    /\ forall k,
         k ∈ fold_left (note_recent (clock w - 10 * 60 * 1000)) logs acc <->
         k ∈ acc
         \/ exists log : LogEntry Rows, log ∈ logs
              /\ recently_ended (clock w - 10 * 60 * 1000) log = true
              /\ isWriteQuery (log_query log) = true
              /\ truthy_id (parseTransId (log_query log)) = Some k).
  { induction logs as [|log logs IH]; intros acc Hnd; simpl.
    - split; [done|]. intros k. split; [by left|].
      intros [? | (log & Hin & _)]; [done | by apply elem_of_nil in Hin].
    - destruct (note_recent_spec (clock w - 10 * 60 * 1000) log acc Hnd)
        as [Hnd1 Hin1].
      destruct (IH _ Hnd1) as [Hnd2 Hin2]. split; [done|].
      intros k. rewrite Hin2, Hin1. split.
      + intros [[? | Hlog] | (log' & Hin & Hrel)]; [by left | |].
        * right. exists log. split; [by left | done].
        * right. exists log'. split; [by right | done].
      + intros [? | (log' & Hin & Hrel)]; [by left; left|].
        apply elem_of_cons in Hin as [-> | Hin].
        * left. by right.
        * right. by exists log'. }
  destruct (Hgen (transactionLog w) [] (NoDup_nil_2 (A:=Z))) as [Hnd Hin].
  split; [done|]. intros k. rewrite Hin. split.
  - intros [Hnil | (log & Hlog & Hrecent & Hwrite & Hid)];
      [by apply elem_of_nil in Hnil|].
    exists log. unfold recently_ended in Hrecent.
    destruct (log_endTime log) as [t|] eqn:Ht; [|done].
    apply Z.ltb_lt in Hrecent.
    destruct (parseTransId (log_query log)) as [n|]; [|done]. simpl in Hid.
    destruct (Z.eqb_spec n 0); [done|]. injection Hid as ->.
    split_and!; try done. intros t' [= <-]. lia.
  - intros (log & Hlog & Hend & Hrecent & Hwrite & Hid & Hk).
    right. exists log. split; [done|]. unfold recently_ended.
    destruct (log_endTime log) as [t|]; [|done].
    split_and!; [apply Z.ltb_lt; specialize (Hrecent t eq_refl); lia | done |].
    rewrite Hid. simpl. by destruct (Z.eqb_spec k 0).
Qed.

(** X13: clearing the logs empties the transaction log and the
    replication queue and leaves flags and markers alone; a replay that
    follows, for any node, finds nothing to do and calls no pool, and no
    id counts as recently updated. *)
Theorem clear_forgets_failures node (w : World) :
  exists t w1,
    clearLogs w = (Done t, w1)
    /\ transactionLog w1 = [] /\ replicationQueue w1 = []
    /\ simulatedFailures w1 = simulatedFailures w
    /\ activeTransactions w1 = activeTransactions w
    /\ replayFailedReplications node w1
       = (Done {| replay_total := 0; replay_success := 0; replay_failed := 0;
                  replay_details := [] |}, w1)
    /\ getRecentlyUpdatedTransIds w1 = (Done [], w1).
Proof.
  unfold clearLogs. unfold_monad. simpl. eexists _, _. split; [done|].
  simpl. split_and!; done.
Qed.


(** ** Markers *)

(** X14: on a free key, [startTransaction] writes the marker of the node
    with the time of the call and touches no other key; the
    [commitTransaction] that follows brings [activeTransactions] back to
    what it was, and a second [commitTransaction] changes nothing. *)
Theorem lock_then_release (fuel : nat) (k : Z) (node : string) (w : World) :
  k <> 0 ->
  activeTransactions w !! k = None ->
  exists w1 w2,
    startTransaction fuel (Some k) node w = (Done tt, w1)
    /\ activeTransactions w1 !! k
       = Some {| marker_node := node; marker_startTime := clock w |}
    /\ (forall j, j <> k -> activeTransactions w1 !! j = activeTransactions w !! j)
    /\ commitTransaction (Some k) w1 = (Done tt, w2)
    /\ activeTransactions w2 = activeTransactions w
    /\ io w2 = io w ++ [ConsoleTxnStart k node; ConsoleTxnCommit k]
    /\ commitTransaction (Some k) w2 = (Done tt, w2).
Proof.
  intros Hk Hfree. unfold startTransaction, commitTransaction.
  rewrite (truthy_id_nonzero k Hk), Hfree. unfold_monad. simpl.
  eexists _, _. split; [done|]. simpl. rewrite lookup_insert_eq.
  split; [done|]. split; [by intros j Hj; rewrite lookup_insert_ne|].
  split; [done|]. simpl. rewrite lookup_delete_eq.
  split_and!; [|by rewrite <- app_assoc | done].
  rewrite delete_insert_eq. by apply delete_id.
Qed.

Lemma wait_timed_out_marked (fuel : nat) (k startWait : Z) : forall (w w' : World),
  wait_while_active fuel k startWait w = (TimedOut, w') ->
  is_Some (activeTransactions w' !! k).
Proof.
  induction fuel as [|fuel IH]; intros w w'; simpl;
    destruct (activeTransactions w !! k) as [m|] eqn:Hm; try done;
    destruct (Z.ltb TRANSACTION_TIMEOUT (clock w - startWait)); try done.
  - intros [= <-]. by rewrite Hm.
  - intros [= <-]. by rewrite Hm.
  - apply IH.
Qed.

Lemma admission_thrown (fuel : nat) (isWrite : bool) (transId : option Z) (k : Z)
    (node level : string) (e : Error) (w w' : World) :
  truthy_id transId = Some k ->
  admission fuel isWrite transId node level w = (Thrown e, w') ->
  is_Some (activeTransactions w' !! k)
  /\ (e = LockTimeout k \/ e = ReadTimeout level).
Proof.
  intros Ht. rewrite admission_cases, Ht. destruct isWrite.
  - unfold startTransaction. rewrite Ht. unfold when.
    destruct (bool_decide (is_Some (activeTransactions w !! k)));
      [|by unfold_monad].
    unfold bind at 1. unfold poll.
    destruct (wait_while_active fuel k (clock w) w) as [[ | | ] w1] eqn:Hwait;
      [by unfold_monad | | done].
    intros [= <- <-]. split; [by eapply wait_timed_out_marked | by left].
  - unfold bind at 1. unfold canReadProceed. rewrite Ht.
    destruct (activeTransactions w !! k); [|done].
    destruct (String.eqb level "READ_UNCOMMITTED"); [done|].
    unfold bind at 1. unfold poll.
    destruct (wait_while_active fuel k (clock w) w) as [[ | | ] w1] eqn:Hwait;
      [done | | done].
    intros [= <- <-]. split; [by eapply wait_timed_out_marked | by right].
Qed.

(** X15: when the lock or the gate of a request on key [k] times out,
    the key still carries the marker the request was waiting for; the
    handler answers 500 with the timeout, sends no query, replicates
    nothing, and its [catch] removes that marker from the key. *)
Theorem timeout_removes_waited_marker (fuel : nat) (req : Request) (k : Z)
    (e : Error) (w w1 w2 : World) :
  has_pool (req_node req) = true ->
  is_killed (req_node req) w = false ->
  truthy_id (parseTransId (req_query req)) = Some k ->
  pool_getConnection (req_node req) (set_uuid_next (S (uuid_next w)) w)
    = (Done tt, w1) ->
  admission fuel (isWriteQuery (req_query req)) (parseTransId (req_query req))
    (req_node req) (effective_isolation (req_isolationLevel req)) w1
    = (Thrown e, w2) ->
  exists logEntry w',
    execute fuel req w = (Done (ExecutionFailed (uuid_next w) e logEntry), w')
    /\ (e = LockTimeout k
        \/ e = ReadTimeout (effective_isolation (req_isolationLevel req)))
    /\ is_Some (activeTransactions w2 !! k)
    /\ activeTransactions w' = delete k (activeTransactions w2)
    /\ activeTransactions w' !! k = None
    /\ io w' = io w2 ++ [ConsoleTxnCommit k]
    /\ store w' = store w2
    /\ replicationQueue w' = replicationQueue w2.
Proof.
  intros Hpool Hlive Ht Hconn Hadm.
  destruct (admission_thrown _ _ _ k _ _ _ _ _ Ht Hadm) as [[m Hm] He].
  rewrite execute_unfold. simpl. rewrite Hpool, Hlive, Hconn, Hadm. simpl.
  unfold aborted. eexists _, _. split; [done|]. simpl.
  unfold released, commitTransaction. rewrite Ht, Hm. simpl.
  split_and!; try done. apply lookup_delete_eq.
Qed.

(** X16: a read of key [k] at [READ_UNCOMMITTED] is answered without a
    timer wait, for every fuel, and when it is answered the key carries
    no marker: the handler removes whatever marker was on the key,
    though the read did not write it. *)
Theorem dirty_read_removes_marker (fuel : nat) (req : Request) (k : Z) (w : World) :
  has_pool (req_node req) = true ->
  is_killed (req_node req) w = false ->
  isWriteQuery (req_query req) = false ->
  truthy_id (parseTransId (req_query req)) = Some k ->
  effective_isolation (req_isolationLevel req) = "READ_UNCOMMITTED" ->
  exists resp w' evs,
    execute fuel req w = (Done resp, w')
    /\ activeTransactions w' = delete k (activeTransactions w)
    /\ io w' = io w ++ evs
    /\ Forall (fun ev => pool_event ev \/ ev = ConsoleTxnCommit k) evs.
Proof.
  intros Hpool Hlive Hread Ht Hlevel.
  rewrite execute_unfold. simpl. rewrite Hpool, Hlive, Hread, Hlevel. simpl.
  assert (Hrel : forall v : World,
            activeTransactions (released (parseTransId (req_query req)) v)
            = delete k (activeTransactions v)
            /\ exists evs, io (released (parseTransId (req_query req)) v) = io v ++ evs
                 /\ Forall (fun ev => pool_event ev \/ ev = ConsoleTxnCommit k) evs).
  { intros v. destruct (released_truthy _ k v Ht) as (Hdel & _ & _ & Hio).
    split; [done|]. eexists. split; [exact Hio|].
    destruct (activeTransactions v !! k);
      [constructor; [by right | constructor] | constructor]. }
  assert (Hpoolev : forall evs, Forall pool_event evs ->
            Forall (fun ev => pool_event ev \/ ev = ConsoleTxnCommit k) evs).
  { intros evs Hall. eapply Forall_impl; [exact Hall|]. simpl. tauto. }
  destruct (pool_getConnection_cases (req_node req)
              (set_uuid_next (S (uuid_next w)) w))
    as (r1 & w1 & -> & Hr1 & _ & _ & Hfr1).
  pose proof (frame_active _ _ Hfr1) as Ha1.
  destruct (frame_io _ _ Hfr1) as (evs1 & Hio1 & Hevs1). simpl in Ha1, Hio1.
  destruct Hr1 as [-> | [msg ->]].
  2: { unfold aborted. destruct (Hrel w1) as (Hdel & evsr & Hior & Hevsr).
       eexists _, _, (evs1 ++ evsr). split; [done|]. simpl.
       split_and!; [by rewrite Hdel, Ha1 | by rewrite Hior, Hio1, app_assoc |].
       apply Forall_app. split; [by apply Hpoolev | done]. }
  assert (Hadm : admission fuel false (parseTransId (req_query req)) (req_node req)
                   "READ_UNCOMMITTED" w1 = (Done tt, w1)).
  { rewrite admission_cases, Ht. unfold bind, canReadProceed. rewrite Ht.
    by destruct (activeTransactions w1 !! k). }
  rewrite Hadm.
  destruct (pool_query_cases (req_node req) (req_query req) w1)
    as (r3 & w3 & -> & Hr3 & _ & _ & Hfr3).
  pose proof (pool_frame_trans _ _ _ Hfr1 Hfr3) as Hfr13.
  destruct Hr3 as [[rows ->] | [msg ->]].
  - unfold committed.
    destruct (replicateWrite_done (req_node req) (req_query req) w3)
      as (entries & w4 & -> & _ & _ & Hfr4).
    pose proof (pool_frame_trans _ _ _ Hfr13 Hfr4) as Hfr.
    pose proof (frame_active _ _ Hfr) as Ha.
    destruct (frame_io _ _ Hfr) as (evs & Hio & Hevs). simpl in Ha, Hio.
    destruct (Hrel w4) as (Hdel & evsr & Hior & Hevsr).
    eexists _, _, (evs ++ evsr). split; [done|]. simpl.
    split_and!; [by rewrite Hdel, Ha | by rewrite Hior, Hio, app_assoc |].
    apply Forall_app. split; [by apply Hpoolev | done].
  - pose proof (frame_active _ _ Hfr13) as Ha.
    destruct (frame_io _ _ Hfr13) as (evs & Hio & Hevs). simpl in Ha, Hio.
    unfold aborted. destruct (Hrel w3) as (Hdel & evsr & Hior & Hevsr).
    eexists _, _, (evs ++ evsr). split; [done|]. simpl.
    split_and!; [by rewrite Hdel, Ha | by rewrite Hior, Hio, app_assoc |].
    apply Forall_app. split; [by apply Hpoolev | done].
Qed.

(** X17: the id 0 is read from a query but is no key: a write on
    [trans_id = 0] takes no lock, whatever the markers, and from the
    master it is replicated to both fragments without a look at the date
    of the record. *)
Theorem zero_id_is_no_key (fuel : nat) (query : string) (w : World) :
  parseTransId query = Some 0 ->
  isWriteQuery query = true ->
  (forall node level (w1 : World),
     admission fuel true (parseTransId query) node level w1 = (Done tt, w1))
  /\ fetch_record_date "node0" (parseTransId query) w = (Done None, w)
  /\ exists entries w',
       replicateWrite "node0" query w = (Done entries, w')
       /\ map entry_target entries = ["node1"; "node2"].
Proof.
  intros Hzero Hwrite. rewrite Hzero. split_and!.
  - intros node level w1. by apply admission_no_id.
  - done.
  - destruct (for_each_replicate_to "node0" query ["node1"; "node2"] w)
      as (entries & w' & Hloop & _ & Htargets & _).
    exists entries, w'. split; [|done].
    unfold replicateWrite. rewrite Hwrite, Hzero. simpl. unfold bind.
    unfold fetch_record_date, ret. simpl. exact Hloop.
Qed.


(** ** Answers of the query handler *)

Lemma replicateWrite_count sourceNode query (w : World) :
  exists entries w',
    replicateWrite sourceNode query w = (Done entries, w')
    /\ (List.length entries <= 2)%nat
    /\ (isWriteQuery query = false -> entries = []).
Proof.
  unfold replicateWrite. destruct (isWriteQuery query); simpl.
  - destruct (fetch_record_date_done sourceNode (parseTransId query) w)
      as (recordDate & w1 & Hdate & _).
    destruct (for_each_replicate_to sourceNode query
                (replication_targets sourceNode recordDate) w1)
      as (entries & w2 & Hloop & _ & Htargets & _).
    destruct (replication_targets_shape sourceNode recordDate) as [Hlen _].
    exists entries, w2. unfold bind. rewrite Hdate, Hloop.
    split; [done|]. split; [|done].
    rewrite <- Htargets, length_map in Hlen. lia.
  - exists [], w. unfold ret. split; [done|]. split; [simpl; lia | done].
Qed.

(** X18: what an answer of the query handler tells. A 400 means the node
    has no pool, and nothing has changed; a 503 means the node is killed,
    and only a transaction id has been used; a 200 carries the log entry
    of the request, committed, with the rows and the replication list of
    the answer, which has at most two items and none for a query that is
    not a write; a 500 carries the log entry of the request, failed, with
    the error of the answer and neither rows nor replication list. *)
Theorem answer_echoes_request (fuel : nat) (req : Request) (w w' : World)
    (resp : Response Rows) :
  execute fuel req w = (Done resp, w') ->
  match resp with
  | InvalidNode => has_pool (req_node req) = false /\ w' = w
  | NodeOffline transactionId node =>
      node = req_node req /\ transactionId = uuid_next w
      /\ is_killed node w = true
      /\ w' = set_uuid_next (S (uuid_next w)) w
  | Executed transactionId results replication logEntry =>
      transactionId = uuid_next w
      /\ (exists endTime entries,
            logEntry = committed_log req transactionId (clock w) endTime
                         results entries
            /\ replication = replication_summary entries)
      /\ (List.length replication <= 2)%nat
      /\ (isWriteQuery (req_query req) = false -> replication = [])
  | ExecutionFailed transactionId error logEntry =>
      transactionId = uuid_next w
      /\ exists endTime,
           logEntry = failed_log req transactionId (clock w) endTime error
  end.
Proof.
  rewrite execute_unfold. simpl.
  destruct (has_pool (req_node req)); simpl; [|by intros [= <- <-]].
  destruct (is_killed (req_node req) w) eqn:Hk; [by intros [= <- <-]|].
  destruct (pool_getConnection (req_node req) (set_uuid_next (S (uuid_next w)) w))
    as [[[]|e|] w1]; [| |done].
  2: { unfold aborted. intros [= <- <-]. split; [done | by eexists]. }
  destruct (admission fuel (isWriteQuery (req_query req))
              (parseTransId (req_query req)) (req_node req)
              (effective_isolation (req_isolationLevel req)) w1)
    as [[[]|e|] w2]; [| |done].
  2: { unfold aborted. intros [= <- <-]. split; [done | by eexists]. }
  destruct (pool_query (req_node req) (req_query req) w2)
    as [[results|e|] w3]; [| |done].
  2: { unfold aborted. intros [= <- <-]. split; [done | by eexists]. }
  unfold committed.
  destruct (replicateWrite_count (req_node req) (req_query req) w3)
    as (entries & w4 & -> & Hlen & Hread).
  intros [= <- <-]. split; [done|]. split; [by eexists _, _|].
  unfold replication_summary. rewrite length_map. split; [done|].
  intros Hr. by rewrite (Hread Hr).
Qed.

End Properties.

(** * The properties at work on the small store *)

Lemma sleep_idle_advances (w : World nat Toy.Store) :
  clock w + POLL_INTERVAL <= clock (Toy.sleep_idle POLL_INTERVAL w).
Proof. simpl. lia. Defined.

Lemma sleep_commit_advances (w : World nat Toy.Store) :
  clock w + POLL_INTERVAL
  <= clock (Toy.sleep_commit 1001 Toy.holder_log POLL_INTERVAL w).
Proof. simpl. lia. Defined.

Lemma key_1001_nonzero : 1001 <> 0.
Proof. discriminate. Defined.

Lemma w_marked_marked : is_Some (activeTransactions Toy.w_marked !! 1001).
Proof. eexists. vm_compute. reflexivity. Defined.

(** Scenario A: an update on the master of a record dated 1996-05-15 is
    replicated to fragment A alone. *)
Lemma replicateWrite_targets_witness :
  isWriteQuery Toy.update_1001 = true
  /\ exists entries w',
       Toy.replicateWrite "node0" Toy.update_1001 Toy.w_start = (Done entries, w')
       /\ map entry_target entries = ["node1"].
Proof.
  split; [reflexivity|].
  destruct (replicateWrite_targets Toy.getConnection Toy.conn_query
              Toy.conn_select_newdate "node0" Toy.update_1001 Toy.w_start eq_refl)
    as (entries & w' & Hrun & _ & Hmaster).
  exists entries, w'. split; [exact Hrun|].
  specialize (Hmaster eq_refl). vm_compute in Hmaster.
  exact (proj1 Hmaster eq_refl).
Defined.

(** A row is found for record 2001 and its date is the Invalid Date, which
    is no time value, before or after the boundary: the write on the
    master goes to fragment B alone, not to both fragments. *)
Lemma invalid_date_targets_node2 :
  fst (Toy.conn_select_newdate "node0" 2001 Toy.undated) = inl [InvalidDate]
  /\ (forall ms, InvalidDate <> DateValue ms)
  /\ exists entries w',
       Toy.replicateWrite "node0" Toy.update_2001 Toy.w_undated = (Done entries, w')
       /\ map entry_target entries = ["node2"]
       /\ map entry_target entries <> ["node1"; "node2"].
Proof.
  split; [reflexivity|]. split; [discriminate|].
  eexists _, _. split; [vm_compute; reflexivity|].
  split; [reflexivity | discriminate].
Qed.

(** A free key is locked at once; a key whose holder never commits is
    given up after the bound. *)
Lemma startTransaction_waits_witness :
  startTransaction Toy.sleep_idle 101 (Some 1001) "node0" Toy.w_start
  = (Done tt, install_marker 1001 "node0" Toy.w_start)
  /\ exists n, (1 <= n <= 101)%nat
       /\ match activeTransactions (Nat.iter n (poll_step Toy.sleep_idle) Toy.w_marked) !! 1001 with
          | None =>
              startTransaction Toy.sleep_idle 101 (Some 1001) "node0" Toy.w_marked
              = (Done tt,
                 install_marker 1001 "node0" (Nat.iter n (poll_step Toy.sleep_idle) Toy.w_marked))
          | Some _ =>
              TRANSACTION_TIMEOUT
              < clock (Nat.iter n (poll_step Toy.sleep_idle) Toy.w_marked) - clock Toy.w_marked
              /\ startTransaction Toy.sleep_idle 101 (Some 1001) "node0" Toy.w_marked
                 = (Thrown (LockTimeout 1001),
                    Nat.iter n (poll_step Toy.sleep_idle) Toy.w_marked)
          end.
Proof.
  split.
  - exact (proj1 (startTransaction_waits Toy.sleep_idle sleep_idle_advances
                    101 1001 "node0" Toy.w_start key_1001_nonzero) eq_refl).
  - destruct (proj2 (startTransaction_waits Toy.sleep_idle sleep_idle_advances
                       101 1001 "node0" Toy.w_marked key_1001_nonzero)
                w_marked_marked (le_n 101)) as (n & Hn & _ & Hend).
    exists n. split; [exact Hn | exact Hend].
Defined.

(** A read of a marked key goes on at once at [READ_UNCOMMITTED] and
    waits at [SERIALIZABLE]. *)
Lemma canReadProceed_policy_witness :
  canReadProceed Toy.sleep_idle 101 (Some 1001) "READ_UNCOMMITTED" Toy.w_marked
  = (Done true, Toy.w_marked)
  /\ exists n, (1 <= n <= 101)%nat
       /\ match activeTransactions (Nat.iter n (poll_step Toy.sleep_idle) Toy.w_marked) !! 1001 with
          | None =>
              canReadProceed Toy.sleep_idle 101 (Some 1001) "SERIALIZABLE" Toy.w_marked
              = (Done true, Nat.iter n (poll_step Toy.sleep_idle) Toy.w_marked)
          | Some _ =>
              canReadProceed Toy.sleep_idle 101 (Some 1001) "SERIALIZABLE" Toy.w_marked
              = (Thrown (ReadTimeout "SERIALIZABLE"),
                 Nat.iter n (poll_step Toy.sleep_idle) Toy.w_marked)
          end.
Proof.
  destruct (canReadProceed_policy Toy.sleep_idle sleep_idle_advances
              101 1001 Toy.w_marked key_1001_nonzero) as (_ & Hdirty & Hstrict).
  split; [exact (Hdirty w_marked_marked)|].
  destruct (Hstrict w_marked_marked (le_n 101)) as (n & Hn & _ & Hend).
  exists n. split; [exact Hn|].
  assert (Hin : "SERIALIZABLE" ∈ strict_levels)
    by (unfold strict_levels; repeat constructor).
  destruct (activeTransactions (Nat.iter n (poll_step Toy.sleep_idle) Toy.w_marked) !! 1001).
  - exact (proj2 Hend _ Hin).
  - exact (Hend _ Hin).
Defined.

(** Scenario B: with fragment A killed, the update of record 1001 on the
    master gives one entry, failed with the offline message, and no call
    is made after the date lookup. With fragment A unreachable instead,
    the connection is asked for and the entry carries its refusal. *)
Lemma replicateWrite_entries_witness :
  isWriteQuery Toy.update_1001 = true
  /\ (exists s1 entries w',
        Toy.replicateWrite "node0" Toy.update_1001 Toy.w_node1_killed
        = (Done entries, w')
        /\ attempted Toy.getConnection Toy.conn_query "node0" Toy.update_1001
             (fun target => is_killed target Toy.w_node1_killed)
             s1 ["node1"] (store w') entries []
        /\ map entry_status entries = [Failed]
        /\ map entry_error entries = [Some "Node node1 is offline (simulated failure)"]
        /\ io w' = [GetConnection "node0"; ConnSelectNewdate "node0" 1001]
        /\ replicationQueue w' = entries)
  /\ (exists s1 entries w',
        Toy.replicateWrite "node0" Toy.update_1001 Toy.w_node1_unreachable
        = (Done entries, w')
        /\ attempted Toy.getConnection Toy.conn_query "node0" Toy.update_1001
             (fun target => is_killed target Toy.w_node1_unreachable)
             s1 ["node1"] (store w') entries [GetConnection "node1"]
        /\ map entry_status entries = [Failed]
        /\ map entry_error entries = [Some "connect ECONNREFUSED"]
        /\ replicationQueue w' = entries).
Proof.
  split; [reflexivity|]. split.
  - destruct (replicateWrite_entries Toy.getConnection Toy.conn_query
                Toy.conn_select_newdate "node0" Toy.update_1001
                Toy.w_node1_killed eq_refl)
      as (recordDate & w1 & entries & w' & evs & Hdate & Hrun & Hatt & Hio & Hq).
    vm_compute in Hdate. injection Hdate as <- <-.
    pose proof Hrun as Hrun'. vm_compute in Hrun'. injection Hrun' as <- <-.
    assert (Hevs : evs = []) by (vm_compute in Hio; by destruct evs).
    subst evs. eexists _, _, _. split; [exact Hrun|]. split; [exact Hatt|].
    split_and!; reflexivity.
  - destruct (replicateWrite_entries Toy.getConnection Toy.conn_query
                Toy.conn_select_newdate "node0" Toy.update_1001
                Toy.w_node1_unreachable eq_refl)
      as (recordDate & w1 & entries & w' & evs & Hdate & Hrun & Hatt & Hio & Hq).
    vm_compute in Hdate. injection Hdate as <- <-.
    pose proof Hrun as Hrun'. vm_compute in Hrun'. injection Hrun' as <- <-.
    assert (Hevs : evs = [GetConnection "node1"])
      by (vm_compute in Hio; by injection Hio as <-).
    subst evs. eexists _, _, _. split; [exact Hrun|]. split; [exact Hatt|].
    split_and!; reflexivity.
Defined.

(** An insert on the master while fragment A is unreachable and fragment
    B answers: the entry of fragment A is failed with the refusal, that of
    fragment B is replicated, and the request is answered as committed
    with both statuses. *)
Lemma execute_commits_despite_replication_witness :
  exists entries logEntry w',
    Toy.execute Toy.sleep_idle 0 Toy.req_insert Toy.w_node1_unreachable
    = (Done (Executed 0 1%nat [("node1", Failed); ("node2", Replicated)] logEntry),
       w')
    /\ map entry_error entries = [Some "connect ECONNREFUSED"; None]
    /\ replicationQueue w' = entries
    /\ log_status logEntry = LogCommitted
    /\ log_replication logEntry = Some [("node1", Failed); ("node2", Replicated)]
    /\ transactionLog w' = [logEntry].
Proof.
  destruct (execute_commits_despite_replication Toy.getConnection Toy.conn_query
              Toy.conn_select_newdate Toy.sleep_idle 0 Toy.req_insert
              Toy.w_node1_unreachable Toy.w_unreachable_connected
              Toy.w_unreachable_connected Toy.w_unreachable_applied 1%nat
              eq_refl eq_refl eq_refl eq_refl eq_refl)
    as (recordDate & wd & entries & w4 & evs & w' & _ & Hrep & _ & Hexec & Hstatus
        & Hlist & Hlog & Hqueue).
  vm_compute in Hrep. injection Hrep as <- <-.
  match type of Hqueue with _ = _ ++ ?es => exists es end.
  eexists _, w'. split; [exact Hexec|].
  split; [reflexivity|]. split; [exact Hqueue|]. split; [exact Hstatus|].
  split; [exact Hlist | exact Hlog].
Defined.

(** A write on key 1001 waits once while the holder of the key commits and
    pushes its own log entry: the request is answered, and the log is then
    the entry of the holder followed by the one entry of the request. *)
Lemma execute_logs_once_witness :
  exists resp w' n,
    Toy.execute (Toy.sleep_commit 1001 Toy.holder_log) 101 Toy.req_update Toy.w_marked
    = (Done resp, w')
    /\ (n <= 101)%nat
    /\ match resp with
       | Executed _ _ _ logEntry =>
           transactionLog w' = [Toy.holder_log; logEntry]
           /\ log_status logEntry = LogCommitted
       | _ => False
       end.
Proof.
  destruct (execute_logs_once Toy.getConnection Toy.conn_query Toy.conn_select_newdate
              (Toy.sleep_commit 1001 Toy.holder_log) 101 Toy.req_update Toy.w_marked
              sleep_commit_advances (le_n 101))
    as (resp & w' & n & Hexec & Hn & _ & _ & _ & Hlog).
  exists resp, w', n. split; [exact Hexec|]. split; [exact Hn|].
  pose proof Hexec as Hrun. vm_compute in Hrun. injection Hrun as <- <-.
  destruct Hlog as [_ Hstatus]. split; [reflexivity | exact Hstatus].
Defined.

(** A read addressed to a killed node is answered 503 and the transaction
    log is left empty: the rejected request pushes no entry. *)
Lemma rejected_request_not_logged :
  exists w',
    Toy.execute Toy.sleep_idle 101 Toy.req_select_node1 Toy.w_node1_killed
    = (Done (NodeOffline 0 "node1"), w')
    /\ transactionLog Toy.w_node1_killed = []
    /\ transactionLog w' = []
    /\ List.length (transactionLog w')
       <> S (List.length (transactionLog Toy.w_node1_killed)).
Proof.
  eexists. split; [vm_compute; reflexivity|]. simpl.
  split; [reflexivity|]. split; [reflexivity | discriminate].
Qed.

(** The missed entry of fragment A stays in place and becomes replicated
    when a later write on the master is followed by the replay. *)
Lemma status_monotonic_witness :
  replicationQueue Toy.w_missed !! 0%nat = Some Toy.missed_entry
  /\ exists entry',
       replicationQueue
         (run_ops Toy.getConnection Toy.conn_query Toy.conn_select_newdate
            [OpReplicate "node0" Toy.update_1001; OpReplay "node1"] Toy.w_missed)
         !! 0%nat = Some entry'
       /\ entry_status Toy.missed_entry = Failed
       /\ entry_status entry' = Replicated.
Proof.
  split; [reflexivity|].
  destruct (status_monotonic Toy.getConnection Toy.conn_query
              Toy.conn_select_newdate
              [OpReplicate "node0" Toy.update_1001; OpReplay "node1"]
              Toy.w_missed 0%nat Toy.missed_entry eq_refl)
    as (_ & (entry' & Hlookup & _) & _).
  exists entry'. split; [exact Hlookup|]. split; [reflexivity|].
  vm_compute in Hlookup. injection Hlookup as <-. reflexivity.
Defined.

(** The update of record 1001 on the master: the marker written before
    the update is removed after [replicateWrite] has returned, and none is
    on the key when the handler answers. *)
Lemma marker_released_after_replication_witness :
  exists marker entries w4 evs resp w',
    activeTransactions Toy.w_update_locked !! 1001 = Some marker
    /\ Toy.replicateWrite "node0" Toy.update_1001 Toy.w_update_applied
       = (Done entries, w4)
    /\ io w4 = io Toy.w_update_applied ++ evs
    /\ Forall pool_event evs
    /\ Toy.execute Toy.sleep_idle 0 Toy.req_update Toy.w_start = (Done resp, w')
    /\ io w' = io w4 ++ [ConsoleTxnCommit 1001]
    /\ activeTransactions w' !! 1001 = None.
Proof.
  destruct (marker_released_after_replication Toy.getConnection Toy.conn_query
              Toy.conn_select_newdate Toy.sleep_idle 0 Toy.req_update 1001
              Toy.w_start Toy.w_update_connected Toy.w_update_locked
              eq_refl eq_refl eq_refl eq_refl eq_refl eq_refl)
    as (marker & resp & w' & Hmarker & _ & Hexec & Hfree & Hpaths).
  change (pool_query Toy.conn_query (req_node Toy.req_update)
            (req_query Toy.req_update) Toy.w_update_locked)
    with (@Done nat 1%nat, Toy.w_update_applied) in Hpaths.
  destruct Hpaths as (entries & w4 & evs & Hrep & Hio4 & Hevs & Hio & _).
  exists marker, entries, w4, evs, resp, w'.
  split; [exact Hmarker|]. split; [exact Hrep|]. split; [exact Hio4|].
  split; [exact Hevs|]. split; [exact Hexec|]. split; [|exact Hfree].
  pose proof Hrep as Hrun. vm_compute in Hrun. injection Hrun as _ <-.
  exact Hio.
Defined.

(** The update of record 1001 on the master, run to its end: the marker
    is on the key after [replicateWrite] has returned, and the line that
    marks its removal comes after the query sent to fragment A. *)
Lemma marker_held_across_replication :
  activeTransactions
    (snd (Toy.replicateWrite "node0" Toy.update_1001 Toy.w_update_applied)) !! 1001
  = Some {| marker_node := "node0"; marker_startTime := 0 |}
  /\ io (snd (Toy.execute Toy.sleep_idle 0 Toy.req_update Toy.w_start))
     = [GetConnection "node0"; ConsoleTxnStart 1001 "node0";
        ConnQuery "node0" Toy.update_1001;
        GetConnection "node0"; ConnSelectNewdate "node0" 1001;
        GetConnection "node1"; ConnQuery "node1" Toy.update_1001;
        ConsoleTxnCommit 1001].
Proof. split; vm_compute; reflexivity. Qed.

(** An insert carries no [WHERE trans_id = ...]: it runs with no fuel at
    all while key 1001 is marked, and leaves the marker alone. *)
Lemma no_trans_id_bypasses_witness :
  parseTransId Toy.insert_1001 = None
  /\ exists resp w',
       Toy.execute Toy.sleep_idle 0 Toy.req_insert Toy.w_marked = (Done resp, w')
       /\ activeTransactions w' = activeTransactions Toy.w_marked
       /\ Forall pool_event (drop (List.length (io Toy.w_marked)) (io w')).
Proof.
  split; [reflexivity|].
  destruct (proj2 (no_trans_id_bypasses Toy.getConnection Toy.conn_query
                     Toy.conn_select_newdate Toy.sleep_idle 0 Toy.req_insert
                     Toy.w_marked eq_refl))
    as (resp & w' & evs & Hexec & Hactive & Hio & Hevs & _).
  exists resp, w'. split; [exact Hexec|]. split; [exact Hactive|].
  rewrite Hio. simpl. exact Hevs.
Defined.

(** Replay for fragment A while its store still refuses connections: the
    refusal is reported in the details, and the entry keeps the error
    recorded when the write was missed. *)
Lemma replay_failure_keeps_error :
  exists results w',
    Toy.replayFailedReplications "node1" Toy.w_missed_unreachable
    = (Done results, w')
    /\ map detail_error (replay_details results) = [Some "connect ECONNREFUSED"]
    /\ map entry_status (replicationQueue w') = [Failed]
    /\ map entry_error (replicationQueue w')
       = [Some "Node node1 is offline (simulated failure)"]
    /\ map entry_error (replicationQueue w')
       <> map detail_error (replay_details results).
Proof.
  eexists _, _. split; [vm_compute; reflexivity|]. simpl.
  split_and!; try reflexivity. discriminate.
Qed.


(** * Further properties at work on the small store *)

Lemma id_1001_safe : Z.of_N 1001 <= MAX_SAFE_INTEGER.
Proof. unfold MAX_SAFE_INTEGER. lia. Defined.

Lemma id_5_safe : Z.of_N 5 <= MAX_SAFE_INTEGER.
Proof. unfold MAX_SAFE_INTEGER. lia. Defined.

(** The concurrent reads of record 1001 pass the read gate on key 1001. *)
Lemma read_query_parsed_witness :
  parseTransId (Dashboard.read_query 1001) = Some 1001
  /\ isWriteQuery (Dashboard.read_query 1001) = false.
Proof. exact (read_query_parsed 1001 id_1001_safe). Defined.

(** The text [5 OR 1=1] typed in the delete form names key 5. *)
Lemma delete_query_parsed_witness :
  parseTransId (Dashboard.delete_query "5 OR 1=1") = Some 5
  /\ isWriteQuery (Dashboard.delete_query "5 OR 1=1") = true.
Proof. exact (delete_query_parsed 5 " OR 1=1" id_5_safe eq_refl). Defined.

Lemma parseTransId_nonneg_witness : 0 <= 1001.
Proof. exact (parseTransId_nonneg Toy.update_1001 1001 eq_refl). Defined.

Lemma missed_entry_settled : Forall entry_settled (replicationQueue Toy.w_missed).
Proof.
  repeat constructor; simpl; try discriminate; try (by eexists);
    try (by intros [? [=]]).
Defined.

Lemma queue_stays_settled_witness :
  Forall entry_settled
    (replicationQueue
       (run_ops Toy.getConnection Toy.conn_query Toy.conn_select_newdate
          [OpReplicate "node0" Toy.update_1001; OpReplay "node1"] Toy.w_missed)).
Proof.
  exact (queue_stays_settled Toy.getConnection Toy.conn_query
           Toy.conn_select_newdate
           [OpReplicate "node0" Toy.update_1001; OpReplay "node1"]
           Toy.w_missed missed_entry_settled).
Defined.

Lemma node1_answers : node_answers Toy.getConnection_up Toy.conn_query "node1".
Proof. split; [reflexivity|]. intros sql s. by exists 1%nat. Defined.

(** Fragment A answers: the missed entry is recovered and none is left. *)
Lemma replay_recovers_all_witness :
  exists results w',
    replayFailedReplications Toy.getConnection_up Toy.conn_query "node1" Toy.w_missed
    = (Done results, w')
    /\ replay_failed results = 0%nat
    /\ replay_success results = 1%nat
    /\ Forall (fun e => is_failed_for "node1" e = false) (replicationQueue w').
Proof.
  destruct (replay_recovers_all Toy.getConnection_up Toy.conn_query "node1"
              Toy.w_missed node1_answers)
    as (results & w' & Hrun & Hnone & Hall & Htotal & _ & Hleft).
  exists results, w'. split; [exact Hrun|]. split; [exact Hnone|].
  split; [|exact Hleft]. rewrite Hall. exact Htotal.
Defined.

(** Fragment A is killed as the server starts: a read addressed to it is
    answered 503. *)
Lemma killed_node_rejects_witness :
  exists st w1,
    kill "node1" Toy.w_start = (Done (Killed (Some st)), w1)
    /\ is_killed "node1" w1 = true
    /\ Toy.execute Toy.sleep_idle 0 Toy.req_select_node1 w1
       = (Done (NodeOffline (uuid_next w1) "node1"),
          set_uuid_next (S (uuid_next w1)) w1).
Proof.
  destruct (killed_node_rejects Toy.getConnection Toy.conn_query
              Toy.conn_select_newdate Toy.sleep_idle "node1"
              {| ns_status := "offline"; ns_lastCheck := None; ns_error := None;
                 ns_failureTime := None |}
              Toy.w_start eq_refl eq_refl)
    as (st & w1 & Hkill & _ & _ & Hflag & _ & _ & _ & Hreject).
  exists st, w1. split; [exact Hkill|]. split; [exact Hflag|].
  exact (Hreject 0%nat Toy.req_select_node1 eq_refl).
Defined.

Lemma w_start_known : known_nodes Toy.w_start.
Proof.
  intros node. unfold Toy.w_start, initial_world, pools. simpl.
  rewrite !lookup_insert_is_Some', lookup_empty, !elem_of_cons, elem_of_nil.
  split.
  - intros [<- | [<- | [<- | Hnone]]]; auto. by destruct Hnone.
  - intros [-> | [-> | [-> | []]]]; auto.
Defined.

(** As the server starts the registry knows the three nodes, and still
    does after fragment A is killed. *)
Lemma registry_keeps_nodes_witness : known_nodes (snd (kill "node1" Toy.w_start)).
Proof.
  exact (proj1 (registry_keeps_nodes Toy.getConnection Toy.conn_query
                  Toy.w_start w_start_known) "node1").
Defined.

Lemma lock_then_release_witness :
  exists w1 w2,
    startTransaction Toy.sleep_idle 0 (Some 1001) "node0" Toy.w_start = (Done tt, w1)
    /\ commitTransaction (Some 1001) w1 = (Done tt, w2)
    /\ activeTransactions w2 = activeTransactions Toy.w_start.
Proof.
  destruct (lock_then_release Toy.sleep_idle 0 1001 "node0" Toy.w_start
              key_1001_nonzero eq_refl)
    as (w1 & w2 & Hstart & _ & _ & Hcommit & Hback & _).
  exists w1, w2. split; [exact Hstart|]. split; [exact Hcommit | exact Hback].
Defined.

Lemma w_marked_admission :
  admission Toy.sleep_idle 101 (isWriteQuery (req_query Toy.req_update))
    (parseTransId (req_query Toy.req_update)) (req_node Toy.req_update)
    (effective_isolation (req_isolationLevel Toy.req_update))
    Toy.w_marked_connected
  = (Thrown (LockTimeout 1001), Toy.w_marked_timed_out).
Proof. vm_compute. reflexivity. Defined.

(** The writer that gives up on key 1001 removes the marker of node1. *)
Lemma timeout_removes_waited_marker_witness :
  activeTransactions Toy.w_marked !! 1001
  = Some {| marker_node := "node1"; marker_startTime := 0 |}
  /\ exists logEntry w',
       Toy.execute Toy.sleep_idle 101 Toy.req_update Toy.w_marked
       = (Done (ExecutionFailed 0 (LockTimeout 1001) logEntry), w')
       /\ activeTransactions w' !! 1001 = None.
Proof.
  split; [vm_compute; reflexivity|].
  destruct (timeout_removes_waited_marker Toy.getConnection Toy.conn_query
              Toy.conn_select_newdate Toy.sleep_idle 101 Toy.req_update 1001
              (LockTimeout 1001) Toy.w_marked Toy.w_marked_connected
              Toy.w_marked_timed_out eq_refl eq_refl eq_refl eq_refl
              w_marked_admission)
    as (logEntry & w' & Hexec & _ & _ & _ & Hfree & _).
  exists logEntry, w'. split; [exact Hexec | exact Hfree].
Defined.

(** The dirty read of record 1001 removes the marker of node1. *)
Lemma dirty_read_removes_marker_witness :
  exists resp w',
    Toy.execute Toy.sleep_idle 0 Toy.req_dirty_read Toy.w_marked = (Done resp, w')
    /\ activeTransactions w' = delete 1001 (activeTransactions Toy.w_marked).
Proof.
  destruct (dirty_read_removes_marker Toy.getConnection Toy.conn_query
              Toy.conn_select_newdate Toy.sleep_idle 0 Toy.req_dirty_read 1001
              Toy.w_marked eq_refl eq_refl eq_refl eq_refl eq_refl)
    as (resp & w' & evs & Hexec & Hactive & _).
  exists resp, w'. split; [exact Hexec | exact Hactive].
Defined.

Lemma zero_id_is_no_key_witness :
  exists entries w',
    Toy.replicateWrite "node0" Toy.update_zero Toy.w_start = (Done entries, w')
    /\ map entry_target entries = ["node1"; "node2"].
Proof.
  exact (proj2 (proj2 (zero_id_is_no_key Toy.getConnection Toy.conn_query
                         Toy.conn_select_newdate Toy.sleep_idle 0
                         Toy.update_zero Toy.w_start eq_refl eq_refl))).
Defined.

(** The update of record 1001 on the master is answered 200, with the
    replication list of its log entry. *)
Lemma answer_echoes_request_witness :
  exists resp w',
    Toy.execute Toy.sleep_idle 0 Toy.req_update Toy.w_start = (Done resp, w')
    /\ match resp with
       | Executed transactionId _ replication logEntry =>
           transactionId = 0%nat
           /\ log_replication logEntry = Some replication
           /\ (List.length replication <= 2)%nat
       | _ => False
       end.
Proof.
  assert (Hrun : exists resp w',
            Toy.execute Toy.sleep_idle 0 Toy.req_update Toy.w_start = (Done resp, w')
            /\ match resp with Executed _ _ _ _ => True | _ => False end)
    by (eexists _, _; split; [vm_compute; reflexivity | exact I]).
  destruct Hrun as (resp & w' & Hexec & Hkind).
  pose proof (answer_echoes_request Toy.getConnection Toy.conn_query
                Toy.conn_select_newdate Toy.sleep_idle 0 Toy.req_update
                Toy.w_start w' resp Hexec) as Hecho.
  exists resp, w'. split; [exact Hexec|].
  destruct resp as [ | | transactionId results replication logEntry | ];
    try contradiction.
  destruct Hecho as (Hid & (endTime & entries & -> & ->) & Hlen & _).
  split; [exact Hid|]. split; [reflexivity | exact Hlen].
Defined.

(** * Runs of the model *)

Example parseTransId_update :
  parseTransId "UPDATE trans SET amount = 2500.00 WHERE trans_id = 1002" = Some 1002.
Proof. reflexivity. Qed.

Example parseTransId_insert :
  parseTransId
    "INSERT INTO trans (trans_id, account_id, newdate, amount, balance) VALUES (1001, 'ACC1001', '1996-05-15', 1500.00, 6500.00)"
  = None.
Proof. reflexivity. Qed.

Example parseTransId_case_and_space :
  parseTransId "select * from trans where   TRANS_ID=42;" = Some 42.
Proof. reflexivity. Qed.

Example parseTransId_needs_space :
  parseTransId "SELECT * FROM trans WHEREtrans_id = 42" = None.
Proof. reflexivity. Qed.

Example isWriteQuery_examples :
  isWriteQuery "  update trans SET amount = 1 WHERE trans_id = 7" = true
  /\ isWriteQuery "SELECT * FROM trans WHERE trans_id = 7" = false.
Proof. split; reflexivity. Qed.

(** The boundary is midnight UTC of 1997-01-01. *)
Example FRAG_BOUNDARY_date : utc_midnight 1997 1 1 = DateValue FRAG_BOUNDARY.
Proof. reflexivity. Qed.

Example days_from_civil_epoch :
  days_from_civil 1970 1 1 = 0 /\ days_from_civil 2000 3 1 = 11017.
Proof. split; reflexivity. Qed.

(** A record dated on the boundary goes to fragment B. *)
Example boundary_record_to_node2 :
  map entry_target
    (match fst (Toy.replicateWrite "node0"
                  "UPDATE trans SET amount = 1 WHERE trans_id = 99902" Toy.w_start) with
     | Done entries => entries
     | _ => []
     end)
  = ["node2"].
Proof. vm_compute. reflexivity. Qed.

(** The holder commits during the first wait: the writer waits once and
    takes the key. *)
Example lock_wait_then_acquire :
  let r := startTransaction (Toy.sleep_release 1001) 101 (Some 1001) "node0"
             Toy.w_marked in
  fst r = Done tt
  /\ io (snd r) = [TimerWait 50; ConsoleTxnStart 1001 "node0"]
  /\ activeTransactions (snd r) !! 1001
     = Some {| marker_node := "node0"; marker_startTime := 50 |}.
Proof. vm_compute. repeat split; reflexivity. Qed.

(** The holder never commits: the writer gives up after 101 waits, at
    5050 ms, and the marker of the holder is as it was. *)
Example lock_timeout :
  let r := startTransaction Toy.sleep_idle 101 (Some 1001) "node0" Toy.w_marked in
  fst r = Thrown (LockTimeout 1001)
  /\ io (snd r) = repeat (TimerWait 50) 101
  /\ clock (snd r) = 5050
  /\ activeTransactions (snd r) = activeTransactions Toy.w_marked.
Proof. vm_compute. repeat split; reflexivity. Qed.

Example lock_timeout_message :
  error_message (LockTimeout 1001)
  = "Transaction 1001: Timeout waiting for concurrent write to complete".
Proof. reflexivity. Qed.

(** Scenario C: fragment A answers again and the missed entry is replayed. *)
Example replay_missed_entry :
  let r := Toy.replayFailedReplications "node1" Toy.w_missed in
  match fst r with
  | Done results =>
      (replay_total results, replay_success results, replay_failed results)
      = (1, 1, 0)%nat
  | _ => False
  end
  /\ replicationQueue (snd r)
     = [{| entry_id := 1; entry_source := "node0"; entry_target := "node1";
           entry_query := Toy.update_1001; entry_status := Replicated;
           entry_error := None; entry_time := 0; entry_recoveryTime := Some 0 |}]
  /\ io (snd r) = [GetConnection "node1"; ConnQuery "node1" Toy.update_1001].
Proof. vm_compute. repeat split; reflexivity. Qed.
